(** * joystick_mouse.py: the control loop of the joystick-to-mouse bridge

    A shallow embedding of the body of [main]'s [while running] loop
    (src/joystick_mouse.py, lines 217-312) together with the tables it
    reads ([DEFAULT_PARAMS], [CONFIG_ITEMS]), and the properties of the
    loop that are stated of it.

    The loop works on Python floats.  The embedding is written once over
    an interface [PyFloat] of the float operations the loop uses, and the
    interface has two instances:

    - [F64.py_float]: IEEE-754 binary64, i.e. what CPython computes,
      through Rocq's primitive floats; everything evaluates;
    - [Exact.py_float]: the real numbers, with no rounding and no
      overflow, for the analytic bound on the velocity.

    One tick of the loop is a computation in a state-and-output monad
    with exceptions: the state is the loop's local variables, the output
    is the list of calls made to [ydotool], [save_config] and [log.add],
    and an uncaught Python exception ends the run.

    What the loop reads from outside is a record of readings per tick
    ([Input]): the device, the clock and the outcome of writing the
    configuration file.  The readings are total: a button, axis or hat
    the device does not have (where pygame raises) and a missing
    [ydotool] (where [subprocess.run] raises) are outside the model.
    Rendering (lines 314-376) reads the state and changes none of it.

    Beside the loop, three parts of the program are embedded, each in a
    module of its own:

    - [LogDisplay]: [LogDisplay.add] (lines 104-109) on strings as
      lists of code points;
    - [Joy]: [Joy.init] and the reads [a], [b], [h] (lines 127-158),
      over a record of what pygame answers, an exception of pygame
      being an answer [None];
    - [Config]: [load_config], [save_config] and the start of [main]
      up to line 177, on dictionaries as finite maps.  The file is what
      [json.load] would return for it; [argparse] is taken by what it
      does to the options it is given. *)

From Stdlib Require Import ZArith List Bool String Floats Reals Lra Lia.
From stdpp Require Import base option gmap strings.
Import ListNotations.

Set Default Proof Using "Type".

(** ** Results of fallible code *)

(** The exceptions the loop body can raise and does not catch. *)
Inductive exn : Set :=
| ZeroDivisionError
| OverflowError
| ValueError
| IndexError
| AttributeError.

Inductive res (A : Type) : Type :=
| Ok (a : A)
| Raise (e : exn).
Arguments Ok {A} a.
Arguments Raise {A} e.

Global Instance res_ret : MRet res := λ A a, Ok a.
Global Instance res_bind : MBind res := λ A B f m,
  match m with
  | Ok a => f a
  | Raise e => Raise e
  end.

Definition is_ok {A} (r : res A) : bool :=
  match r with Ok _ => true | Raise _ => false end.

(** ** The float operations used by the loop *)

Class PyFloat (T : Type) := {
  (** the literal [m / 10^k], e.g. [lit 18 2] for [0.18] *)
  lit : Z → nat → T;
  fadd : T → T → T;
  fsub : T → T → T;
  fmul : T → T → T;
  (** [x / y]; Python raises ZeroDivisionError on a zero divisor *)
  fdiv : T → T → res T;
  fneg : T → T;
  fabs : T → T;
  (** [x < y] *)
  flt : T → T → bool;
  (** [x ** 2]; Python raises OverflowError when a finite [x] overflows *)
  pow2 : T → res T;
  (** [x ** 0.5] *)
  pow_half : T → T;
  (** [round(x, 2)] *)
  round2 : T → T;
  (** [int(x)]: truncation toward zero; ValueError on NaN, OverflowError
      on an infinity *)
  to_int : T → res Z;
}.

(** Python's [max(a, b)] and [min(a, b)] on two arguments: the first
    argument is kept unless the second compares strictly greater
    (smaller). *)
Definition py_max `{PyFloat T} (a b : T) : T := if flt a b then b else a.
Definition py_min `{PyFloat T} (a b : T) : T := if flt b a then b else a.

(** ** Instance: IEEE-754 binary64 *)

Module F64.

(** An integer of magnitude below [2^53], exactly. *)
Definition of_Z (n : Z) : float :=
  let a := PrimFloat.of_uint63 (Uint63.of_Z (Z.abs n)) in
  if (n <? 0)%Z then PrimFloat.opp a else a.

(** The double nearest to [m / 10^k], for [m] and [10^k] of magnitude
    below [2^53]: both operands are exact and the division is correctly
    rounded, as is Python's reading of the literal. *)
Definition lit (m : Z) (k : nat) : float :=
  PrimFloat.div (of_Z m) (of_Z (10 ^ Z.of_nat k)).

Definition is_finite (x : float) : bool :=
  match Prim2SF x with
  | S754_zero _ | S754_finite _ _ _ => true
  | S754_infinity _ | S754_nan => false
  end.

Definition div (x y : float) : res float :=
  if PrimFloat.eqb y PrimFloat.zero then Raise ZeroDivisionError
  else Ok (PrimFloat.div x y).

(** [float.__pow__] with exponent 2: the product, and OverflowError
    when a finite base gives an infinite result. *)
Definition pow2 (x : float) : res float :=
  let y := PrimFloat.mul x x in
  if is_finite x && negb (is_finite y) then Raise OverflowError else Ok y.

(** [float.__pow__] with exponent 0.5, on the arguments the loop passes
    to it (a sum of two squares: never negative, where Python would
    return a complex number).  CPython calls the C library's [pow], taken
    here to return the correctly rounded square root, as it does on every
    exact square. *)
Definition pow_half (x : float) : float := PrimFloat.sqrt x.

(** [int(x)] *)
Definition to_int (x : float) : res Z :=
  match Prim2SF x with
  | S754_zero _ => Ok 0%Z
  | S754_infinity _ => Raise OverflowError
  | S754_nan => Raise ValueError
  | S754_finite s m e =>
      let a := (if 0 <=? e then Z.pos m * 2 ^ e
                else Z.pos m / 2 ^ (- e))%Z in
      Ok (if s then (- a)%Z else a)
  end.

(** The integer nearest to [100 * m * 2^e], ties to even. *)
Definition centi (m : positive) (e : Z) : Z :=
  (if 0 <=? e then 100 * Z.pos m * 2 ^ e
   else
     let num := 100 * Z.pos m in
     let den := 2 ^ (- e) in
     let q := num / den in
     let r := num mod den in
     match 2 * r ?= den with
     | Lt => q
     | Gt => q + 1
     | Eq => if Z.even q then q else q + 1
     end)%Z.

(** [round(x, 2)]: the exact value of [x] is rounded to two decimals
    (ties to even) and the decimal is read back as the nearest double.
    Not-finite values round to themselves; from [2^46] on the spacing
    of doubles makes [x] itself the nearest double to its rounding. *)
Definition round2 (x : float) : float :=
  match Prim2SF x with
  | S754_finite s m e =>
      if PrimFloat.leb (of_Z (2 ^ 46)) (PrimFloat.abs x) then x
      else
        let q := PrimFloat.div (of_Z (centi m e)) (of_Z 100) in
        if s then PrimFloat.opp q else q
  | _ => x
  end.

Global Instance py_float : PyFloat float :=
  Build_PyFloat float lit PrimFloat.add PrimFloat.sub PrimFloat.mul div
    PrimFloat.opp PrimFloat.abs PrimFloat.ltb pow2 pow_half round2 to_int.

End F64.

(** ** Instance: exact real arithmetic *)

Module Exact.

Definition lit (m : Z) (k : nat) : R := (IZR m / IZR (10 ^ Z.of_nat k))%R.

Definition div (x y : R) : res R :=
  if Req_EM_T y 0%R then Raise ZeroDivisionError else Ok (x / y)%R.

Definition ltb (x y : R) : bool := if Rlt_dec x y then true else false.

(** Truncation toward zero. *)
Definition trunc (x : R) : Z :=
  if Rle_dec 0 x then Int_part x else (- Int_part (- x))%Z.

(** The integer nearest to [x], ties to even. *)
Definition nearest_even (x : R) : Z :=
  let q := Int_part x in
  let r := frac_part x in
  if Rlt_dec r (1 / 2) then q
  else if Rlt_dec (1 / 2) r then (q + 1)%Z
  else if Z.even q then q else (q + 1)%Z.

Definition round2 (x : R) : R := (IZR (nearest_even (100 * x)) / 100)%R.

Global Instance py_float : PyFloat R :=
  Build_PyFloat R lit Rplus Rminus Rmult div Ropp Rabs ltb
    (λ x, Ok (x * x)%R) sqrt round2 (λ x, Ok (trunc x)).

End Exact.

(** ** The loop *)

Section Loop.
Context {T : Type} `{PyFloat T}.

(** *** Parameters ([args]) *)

(** The attributes of [args] the loop body reads.  The five tunables
    are floats; axis and button numbers are integers.  The window, the
    frame rate and the joystick index are read outside the loop body,
    and the four [hat_*_key] attributes are read nowhere (line 275 has
    the key codes). *)
Record Args := {
  sensitivity : T;
  deadzone : T;
  max_velocity : T;
  friction : T;
  acceleration : T;
  mouse_x_axis : Z;
  mouse_y_axis : Z;
  btn_left_drag : Z;
  btn_right_click : Z;
  btn_mute : Z;
  btn_play_pause : Z;
  btn_stop_mouse : Z;
  btn_resume_mouse : Z;
  btn_enter_config : Z;
  btn_save_config : Z;
}.

Definition DEFAULT_PARAMS : Args := {|
  sensitivity := lit 12 1;
  deadzone := lit 7 2;
  max_velocity := lit 130 1;
  friction := lit 6 1;
  acceleration := lit 100 1;
  mouse_x_axis := 0;
  mouse_y_axis := 1;
  btn_left_drag := 0;
  btn_right_click := 1;
  btn_mute := 2;
  btn_play_pause := 3;
  btn_stop_mouse := 6;
  btn_resume_mouse := 5;
  btn_enter_config := 10;
  btn_save_config := 9;
|}.

(** [(name, step, min, max, format)] *)
Definition CONFIG_ITEMS : list (string * T * T * T * string) := [
  ("sensitivity",  lit 1 1, lit 1 1,  lit 70 1,  "{:.1f}");
  ("deadzone",     lit 1 2, lit 0 1,  lit 3 1,   "{:.3f}");
  ("max_velocity", lit 10 1, lit 10 1, lit 300 1, "{:.0f}");
  ("friction",     lit 1 1, lit 1 1,  lit 10 1,  "{:.1f}");
  ("acceleration", lit 1 1, lit 10 1, lit 200 1, "{:.1f}")
].

(** [getattr(args, k)] on the tunables. *)
Definition getattr (a : Args) (k : string) : res T :=
  if decide (k = "sensitivity") then Ok (sensitivity a)
  else if decide (k = "deadzone") then Ok (deadzone a)
  else if decide (k = "max_velocity") then Ok (max_velocity a)
  else if decide (k = "friction") then Ok (friction a)
  else if decide (k = "acceleration") then Ok (acceleration a)
  else Raise AttributeError.

Definition with_tunables (a : Args) (s d m f c : T) : Args := {|
  sensitivity := s;
  deadzone := d;
  max_velocity := m;
  friction := f;
  acceleration := c;
  mouse_x_axis := mouse_x_axis a;
  mouse_y_axis := mouse_y_axis a;
  btn_left_drag := btn_left_drag a;
  btn_right_click := btn_right_click a;
  btn_mute := btn_mute a;
  btn_play_pause := btn_play_pause a;
  btn_stop_mouse := btn_stop_mouse a;
  btn_resume_mouse := btn_resume_mouse a;
  btn_enter_config := btn_enter_config a;
  btn_save_config := btn_save_config a;
|}.

(** [setattr(args, k, v)] on the tunables; another name would add an
    attribute the loop never reads. *)
Definition setattr (a : Args) (k : string) (v : T) : Args :=
  let '(s, d, m, f, c) :=
    (sensitivity a, deadzone a, max_velocity a, friction a, acceleration a) in
  if decide (k = "sensitivity") then with_tunables a v d m f c
  else if decide (k = "deadzone") then with_tunables a s v m f c
  else if decide (k = "max_velocity") then with_tunables a s d v f c
  else if decide (k = "friction") then with_tunables a s d m v c
  else if decide (k = "acceleration") then with_tunables a s d m f v
  else a.

(** Python's [l[i]]: negative indices count from the end. *)
Definition py_index {A} (l : list A) (i : Z) : res A :=
  let n := Z.of_nat (length l) in
  let j := (if i <? 0 then i + n else i)%Z in
  if (j <? 0)%Z then Raise IndexError
  else match l !! Z.to_nat j with
       | Some x => Ok x
       | None => Raise IndexError
       end.

(** *** What the tick reads from the outside *)

(** One tick's readings: the device after [joy.init()], the clock, and
    whether writing the configuration file will succeed. *)
Record Input := {
  joy_connected : bool;          (* joy.connected after joy.init() *)
  get_button : Z → bool;         (* joy.j.get_button *)
  get_axis : Z → T;              (* joy.j.get_axis *)
  get_hat : Z * Z;               (* joy.j.get_hat(0) *)
  time_now : T;                  (* time.time() at line 240 *)
  time_saved : T;                (* time.time() at line 257 *)
  save_succeeds : bool;          (* the result of save_config *)
}.

(** [Joy.a], [Joy.b], [Joy.h]: neutral values when disconnected. *)
Definition joy_a (i : Input) (x : Z) : T :=
  if joy_connected i then get_axis i x else lit 0 1.
Definition joy_b (i : Input) (x : Z) : bool :=
  if joy_connected i then get_button i x else false.
Definition joy_h (i : Input) : Z * Z :=
  if joy_connected i then get_hat i else (0, 0)%Z.

(** *** What the tick does to the outside *)

Inductive Event :=
| LogAdd (msg : string)          (* log.add(msg) *)
| LogParam (k : string) (v : T)  (* log.add(f"{k} → {new_val}") *)
| SaveConfig (a : Args)          (* json.dump of the parameters *)
| KeyTap (code : Z)              (* ydotool key code:1 code:0 *)
| MouseMove (dx dy : Z)          (* ydotool mousemove -x dx -y dy *)
| Click (code : Z).              (* ydotool click code *)

(** *** The loop's variables *)

Record State := {
  vx : T;
  vy : T;
  mouse_active : bool;
  dragging : bool;
  config_mode : bool;
  sel : Z;
  prev_hat : Z * Z;
  last_hat_time : T;
  btn_state : gmap string bool;
  args : Args;
  log_saved_time : T;
}.

(** The variables as [main] initialises them, for given [args]. *)
Definition init_state (a : Args) : State := {|
  vx := lit 0 1;
  vy := lit 0 1;
  mouse_active := true;
  dragging := false;
  config_mode := false;
  sel := 0;
  prev_hat := (0, 0)%Z;
  last_hat_time := lit 0 0;
  btn_state := ∅;
  args := a;
  log_saved_time := lit 0 1;
|}.

Definition set_velocity (x y : T) (s : State) : State :=
  {| vx := x; vy := y; mouse_active := mouse_active s;
     dragging := dragging s; config_mode := config_mode s; sel := sel s;
     prev_hat := prev_hat s; last_hat_time := last_hat_time s;
     btn_state := btn_state s; args := args s;
     log_saved_time := log_saved_time s |}.
Definition set_mouse_active (b : bool) (s : State) : State :=
  {| vx := vx s; vy := vy s; mouse_active := b;
     dragging := dragging s; config_mode := config_mode s; sel := sel s;
     prev_hat := prev_hat s; last_hat_time := last_hat_time s;
     btn_state := btn_state s; args := args s;
     log_saved_time := log_saved_time s |}.
Definition set_dragging (b : bool) (s : State) : State :=
  {| vx := vx s; vy := vy s; mouse_active := mouse_active s;
     dragging := b; config_mode := config_mode s; sel := sel s;
     prev_hat := prev_hat s; last_hat_time := last_hat_time s;
     btn_state := btn_state s; args := args s;
     log_saved_time := log_saved_time s |}.
Definition set_config_mode (b : bool) (s : State) : State :=
  {| vx := vx s; vy := vy s; mouse_active := mouse_active s;
     dragging := dragging s; config_mode := b; sel := sel s;
     prev_hat := prev_hat s; last_hat_time := last_hat_time s;
     btn_state := btn_state s; args := args s;
     log_saved_time := log_saved_time s |}.
Definition set_sel (n : Z) (s : State) : State :=
  {| vx := vx s; vy := vy s; mouse_active := mouse_active s;
     dragging := dragging s; config_mode := config_mode s; sel := n;
     prev_hat := prev_hat s; last_hat_time := last_hat_time s;
     btn_state := btn_state s; args := args s;
     log_saved_time := log_saved_time s |}.
Definition set_prev_hat (h : Z * Z) (s : State) : State :=
  {| vx := vx s; vy := vy s; mouse_active := mouse_active s;
     dragging := dragging s; config_mode := config_mode s; sel := sel s;
     prev_hat := h; last_hat_time := last_hat_time s;
     btn_state := btn_state s; args := args s;
     log_saved_time := log_saved_time s |}.
Definition set_last_hat_time (t : T) (s : State) : State :=
  {| vx := vx s; vy := vy s; mouse_active := mouse_active s;
     dragging := dragging s; config_mode := config_mode s; sel := sel s;
     prev_hat := prev_hat s; last_hat_time := t;
     btn_state := btn_state s; args := args s;
     log_saved_time := log_saved_time s |}.
Definition set_btn_state (m : gmap string bool) (s : State) : State :=
  {| vx := vx s; vy := vy s; mouse_active := mouse_active s;
     dragging := dragging s; config_mode := config_mode s; sel := sel s;
     prev_hat := prev_hat s; last_hat_time := last_hat_time s;
     btn_state := m; args := args s;
     log_saved_time := log_saved_time s |}.
Definition set_args (a : Args) (s : State) : State :=
  {| vx := vx s; vy := vy s; mouse_active := mouse_active s;
     dragging := dragging s; config_mode := config_mode s; sel := sel s;
     prev_hat := prev_hat s; last_hat_time := last_hat_time s;
     btn_state := btn_state s; args := a;
     log_saved_time := log_saved_time s |}.
Definition set_log_saved_time (t : T) (s : State) : State :=
  {| vx := vx s; vy := vy s; mouse_active := mouse_active s;
     dragging := dragging s; config_mode := config_mode s; sel := sel s;
     prev_hat := prev_hat s; last_hat_time := last_hat_time s;
     btn_state := btn_state s; args := args s;
     log_saved_time := t |}.

(** *** The monad of the loop body *)

(** A computation reads and writes the loop's variables, appends to the
    tick's output, and returns or raises. *)
Definition M (A : Type) : Type := State → res (A * State * list Event).

Definition ret {A} (a : A) : M A := λ s, Ok (a, s, []).
Definition bind {A B} (m : M A) (f : A → M B) : M B := λ s,
  match m s with
  | Ok (a, s1, o1) =>
      match f a s1 with
      | Ok (b, s2, o2) => Ok (b, s2, o1 ++ o2)
      | Raise e => Raise e
      end
  | Raise e => Raise e
  end.
Definition get : M State := λ s, Ok (s, s, []).
Definition modify (f : State → State) : M unit := λ s, Ok (tt, f s, []).
Definition emit (e : Event) : M unit := λ s, Ok (tt, s, [e]).
Definition lift {A} (r : res A) : M A := λ s,
  match r with
  | Ok a => Ok (a, s, [])
  | Raise e => Raise e
  end.
Definition when (b : bool) (m : M unit) : M unit := if b then m else ret tt.

Global Instance M_ret : MRet M := @ret.
Global Instance M_bind : MBind M := λ A B f m, bind m f.

(** *** Edge detection (lines 225-233) *)

(** The body of [edge] on the level [p] read from the button and the
    dictionary [btn_state]: the result and the dictionary afterwards. *)
Definition edge_step (p : bool) (key : string) (bs : gmap string bool)
  : bool * gmap string bool :=
  let was := default false (bs !! key) in
  if p && negb was then (true, <[key := true]> bs)
  else if negb p then (false, <[key := false]> bs)
  else (false, bs).

Definition edge (i : Input) (key : string) (btn : Z) : M bool :=
  s ← get;
  let '(r, bs) := edge_step (joy_b i btn) key (btn_state s) in
  modify (set_btn_state bs);;
  mret r.

(** *** Input conditioning (lines 280-295) *)

(** Lines 282-285: an axis below the deadzone reads as [0]. *)
Definition condition (raw dz : T) : T :=
  if flt (fabs raw) dz then lit 0 0 else raw.

(** Line 292: [(vx**2 + vy**2)**0.5]. *)
Definition speed_of (x y : T) : res T :=
  x2 ← pow2 x;
  y2 ← pow2 y;
  mret (pow_half (fadd x2 y2)).

(** Lines 292-295: the velocity ceiling. *)
Definition clamp (x y maxv : T) : res (T * T) :=
  speed ← speed_of x y;
  if flt maxv speed then
    qx ← fdiv x speed;
    qy ← fdiv y speed;
    mret (fmul qx maxv, fmul qy maxv)
  else mret (x, y).

(** Lines 287-295: acceleration, friction, ceiling. *)
Definition integrate (fx fy accel fric maxv : T) (v : T * T) : res (T * T) :=
  let x := fadd (fst v) (fmul fx accel) in
  let y := fadd (snd v) (fmul fy accel) in
  let x := fmul x fric in
  let y := fmul y fric in
  clamp x y maxv.

(** The velocities reached from [v] under a series of conditioned axis
    readings. *)
Fixpoint integrate_all (accel fric maxv : T) (v : T * T)
    (fs : list (T * T)) : res (list (T * T)) :=
  match fs with
  | [] => Ok []
  | f :: fs =>
      v1 ← integrate f.1 f.2 accel fric maxv v;
      vs ← integrate_all accel fric maxv v1 fs;
      mret (v1 :: vs)
  end.

(** *** Parameter adjustment (lines 248-251) *)

(** The new value of a parameter at [val] for one configuration item,
    [right] telling a pad "right" ([hat == (1,0)]) from a pad "left". *)
Definition adjust (item : string * T * T * T * string) (val : T)
    (right : bool) : T :=
  let '(_, step, mn, mx, _) := item in
  let delta := if right then step else fneg step in
  py_max mn
    (py_min mx
       (if flt step (lit 1 0) then round2 (fadd val delta)
        else fadd val delta)).

(** The successive values of a parameter under a series of pad
    adjustments. *)
Fixpoint adjust_all (item : string * T * T * T * string) (val : T)
    (dirs : list bool) : list T :=
  match dirs with
  | [] => []
  | d :: dirs =>
      let v := adjust item val d in
      v :: adjust_all item v dirs
  end.

(** *** The parts of a tick *)

Definition hat_eqb (a b : Z * Z) : bool :=
  ((a.1 =? b.1) && (a.2 =? b.2))%Z.

(** Lines 235-237: the configuration toggle. *)
Definition toggle_phase (i : Input) : M unit :=
  s ← get;
  e ← edge i "cfg" (btn_enter_config (args s));
  when e (
    modify (λ s, set_config_mode (negb (config_mode s)) s);;
    s ← get;
    emit (LogAdd (if config_mode s then "CONFIG MODE" else "NORMAL MODE"))).

(** Lines 240-253: the pad in configuration mode, behind the debounce
    gate of line 241. *)
Definition config_pad (i : Input) (hat : Z * Z) : M unit :=
  let now := time_now i in
  s ← get;
  when (negb (hat_eqb hat (prev_hat s))
        && flt (lit 18 2) (fsub now (last_hat_time s))) (
    modify (set_last_hat_time now);;
    when (hat_eqb hat (0, 1)%Z)
      (modify (λ s,
         set_sel ((sel s + 1) `mod` Z.of_nat (length CONFIG_ITEMS))%Z s));;
    when (hat_eqb hat (0, -1)%Z)
      (modify (λ s,
         set_sel ((sel s - 1) `mod` Z.of_nat (length CONFIG_ITEMS))%Z s));;
    when (hat_eqb hat (1, 0)%Z || hat_eqb hat (-1, 0)%Z) (
      s ← get;
      item ← lift (py_index CONFIG_ITEMS (sel s));
      let k := item.1.1.1.1 in
      val ← lift (getattr (args s) k);
      let new_val := adjust item val (hat_eqb hat (1, 0)%Z) in
      modify (λ s, set_args (setattr (args s) k new_val) s);;
      emit (LogParam k new_val))).

(** Lines 87-94: [save_config(params)] writes the file and returns
    whether it could; every exception of the write is caught. *)
Definition save_config (i : Input) (params : Args) : M bool :=
  emit (SaveConfig params);;
  mret (save_succeeds i).

(** Lines 255-259: the save control. *)
Definition config_save (i : Input) : M unit :=
  s ← get;
  e ← edge i "save" (btn_save_config (args s));
  when e (
    s ← get;
    ok ← save_config i (args s);
    when ok (
      modify (set_log_saved_time (time_saved i));;
      emit (LogAdd "SAVED joystick_config.json"));;
    modify (set_config_mode false)).

(** Lines 240-259: the tick in configuration mode. *)
Definition config_phase (i : Input) (hat : Z * Z) : M unit :=
  config_pad i hat;;
  config_save i.

(** Line 275: the pad directions and their key codes. *)
Definition cmds (hat : Z * Z) : option Z :=
  if hat_eqb hat (0, -1)%Z then Some 114%Z
  else if hat_eqb hat (0, 1)%Z then Some 115%Z
  else if hat_eqb hat (1, 0)%Z then Some 163%Z
  else if hat_eqb hat (-1, 0)%Z then Some 165%Z
  else None.

(** Lines 305-310: the drag button, read by level. *)
Definition drag_phase (i : Input) : M unit :=
  s ← get;
  let p := joy_b i (btn_left_drag (args s)) in
  if p && negb (dragging s) then
    emit (Click 0x40);;
    modify (set_dragging true)
  else if negb p && dragging s then
    emit (Click 0xB0);;
    modify (set_dragging false)
  else mret tt.

(** Lines 279-310: pointer motion, right click and drag. *)
Definition motion_phase (i : Input) : M unit :=
  s ← get;
  let a := args s in
  let raw_x := condition (joy_a i (mouse_x_axis a)) (deadzone a) in
  let raw_y := condition (joy_a i (mouse_y_axis a)) (deadzone a) in
  v ← lift (integrate raw_x raw_y (acceleration a) (friction a)
              (max_velocity a) (vx s, vy s));
  modify (set_velocity v.1 v.2);;
  dx ← lift (to_int (fmul v.1 (sensitivity a)));
  dy ← lift (to_int (fmul v.2 (sensitivity a)));
  when (negb (dx =? 0)%Z || negb (dy =? 0)%Z) (emit (MouseMove dx dy));;
  when (joy_b i (btn_right_click a)) (emit (Click 0xC1));;
  drag_phase i.

(** Lines 261-266: the buttons that stop and resume the pointer. *)
Definition motion_buttons (i : Input) : M unit :=
  s ← get;
  let a := args s in
  e ← edge i "stop" (btn_stop_mouse a);
  when e (modify (set_mouse_active false);; emit (LogAdd "MOUSE STOPPED"));;
  e ← edge i "resume" (btn_resume_mouse a);
  when e (modify (set_mouse_active true);; emit (LogAdd "MOUSE RESUMED")).

(** Lines 267-272: the one-shot media keys. *)
Definition media_buttons (i : Input) : M unit :=
  s ← get;
  let a := args s in
  e ← edge i "mute" (btn_mute a);
  when e (emit (KeyTap 113);; emit (LogAdd "MUTE"));;
  e ← edge i "play" (btn_play_pause a);
  when e (emit (KeyTap 164);; emit (LogAdd "PLAY/PAUSE")).

(** Lines 261-272: the one-shot buttons of normal mode. *)
Definition normal_buttons (i : Input) : M unit :=
  motion_buttons i;;
  media_buttons i.

(** Lines 274-277: the pad in normal mode. *)
Definition normal_pad (hat : Z * Z) : M unit :=
  s ← get;
  when (negb (hat_eqb hat (prev_hat s)))
    (match cmds hat with
     | Some c => emit (KeyTap c)
     | None => mret tt
     end).

(** Lines 261-310: the tick in normal mode. *)
Definition normal_phase (i : Input) (hat : Z * Z) : M unit :=
  normal_buttons i;;
  normal_pad hat;;
  s ← get;
  when (mouse_active s && joy_connected i) (motion_phase i).

(** *** One iteration of the loop (lines 222-312) *)

Definition tick (i : Input) : M unit :=
  let hat := joy_h i in
  toggle_phase i;;
  s ← get;
  (if config_mode s then config_phase i hat else normal_phase i hat);;
  modify (set_prev_hat hat).

(** The state and the output of one tick from [s]. *)
Definition step (s : State) (i : Input) : res (State * list Event) :=
  match tick i s with
  | Ok (_, s', out) => Ok (s', out)
  | Raise e => Raise e
  end.

(** The loop over a list of readings: the final state and the output of
    every tick, or the exception that ended the run. *)
Fixpoint run (s : State) (ins : list Input)
  : res (State * list (list Event)) :=
  match ins with
  | [] => Ok (s, [])
  | i :: ins =>
      match step s i with
      | Ok (s1, out) =>
          match run s1 ins with
          | Ok (s2, outs) => Ok (s2, out :: outs)
          | Raise e => Raise e
          end
      | Raise e => Raise e
      end
  end.

(** The calls to [edge] on a run of the loop, as the control and the
    level read at each call: every call with its result, from the
    dictionary [bs]. *)
Fixpoint edge_trace (cs : list (string * bool)) (bs : gmap string bool)
  : list (string * bool) :=
  match cs with
  | [] => []
  | (key, p) :: cs =>
      let '(r, bs1) := edge_step p key bs in
      (key, r) :: edge_trace cs bs1
  end.

(** The entries of a list of calls, or of results, for the control [c]. *)
Definition calls_on (c : string) (l : list (string * bool)) : list bool :=
  (filter (λ kp, kp.1 = c) l).*2.

(** The state a run ends in ([s] itself when the run raises). *)
Definition run_state (s : State) (ins : list Input) : State :=
  match run s ins with
  | Ok (s1, _) => s1
  | Raise _ => s
  end.

(** *** Observations on a tick *)

(** Whether the toggle of line 235 fires in the tick from [s] on [i]. *)
Definition cfg_edge (s : State) (i : Input) : bool :=
  (edge_step (joy_b i (btn_enter_config (args s))) "cfg" (btn_state s)).1.

(** The mode the tick runs in: [config_mode] when line 239 tests it. *)
Definition mode_in_tick (s : State) (i : Input) : bool :=
  if cfg_edge s i then negb (config_mode s) else config_mode s.

(** The state and the output when line 239 is reached. *)
Definition toggle_state (s : State) (i : Input) : State :=
  set_config_mode (mode_in_tick s i)
    (set_btn_state
       (edge_step (joy_b i (btn_enter_config (args s))) "cfg"
          (btn_state s)).2 s).

Definition toggle_out (s : State) (i : Input) : list Event :=
  if cfg_edge s i
  then [LogAdd (if mode_in_tick s i then "CONFIG MODE" else "NORMAL MODE")]
  else [].

(** The condition of line 241. *)
Definition pad_gate (s : State) (i : Input) : bool :=
  negb (hat_eqb (joy_h i) (prev_hat s))
  && flt (lit 18 2) (fsub (time_now i) (last_hat_time s)).

(** The tick accepts a pad transition in configuration mode. *)
Definition config_accepts (s : State) (i : Input) : bool :=
  mode_in_tick s i && pad_gate s i.

(** The accepted transition is a pad "left" or "right". *)
Definition config_adjusts (s : State) (i : Input) : bool :=
  config_accepts s i
  && (hat_eqb (joy_h i) (1, 0)%Z || hat_eqb (joy_h i) (-1, 0)%Z).

(** The clock readings of the accepted configuration-mode pad
    transitions of a run, in order. *)
Fixpoint accept_times (s : State) (ins : list Input) : list T :=
  match ins with
  | [] => []
  | i :: ins =>
      match step s i with
      | Ok (s1, _) =>
          (if config_accepts s i then [time_now i] else [])
          ++ accept_times s1 ins
      | Raise _ => []
      end
  end.

(** Each reading is more than [0.18] after the one before it, the first
    one after [last]. *)
Fixpoint gated (last : T) (ts : list T) : Prop :=
  match ts with
  | [] => True
  | t :: ts => flt (lit 18 2) (fsub t last) = true ∧ gated t ts
  end.

(** [P] holds of the state and the reading at every tick of the run. *)
Fixpoint every_tick (P : State → Input → Prop) (s : State)
    (ins : list Input) : Prop :=
  match ins with
  | [] => True
  | i :: ins =>
      P s i ∧
      match step s i with
      | Ok (s1, _) => every_tick P s1 ins
      | Raise _ => True
      end
  end.

(** The motion-active flag when line 279 tests it. *)
Definition mouse_active_in_tick (s : State) (i : Input) : bool :=
  let a := args s in
  let stop := (edge_step (joy_b i (btn_stop_mouse a)) "stop" (btn_state s)).1 in
  let resume :=
    (edge_step (joy_b i (btn_resume_mouse a)) "resume" (btn_state s)).1 in
  if resume then true else if stop then false else mouse_active s.

(** The velocity a tick leaves when it runs lines 280-295: the result of
    [integrate] on the conditioned axes. *)
Definition integrated (s : State) (i : Input) (s' : State) : Prop :=
  let a := args s in
  integrate (condition (joy_a i (mouse_x_axis a)) (deadzone a))
    (condition (joy_a i (mouse_y_axis a)) (deadzone a))
    (acceleration a) (friction a) (max_velocity a) (vx s, vy s)
  = Ok (vx s', vy s').

(** The drag actions in an output: [true] for a drag-begin
    ([click 0x40]), [false] for a drag-end ([click 0xB0]). *)
Definition drag_events (out : list Event) : list bool :=
  omap (λ e, match e with
             | Click c => if (c =? 0x40)%Z then Some true
                          else if (c =? 0xB0)%Z then Some false
                          else None
             | _ => None
             end) out.

(** An action that is neither a drag-begin nor a drag-end. *)
Definition not_drag (e : Event) : Prop := drag_events [e] = [].

(** No parameter is logged as adjusted. *)
Definition not_log_param (e : Event) : Prop := ∀ k v, e ≠ LogParam k v.

(** Whether the control [key], on button [btn], goes from released to
    pressed in the tick from [s]: the condition of line 228. *)
Definition rising (s : State) (i : Input) (key : string) (btn : Z) : bool :=
  joy_b i btn && negb (default false (btn_state s !! key)).

(** The calls to [ydotool] in an output: the key codes tapped, the
    click codes, the pointer displacements. *)
Definition key_taps (out : list Event) : list Z :=
  omap (λ e, match e with KeyTap c => Some c | _ => None end) out.

Definition clicks (out : list Event) : list Z :=
  omap (λ e, match e with Click c => Some c | _ => None end) out.

Definition moves (out : list Event) : list (Z * Z) :=
  omap (λ e, match e with MouseMove dx dy => Some (dx, dy) | _ => None end)
    out.

(** An action that is a call to [ydotool]. *)
Definition is_action (e : Event) : bool :=
  match e with
  | KeyTap _ | MouseMove _ _ | Click _ => true
  | LogAdd _ | LogParam _ _ | SaveConfig _ => false
  end.

(** The click the drag button causes at lines 305-310, for its level
    [p] and the flag [dragging]. *)
Definition drag_click (p dragging : bool) : list Z :=
  if p && negb dragging then [0x40%Z]
  else if negb p && dragging then [0xB0%Z]
  else [].

(** The parameters handed to [save_config] in an output. *)
Definition saves (out : list Event) : list Args :=
  omap (λ e, match e with SaveConfig a => Some a | _ => None end) out.

(** The step of the menu selection a tick makes: [1] for an accepted
    pad transition to [(0,1)] (line 243), [-1] for one to [(0,-1)]
    (line 245). *)
Definition sel_move (s : State) (i : Input) : Z :=
  if config_accepts s i
  then if hat_eqb (joy_h i) (0, 1)%Z then 1
       else if hat_eqb (joy_h i) (0, -1)%Z then -1 else 0
  else 0.

(** The steps of the selection over a run, added up. *)
Fixpoint sel_moves (s : State) (ins : list Input) : Z :=
  match ins with
  | [] => 0
  | i :: ins =>
      match step s i with
      | Ok (s1, _) => sel_move s i + sel_moves s1 ins
      | Raise _ => 0
      end
  end.

(** *** Readings for scenarios *)

(** A connected device at rest at time [t]; saving succeeds. *)
Definition idle_at (t : T) : Input := {|
  joy_connected := true;
  get_button := λ _, false;
  get_axis := λ _, lit 0 1;
  get_hat := (0, 0)%Z;
  time_now := t;
  time_saved := t;
  save_succeeds := true;
|}.

Definition press (b : Z) (i : Input) : Input := {|
  joy_connected := joy_connected i;
  get_button := λ x, if (x =? b)%Z then true else get_button i x;
  get_axis := get_axis i;
  get_hat := get_hat i;
  time_now := time_now i;
  time_saved := time_saved i;
  save_succeeds := save_succeeds i;
|}.

Definition with_axis (x : Z) (v : T) (i : Input) : Input := {|
  joy_connected := joy_connected i;
  get_button := get_button i;
  get_axis := λ y, if (y =? x)%Z then v else get_axis i y;
  get_hat := get_hat i;
  time_now := time_now i;
  time_saved := time_saved i;
  save_succeeds := save_succeeds i;
|}.

Definition with_hat (h : Z * Z) (i : Input) : Input := {|
  joy_connected := joy_connected i;
  get_button := get_button i;
  get_axis := get_axis i;
  get_hat := h;
  time_now := time_now i;
  time_saved := time_saved i;
  save_succeeds := save_succeeds i;
|}.

Definition with_save_result (b : bool) (i : Input) : Input := {|
  joy_connected := joy_connected i;
  get_button := get_button i;
  get_axis := get_axis i;
  get_hat := get_hat i;
  time_now := time_now i;
  time_saved := time_saved i;
  save_succeeds := b;
|}.

(** The device is not there: [joy.init()] has left [connected] down. *)
Definition unplug (i : Input) : Input := {|
  joy_connected := false;
  get_button := get_button i;
  get_axis := get_axis i;
  get_hat := get_hat i;
  time_now := time_now i;
  time_saved := time_saved i;
  save_succeeds := save_succeeds i;
|}.

Definition with_clock (t t' : T) (i : Input) : Input := {|
  joy_connected := joy_connected i;
  get_button := get_button i;
  get_axis := get_axis i;
  get_hat := get_hat i;
  time_now := t;
  time_saved := t';
  save_succeeds := save_succeeds i;
|}.

(** *** Weakest preconditions *)

(** [wpE E m s Q]: from [s], [m] returns with [Q] of its result, the
    state and the output, or raises and [E] holds.  [E := True] is
    partial correctness, [E := False] excludes exceptions. *)
Definition wpE {A} (E : Prop) (m : M A) (s : State)
    (Q : A → State → list Event → Prop) : Prop :=
  match m s with
  | Ok (a, s', o) => Q a s' o
  | Raise _ => E
  end.

(** [m] leaves the observation [f] of the state as it was. *)
Definition preserves {A X} (f : State → X) (m : M A) : Prop :=
  ∀ s, wpE True m s (λ _ s' _, f s' = f s).

(** Every action [m] puts out satisfies [P]. *)
Definition emits_only {A} (P : Event → Prop) (m : M A) : Prop :=
  ∀ s, wpE True m s (λ _ _ o, Forall P o).

(** [m] does the same from a state and from that state with another
    dictionary, the dictionary being carried along. *)
Definition ignores_btn_state {A} (m : M A) : Prop :=
  ∀ s bs,
    m (set_btn_state bs s)
    = match m s with
      | Ok (a, s', o) => Ok (a, set_btn_state bs s', o)
      | Raise e => Raise e
      end.

End Loop.

Arguments Args T : clear implicits.
Arguments Input T : clear implicits.
Arguments Event T : clear implicits.
Arguments State T : clear implicits.
Arguments M T A : clear implicits.

(** ** Ranges of the parameters, on binary64 *)

(** [mn <= v <= mx]; a NaN is in no range. *)
Definition within (mn mx v : float) : Prop :=
  PrimFloat.leb mn v = true ∧ PrimFloat.leb v mx = true.

(** [v] is in the range of a configuration item. *)
Definition item_range (item : string * float * float * float * string)
    (v : float) : Prop :=
  within item.1.1.2 item.1.2 v.

(** Every tunable of [a] is in the range [CONFIG_ITEMS] gives it. *)
Definition params_in_range (a : Args float) : Prop :=
  ∀ item v,
    item ∈ CONFIG_ITEMS (T:=float) →
    getattr a item.1.1.1.1 = Ok v → item_range item v.

(** ** The log ([LogDisplay], lines 99-109) *)

Module LogDisplay.

(** A Python string, as its code points. *)
Definition str : Type := list N.

(** The code points of a string of ASCII characters. *)
Definition codes (s : string) : str :=
  Ascii.N_of_ascii <$> list_ascii_of_string s.

(** Line 106: [msg[:56] + "..." if len(msg) > 59 else msg]. *)
Definition short (msg : str) : str :=
  if (59 <? length msg)%nat then take 56 msg ++ codes "..." else msg.

(** Line 107: the line [f"[{ts}] {short}"]. *)
Definition line (ts msg : str) : str :=
  codes "[" ++ ts ++ codes "] " ++ short msg.

(** [LogDisplay.add] on the list [self.logs], [ts] being what
    [time.strftime("%H:%M")] returns at the call. *)
Definition add (ts msg : str) (logs : list str) : list str :=
  let logs := logs ++ [line ts msg] in
  if (14 <? length logs)%nat then drop 1 logs else logs.

(** The log after a series of calls of [add], each with its time stamp
    and its message. *)
Definition add_all (calls : list (str * str)) (logs : list str) : list str :=
  foldl (λ logs c, add c.1 c.2 logs) logs calls.

(** The lines these calls append. *)
Definition lines (calls : list (str * str)) : list str :=
  (λ c, line c.1 c.2) <$> calls.

End LogDisplay.

(** ** The device ([Joy], lines 127-158) *)

Module Joy.
Section Device.
(** [H]: pygame's [Joystick] objects; [T]: the floats. *)
Context {H T : Type} `{PyFloat T}.

(** The attributes of a [Joy]. *)
Record Joy := {
  idx : Z;
  j : option H;           (* None: Python's None *)
  connected : bool;
  name : string;
  nbtn : Z;
}.

(** [Joy(idx)] *)
Definition new (n : Z) : Joy :=
  {| idx := n; j := None; connected := false; name := ""; nbtn := 0 |}.

Definition set_j (h : option H) (joy : Joy) : Joy :=
  {| idx := idx joy; j := h; connected := connected joy; name := name joy;
     nbtn := nbtn joy |}.
Definition set_connected (b : bool) (joy : Joy) : Joy :=
  {| idx := idx joy; j := j joy; connected := b; name := name joy;
     nbtn := nbtn joy |}.
Definition set_name (n : string) (joy : Joy) : Joy :=
  {| idx := idx joy; j := j joy; connected := connected joy; name := n;
     nbtn := nbtn joy |}.
Definition set_nbtn (n : Z) (joy : Joy) : Joy :=
  {| idx := idx joy; j := j joy; connected := connected joy;
     name := name joy; nbtn := n |}.

(** What pygame answers while one call of [init] runs; [None] stands
    for a raised exception. *)
Record Pygame := {
  get_count : Z;                        (* pygame.joystick.get_count() *)
  Joystick : Z → option H;              (* pygame.joystick.Joystick(idx) *)
  j_init : H → option unit;             (* j.init() *)
  get_name : H → option string;         (* j.get_name() *)
  get_numbuttons : H → option Z;        (* j.get_numbuttons() *)
}.

(** Lines 140-147, the body of the [try]: the object after the last
    statement that ran, and the result, [None] when a statement raised. *)
Definition init_try (p : Pygame) (joy : Joy) : Joy * option bool :=
  match (match j joy with
         | Some h => Some h
         | None => Joystick p (idx joy)
         end) with
  | None => (joy, None)
  | Some h =>
      let joy := set_j (Some h) joy in
      match j_init p h with
      | None => (joy, None)
      | Some _ =>
          let joy := set_connected true joy in
          match get_name p h with
          | None => (joy, None)
          | Some n =>
              let joy := set_name n joy in
              match get_numbuttons p h with
              | None => (joy, None)
              | Some b => (set_nbtn b joy, Some true)
              end
          end
      end
  end.

(** [Joy.init] (lines 135-149): the object afterwards and the result. *)
Definition init (p : Pygame) (joy : Joy) : Joy * bool :=
  if (get_count p <=? idx joy)%Z then (set_connected false joy, false)
  else
    match init_try p joy with
    | (joy, Some r) => (joy, r)
    | (joy, None) => (set_connected false joy, false)
    end.

(** The object after a series of calls of [init]. *)
Definition init_all (ps : list Pygame) (joy : Joy) : Joy :=
  foldl (λ joy p, (init p joy).1) joy ps.

(** What the device answers to the reads of a tick. *)
Record Device := {
  get_axis : H → Z → T;
  get_button : H → Z → bool;
  get_hat : H → Z → Z * Z;
}.

(** [Joy.a], [Joy.b], [Joy.h] (lines 151-158): [self.j.get_axis(x)]
    raises AttributeError when [self.j] is [None]. *)
Definition a (d : Device) (joy : Joy) (x : Z) : res T :=
  if connected joy
  then match j joy with
       | Some h => Ok (get_axis d h x)
       | None => Raise AttributeError
       end
  else Ok (lit 0 1).

Definition b (d : Device) (joy : Joy) (x : Z) : res bool :=
  if connected joy
  then match j joy with
       | Some h => Ok (get_button d h x)
       | None => Raise AttributeError
       end
  else Ok false.

Definition h (d : Device) (joy : Joy) : res (Z * Z) :=
  if connected joy
  then match j joy with
       | Some h => Ok (get_hat d h 0)
       | None => Raise AttributeError
       end
  else Ok (0, 0)%Z.

End Device.
Arguments Joy H : clear implicits.
Arguments Pygame H : clear implicits.
Arguments Device H T : clear implicits.
End Joy.

(** ** The configuration file and the start of [main] (lines 78-94,
    164-177) *)

Module Config.
Section Values.
(** [V]: the values of parameters, a Python dictionary with string keys
    being a finite map. *)
Context {V : Type}.

(** What [json.load] can return: an object (a Python [dict]) or a
    document of another kind (a list, a number, a string, [None], a
    truth value). *)
Inductive Json :=
| JObject (d : gmap string V)
| JOther.

(** The file [joystick_config.json] when it is read: absent, present
    but not to be opened or parsed, or holding a JSON document. *)
Inductive ConfigFile :=
| NoFile
| Unreadable
| Contents (doc : Json).

(** [load_config()] (lines 78-85) *)
Definition load_config (f : ConfigFile) : Json * bool :=
  match f with
  | Contents doc => (doc, true)
  | NoFile | Unreadable => (JObject ∅, false)
  end.

(** What happens to the write of [save_config]: it goes through, or
    [open] raises and the file is as before, or [json.dump] raises
    after [open] has emptied the file. *)
Inductive Write :=
| Written
| OpenFails
| DumpFails.

(** Line 88: [{k: v for k, v in params.items() if k in DEFAULT_PARAMS}] *)
Definition saveable (defaults params : gmap string V) : gmap string V :=
  filter (λ kv, kv.1 ∈ dom defaults) params.

(** [save_config(params)] (lines 87-94): the file afterwards and the
    result.  A document written by [json.dump] is read back by
    [json.load] as the same dictionary. *)
Definition save_config (defaults params : gmap string V) (w : Write)
    (f : ConfigFile) : ConfigFile * bool :=
  match w with
  | Written => (Contents (JObject (saveable defaults params)), true)
  | OpenFails => (f, false)
  | DumpFails => (Unreadable, false)
  end.

(** Lines 164-171: [parser.parse_args()] for the options [given] on the
    command line, by name and converted to the type of their default.
    Every parameter is an option with its default; [argparse] ends the
    program on an option it does not know. *)
Definition parse_args (defaults given : gmap string V)
  : option (gmap string V) :=
  if decide (dom given ⊆ dom defaults) then Some (given ∪ defaults)
  else None.

(** [hasattr(args, k)]: [k] is an attribute [parse_args] has set, or
    [reserved k]: a name Python finds on every [Namespace] object (a
    method, [__class__], [__dict__], ...). *)
Definition hasattr (reserved : string → bool) (a : gmap string V)
    (k : string) : bool :=
  bool_decide (k ∈ dom a) || reserved k.

(** Lines 175-177: the loop over [saved_cfg.items()]. *)
Definition apply_saved (reserved : string → bool)
    (saved a : gmap string V) : gmap string V :=
  map_fold (λ k v a, if hasattr reserved a k then <[k := v]> a else a)
    a saved.

(** How [main] gets to line 179. *)
Inductive Start (A : Type) :=
| Started (a : A)
| Exits                 (* argparse: SystemExit *)
| Crashes (e : exn).

(** Lines 164-177: [args] and [using_file] when [main] goes on. *)
Definition startup (reserved : string → bool)
    (defaults given : gmap string V) (f : ConfigFile)
  : Start (gmap string V * bool) :=
  match parse_args defaults given with
  | None => Exits _
  | Some a =>
      let '(saved_cfg, using_file) := load_config f in
      match saved_cfg with
      | JObject saved => Started _ (apply_saved reserved saved a, using_file)
      | JOther => Crashes _ AttributeError
      end
  end.

End Values.
Arguments Json V : clear implicits.
Arguments ConfigFile V : clear implicits.
Arguments Started {A} a.
Arguments Exits {A}.
Arguments Crashes {A} e.
End Config.

(** ** Scenarios, on binary64 *)

Module Scenario.

(** The loop as [main] enters it with the default parameters. *)
Definition start : State float := init_state DEFAULT_PARAMS.

(** The loop as [main] enters it when started with
    [--max_velocity -1]. *)
Definition start_negative_ceiling : State float :=
  init_state (setattr DEFAULT_PARAMS "max_velocity" (lit (-1) 0)).

(** The device at rest, [n] seconds on the clock. *)
Definition idle (n : Z) : Input float := idle_at (lit n 0).

(** The toggle control (button 10) is pressed while the pad points
    right; the device rests; the toggle is pressed again. *)
Definition adjust_then_leave : list (Input float) * Input float :=
  ([press 10 (with_hat (1, 0)%Z (idle 1000)); idle 1001],
   press 10 (idle 1002)).

(** The toggle is pressed; mute (button 2) goes down while in
    configuration mode; the toggle is pressed again with mute still
    down. *)
Definition mute_across_config : list (Input float) * Input float :=
  ([press 10 (idle 1000); press 2 (idle 1001)],
   press 10 (press 2 (idle 1002))).

(** Stop (button 6) is pressed; then the drag button (button 0). *)
Definition drag_while_stopped : list (Input float) * Input float :=
  ([press 6 (idle 1000)], press 0 (idle 1001)).

(** The stick is held full right and full down for three ticks. *)
Definition full_diagonal : list (Input float) :=
  replicate 3 (with_axis 1 (lit 1 0) (with_axis 0 (lit 1 0) (idle 1000))).

(** The toggle is pressed with the pad right; a tenth of a second
    later the pad is back at the centre; at one second it points right
    again. *)
Definition two_pad_presses : list (Input float) :=
  [press 10 (with_hat (1, 0)%Z (idle 1000));
   with_hat (0, 0)%Z (idle_at (lit 10001 1));
   with_hat (1, 0)%Z (idle 1001)].

(** The third configuration item. *)
Definition max_velocity_item : string * float * float * float * string :=
  ("max_velocity", lit 10 1, lit 10 1, lit 300 1, "{:.0f}").

(** In configuration mode with the menu on its first item, the save
    control (button 9) goes down. *)
Definition in_config : State float := set_config_mode true start.
Definition save_pressed : Input float := press 9 (idle 1000).

(** A pygame that has one device, whose Joystick object is [7]; and a
    pygame that has none. *)
Definition plugged : Joy.Pygame nat := {|
  Joy.get_count := 1;
  Joy.Joystick := λ _, Some 7%nat;
  Joy.j_init := λ _, Some tt;
  Joy.get_name := λ _, Some "pad";
  Joy.get_numbuttons := λ _, Some 12%Z;
|}.

Definition unplugged : Joy.Pygame nat := {|
  Joy.get_count := 0;
  Joy.Joystick := λ _, None;
  Joy.j_init := λ _, None;
  Joy.get_name := λ _, None;
  Joy.get_numbuttons := λ _, None;
|}.

(** Two of the parameters with their defaults; the command line
    [--max_velocity 20.0]; a file that has a value for [max_velocity]
    and one for a key that is no parameter; the parameters after an
    adjustment of each. *)
Definition two_defaults : gmap string float :=
  {["sensitivity" := lit 12 1; "max_velocity" := lit 130 1]}.
Definition command_line : gmap string float :=
  {["max_velocity" := lit 200 1]}.
Definition file_object : gmap string float :=
  {["max_velocity" := lit 50 1; "colour" := lit 1 0]}.
Definition adjusted : gmap string float :=
  {["sensitivity" := lit 13 1; "max_velocity" := lit 50 1]}.

End Scenario.

(** * Properties *)

(** ** Edge detection *)

Section EdgeDetector.

Lemma edge_step_other (p : bool) (key key' : string) (bs : gmap string bool) :
  key' ≠ key → (edge_step p key bs).2 !! key' = bs !! key'.
Proof.
  intros Hne. unfold edge_step.
  destruct (p && negb (default false (bs !! key))); simpl.
  - by rewrite lookup_insert_ne.
  - destruct (negb p); simpl; [by rewrite lookup_insert_ne | done].
Qed.

Lemma edge_step_rising (key : string) (bs : gmap string bool) :
  default false (bs !! key) = false →
  edge_step true key bs = (true, <[key := true]> bs).
Proof. intros Hwas. unfold edge_step. by rewrite Hwas. Qed.

Lemma edge_step_held (key : string) (bs : gmap string bool) :
  bs !! key = Some true → edge_step true key bs = (false, bs).
Proof. intros Hwas. unfold edge_step. by rewrite Hwas. Qed.

Lemma calls_on_cons_eq (c : string) (b : bool) (l : list (string * bool)) :
  calls_on c ((c, b) :: l) = b :: calls_on c l.
Proof. unfold calls_on. by rewrite filter_cons_True. Qed.

Lemma calls_on_cons_ne (c k : string) (b : bool) (l : list (string * bool)) :
  k ≠ c → calls_on c ((k, b) :: l) = calls_on c l.
Proof. intros. unfold calls_on. by rewrite filter_cons_False. Qed.

(** While the control is held, no call on it fires, whatever happens to
    the other controls. *)
Lemma edge_trace_held (c : string) (cs : list (string * bool))
    (bs : gmap string bool) :
  bs !! c = Some true →
  Forall (λ kp, kp.1 = c → kp.2 = true) cs →
  calls_on c (edge_trace cs bs)
  = replicate (length (calls_on c cs)) false.
Proof.
  revert bs. induction cs as [|[k p] cs IH]; intros bs Hbs Hall; [done|].
  apply Forall_cons in Hall as [Hp Hall]. simpl in Hp. simpl.
  destruct (edge_step p k bs) as [r bs1] eqn:Hstep.
  destruct (decide (k = c)) as [->|Hne].
  - rewrite Hp in Hstep by done. rewrite edge_step_held in Hstep by done.
    injection Hstep as <- <-. rewrite !calls_on_cons_eq. simpl.
    f_equal. by apply IH.
  - rewrite !calls_on_cons_ne by done. apply IH; [|done].
    replace bs1 with (edge_step p k bs).2 by (by rewrite Hstep).
    by rewrite edge_step_other.
Qed.

(** C2: a call [edge(c, true)] on a control whose stored state is false
    returns true and stores true; and in any series of calls to [edge] in
    which every call on [c] reads the level true (no [edge(c, false)] in
    between), with calls on other controls interleaved at will, the first
    call on [c] is the only one that returns true. *)
Theorem C2_edge_fires_once_per_press (c : string)
    (cs : list (string * bool)) (bs : gmap string bool) :
  default false (bs !! c) = false →
  Forall (λ kp, kp.1 = c → kp.2 = true) cs →
  edge_step true c bs = (true, <[c := true]> bs)
  ∧ calls_on c (edge_trace cs bs)
    = match length (calls_on c cs) with
      | O => []
      | S n => true :: replicate n false
      end
  ∧ ∀ (k : string) (p : bool),
      k ≠ c → (edge_step p k bs).2 !! c = bs !! c.
Proof.
  intros Hwas Hall. split; [by apply edge_step_rising|]. split.
  - revert bs Hwas Hall.
    induction cs as [|[k p] cs IH]; intros bs Hwas Hall; [done|].
    apply Forall_cons in Hall as [Hp Hall]. simpl in Hp. simpl.
    destruct (edge_step p k bs) as [r bs1] eqn:Hstep.
    destruct (decide (k = c)) as [->|Hne].
    + rewrite Hp in Hstep by done. rewrite edge_step_rising in Hstep by done.
      injection Hstep as <- <-. rewrite !calls_on_cons_eq. simpl.
      f_equal. apply edge_trace_held; [by rewrite lookup_insert_eq|done].
    + rewrite !calls_on_cons_ne by done. apply IH; [|done].
      replace bs1 with (edge_step p k bs).2 by (by rewrite Hstep).
      by rewrite edge_step_other.
  - intros k p Hne. by apply edge_step_other.
Qed.

Lemma C2_edge_fires_once_per_press_witness :
  calls_on "mute"
    (edge_trace [("mute", true); ("play", true); ("mute", true);
                 ("play", false); ("mute", true)] ∅)
  = [true; false; false].
Proof.
  apply (C2_edge_fires_once_per_press "mute"
           [("mute", true); ("play", true); ("mute", true);
            ("play", false); ("mute", true)] ∅).
  - reflexivity.
  - repeat constructor; simpl; congruence.
Defined.

End EdgeDetector.

(** ** The calculus of the loop body *)

Section Calculus.
Context {T : Type} `{PyFloat T}.

Implicit Types (s : State T) (i : Input T) (E : Prop).

Lemma wpE_ret {A} E (a : A) s (Q : A → State T → list (Event T) → Prop) :
  Q a s [] → wpE E (mret a) s Q.
Proof. done. Qed.

Lemma wpE_bind {A B} E (m : M T A) (f : A → M T B) s
    (Q : B → State T → list (Event T) → Prop) :
  wpE E m s (λ a s1 o1, wpE E (f a) s1 (λ b s2 o2, Q b s2 (o1 ++ o2))) →
  wpE E (m ≫= f) s Q.
Proof.
  unfold wpE, mbind, M_bind, bind.
  destruct (m s) as [[[a s1] o1]|e]; [|done].
  by destruct (f a s1) as [[[b s2] o2]|e].
Qed.

Lemma wpE_get E s (Q : State T → State T → list (Event T) → Prop) :
  Q s s [] → wpE E get s Q.
Proof. done. Qed.

Lemma wpE_modify E (f : State T → State T) s
    (Q : unit → State T → list (Event T) → Prop) :
  Q tt (f s) [] → wpE E (modify f) s Q.
Proof. done. Qed.

Lemma wpE_emit E (e : Event T) s
    (Q : unit → State T → list (Event T) → Prop) :
  Q tt s [e] → wpE E (emit e) s Q.
Proof. done. Qed.

Lemma wpE_lift {A} E (r : res A) s
    (Q : A → State T → list (Event T) → Prop) :
  match r with Ok a => Q a s [] | Raise _ => E end → wpE E (lift r) s Q.
Proof. unfold wpE, lift. by destruct r. Qed.

Lemma wpE_when E (b : bool) (m : M T unit) s
    (Q : unit → State T → list (Event T) → Prop) :
  (if b then wpE E m s Q else Q tt s []) → wpE E (when b m) s Q.
Proof. by destruct b. Qed.

Lemma wpE_edge E i (key : string) (btn : Z) s
    (Q : bool → State T → list (Event T) → Prop) :
  Q (edge_step (joy_b i btn) key (btn_state s)).1
    (set_btn_state (edge_step (joy_b i btn) key (btn_state s)).2 s) [] →
  wpE E (edge i key btn) s Q.
Proof.
  unfold wpE, edge, mbind, M_bind, bind, get. simpl.
  by destruct (edge_step _ _ _).
Qed.

Lemma wpE_mono {A} E (m : M T A) s
    (Q Q' : A → State T → list (Event T) → Prop) :
  (∀ a s' o, Q a s' o → Q' a s' o) → wpE E m s Q → wpE E m s Q'.
Proof. unfold wpE. destruct (m s) as [[[a s'] o]|e]; auto. Qed.

Lemma wpE_any {A} (m : M T A) s
    (Q : A → State T → list (Event T) → Prop) :
  (∀ a s' o, Q a s' o) → wpE True m s Q.
Proof. intros HQ. unfold wpE. by destruct (m s) as [[[a s'] o]|e]. Qed.

Lemma wpE_eq {A} (m : M T A) s (r : A * State T * list (Event T)) :
  wpE False m s (λ a s' o, r = (a, s', o)) → m s = Ok r.
Proof. unfold wpE. destruct (m s) as [[[a s'] o]|e]; [by intros ->|done]. Qed.

Lemma bind_eq {A B} (m : M T A) (f : A → M T B) s a s1 o1 :
  m s = Ok (a, s1, o1) →
  (m ≫= f) s
  = match f a s1 with
    | Ok (b, s2, o2) => Ok (b, s2, o1 ++ o2)
    | Raise e => Raise e
    end.
Proof. intros Hm. unfold mbind, M_bind, bind. by rewrite Hm. Qed.

Lemma step_wp E i s (Q : State T → list (Event T) → Prop) :
  wpE E (tick i) s (λ _ s' o, Q s' o) →
  match step s i with Ok (s', o) => Q s' o | Raise _ => E end.
Proof. unfold wpE, step. by destruct (tick i s) as [[[a s'] o]|e]. Qed.

End Calculus.

(** One step of the calculus, on the structure of the computation. *)
Ltac wp_step :=
  lazymatch goal with
  | |- wpE _ (mbind _ _) _ _ => apply wpE_bind
  | |- wpE _ (mret _) _ _ => apply wpE_ret
  | |- wpE _ get _ _ => apply wpE_get
  | |- wpE _ (modify _) _ _ => apply wpE_modify
  | |- wpE _ (emit _) _ _ => apply wpE_emit
  | |- wpE _ (lift _) _ _ => apply wpE_lift
  | |- wpE _ (when _ _) _ _ => apply wpE_when
  | |- wpE _ (edge _ _ _) _ _ => apply wpE_edge
  | |- wpE _ (if ?b then _ else _) _ _ => destruct b eqn:?
  | |- wpE _ (match ?x with Some _ => _ | None => _ end) _ _ => destruct x eqn:?
  | |- if ?b then _ else _ => destruct b eqn:?
  | |- match ?r with Ok _ => _ | Raise _ => _ end => destruct r eqn:?
  end.

Ltac wp := repeat (wp_step; cbn beta iota).

(** The fields of a state that a setter has written. *)
Ltac st_fields :=
  cbn [vx vy mouse_active dragging config_mode sel prev_hat last_hat_time
       btn_state args log_saved_time set_velocity set_mouse_active
       set_dragging set_config_mode set_sel set_prev_hat set_last_hat_time
       set_btn_state set_args set_log_saved_time fst snd].

Section Rules.
Context {T : Type} `{PyFloat T}.

Implicit Types (s : State T) (i : Input T) (E : Prop).

Lemma wp_toggle E i s (Q : unit → State T → list (Event T) → Prop) :
  Q tt (toggle_state s i) (toggle_out s i) → wpE E (toggle_phase i) s Q.
Proof.
  intros HQ. unfold toggle_state, toggle_out, mode_in_tick, cfg_edge in HQ.
  unfold toggle_phase. wp; exact HQ.
Qed.

(** *** Frame rules: what a computation leaves alone *)

Lemma preserves_ret {A X} (f : State T → X) (a : A) :
  preserves f (mret a : M T A).
Proof. by intros s. Qed.

Lemma preserves_bind {A B X} (f : State T → X) (m : M T A) (k : A → M T B) :
  preserves f m → (∀ a, preserves f (k a)) → preserves f (m ≫= k).
Proof.
  intros Hm Hk s. apply wpE_bind.
  eapply wpE_mono; [|apply Hm]. simpl. intros a s1 o1 H1.
  eapply wpE_mono; [|apply Hk]. simpl. intros b s2 o2 H2. congruence.
Qed.

Lemma preserves_get {X} (f : State T → X) : preserves f get.
Proof. by intros s. Qed.

Lemma preserves_modify {X} (f : State T → X) (g : State T → State T) :
  (∀ s, f (g s) = f s) → preserves f (modify g).
Proof. intros Hg s. apply wpE_modify, Hg. Qed.

Lemma preserves_emit {X} (f : State T → X) (e : Event T) :
  preserves f (emit e).
Proof. by intros s. Qed.

Lemma preserves_lift {A X} (f : State T → X) (r : res A) :
  preserves f (lift r).
Proof. intros s. apply wpE_lift. by destruct r. Qed.

Lemma preserves_when {X} (f : State T → X) (b : bool) (m : M T unit) :
  preserves f m → preserves f (when b m).
Proof. intros Hm s. apply wpE_when. destruct b; [apply Hm|done]. Qed.

Lemma preserves_if {A X} (f : State T → X) (b : bool) (m1 m2 : M T A) :
  preserves f m1 → preserves f m2 → preserves f (if b then m1 else m2).
Proof. by destruct b. Qed.

Lemma preserves_edge {X} (f : State T → X) i key btn :
  (∀ bs s, f (set_btn_state bs s) = f s) → preserves f (edge i key btn).
Proof. intros Hf s. apply wpE_edge, Hf. Qed.

Lemma preserves_edge_other i (key key' : string) btn :
  key' ≠ key → preserves (λ s, btn_state s !! key') (edge i key btn).
Proof. intros Hne s. apply wpE_edge. simpl. by apply edge_step_other. Qed.

(** *** Output rules: what a computation may put out *)

Lemma emits_only_ret {A} (P : Event T → Prop) (a : A) :
  emits_only P (mret a : M T A).
Proof. intros s. by apply wpE_ret. Qed.

Lemma emits_only_bind {A B} (P : Event T → Prop) (m : M T A)
    (k : A → M T B) :
  emits_only P m → (∀ a, emits_only P (k a)) → emits_only P (m ≫= k).
Proof.
  intros Hm Hk s. apply wpE_bind.
  eapply wpE_mono; [|apply Hm]. simpl. intros a s1 o1 H1.
  eapply wpE_mono; [|apply Hk]. simpl. intros b s2 o2 H2.
  by apply Forall_app.
Qed.

Lemma emits_only_get (P : Event T → Prop) : emits_only P get.
Proof. intros s. by apply wpE_get. Qed.

Lemma emits_only_modify (P : Event T → Prop) (g : State T → State T) :
  emits_only P (modify g).
Proof. intros s. by apply wpE_modify. Qed.

Lemma emits_only_emit (P : Event T → Prop) (e : Event T) :
  P e → emits_only P (emit e).
Proof. intros He s. apply wpE_emit. by repeat constructor. Qed.

Lemma emits_only_lift {A} (P : Event T → Prop) (r : res A) :
  emits_only P (lift r).
Proof. intros s. apply wpE_lift. by destruct r. Qed.

Lemma emits_only_when (P : Event T → Prop) (b : bool) (m : M T unit) :
  emits_only P m → emits_only P (when b m).
Proof. intros Hm s. apply wpE_when. destruct b; [apply Hm|done]. Qed.

Lemma emits_only_if {A} (P : Event T → Prop) (b : bool) (m1 m2 : M T A) :
  emits_only P m1 → emits_only P m2 → emits_only P (if b then m1 else m2).
Proof. by destruct b. Qed.

Lemma emits_only_edge (P : Event T → Prop) i key btn :
  emits_only P (edge i key btn).
Proof. intros s. by apply wpE_edge. Qed.

(** A frame fact and an output fact used inside a derivation. *)
Lemma wpE_preserves {A X} (f : State T → X) (m : M T A) s
    (Q : A → State T → list (Event T) → Prop) :
  preserves f m →
  wpE True m s (λ a s' o, f s' = f s → Q a s' o) →
  wpE True m s Q.
Proof.
  intros Hf. specialize (Hf s). unfold wpE in *.
  destruct (m s) as [[[a s'] o]|e]; auto.
Qed.

Lemma wpE_emits_only {A} (P : Event T → Prop) (m : M T A) s
    (Q : A → State T → list (Event T) → Prop) :
  emits_only P m →
  wpE True m s (λ a s' o, Forall P o → Q a s' o) →
  wpE True m s Q.
Proof.
  intros Hf. specialize (Hf s). unfold wpE in *.
  destruct (m s) as [[[a s'] o]|e]; auto.
Qed.

Lemma wpE_conj {A} E (m : M T A) s
    (Q1 Q2 : A → State T → list (Event T) → Prop) :
  wpE E m s Q1 → wpE E m s Q2 →
  wpE E m s (λ a s' o, Q1 a s' o ∧ Q2 a s' o).
Proof. unfold wpE. destruct (m s) as [[[a s'] o]|e]; auto. Qed.

End Rules.

Create HintDb frame discriminated.
#[export] Hint Resolve preserves_ret preserves_get preserves_emit
  preserves_lift emits_only_ret emits_only_get emits_only_modify
  emits_only_lift emits_only_edge : frame.
#[export] Hint Extern 2 (preserves _ (mbind _ _)) =>
  apply preserves_bind; [|intros ?] : frame.
#[export] Hint Extern 2 (preserves _ (modify _)) =>
  apply preserves_modify; intros []; reflexivity : frame.
#[export] Hint Extern 2 (preserves _ (when _ _)) =>
  apply preserves_when : frame.
#[export] Hint Extern 2 (preserves _ (if _ then _ else _)) =>
  apply preserves_if : frame.
#[export] Hint Extern 2
  (preserves _ (match ?x with Some _ => _ | None => _ end)) =>
  destruct x : frame.
#[export] Hint Extern 2 (preserves _ (edge _ _ _)) =>
  apply preserves_edge; intros ? []; reflexivity : frame.
#[export] Hint Extern 3 (preserves _ (edge _ _ _)) =>
  apply preserves_edge_other; first [discriminate | assumption] : frame.
#[export] Hint Extern 2 (emits_only _ (mbind _ _)) =>
  apply emits_only_bind; [|intros ?] : frame.
#[export] Hint Extern 2 (emits_only _ (when _ _)) =>
  apply emits_only_when : frame.
#[export] Hint Extern 2 (emits_only _ (if _ then _ else _)) =>
  apply emits_only_if : frame.
#[export] Hint Extern 2
  (emits_only _ (match ?x with Some _ => _ | None => _ end)) =>
  destruct x : frame.
#[export] Hint Extern 2 (emits_only _ (emit _)) =>
  apply emits_only_emit; simpl; try done : frame.

(** Frame and output facts by the rules above. *)
Ltac frame := auto 30 with frame.

(** ** The mode controller *)

Section ModeController.
Context {T : Type} `{PyFloat T}.
Implicit Types (s : State T) (i : Input T) (E : Prop).

Lemma motion_phase_config_mode i : preserves config_mode (motion_phase i).
Proof. unfold motion_phase, drag_phase. frame. Qed.

Lemma normal_phase_config_mode i hat :
  preserves config_mode (normal_phase i hat).
Proof.
  unfold normal_phase, normal_buttons, motion_buttons, media_buttons,
    normal_pad.
  pose proof (motion_phase_config_mode i). frame.
Qed.

Lemma setattr_buttons (a : Args T) k v :
  btn_save_config (setattr a k v) = btn_save_config a.
Proof. unfold setattr. repeat case_decide; done. Qed.

Lemma config_pad_frame i hat :
  preserves (λ s, (vx s, vy s, mouse_active s, dragging s, config_mode s,
                   btn_state s, prev_hat s, log_saved_time s,
                   btn_save_config (args s)))
    (config_pad i hat).
Proof.
  unfold config_pad.
  repeat first
    [ apply preserves_bind; [|intros ?]
    | apply preserves_when
    | apply preserves_get
    | apply preserves_lift
    | apply preserves_emit
    | apply preserves_modify; intros []; simpl;
      rewrite ?setattr_buttons; reflexivity ].
Qed.

(** The configuration items by index, and their attributes. *)
Lemma wp_config_item E (n : Z) s
    (Q : string * T * T * T * string → State T → list (Event T) → Prop) :
  (0 ≤ n < 5)%Z →
  (∀ item, item ∈ CONFIG_ITEMS (T:=T) → Q item s []) →
  wpE E (lift (py_index CONFIG_ITEMS n)) s Q.
Proof.
  intros Hn HQ. apply wpE_lift.
  assert (n = 0 ∨ n = 1 ∨ n = 2 ∨ n = 3 ∨ n = 4)%Z as Hc by lia.
  clear Hn.
  destruct Hc as [->|[->|[->|[->| ->]]]]; simpl; apply HQ;
    unfold CONFIG_ITEMS; set_solver.
Qed.

Lemma wp_getattr_item E (a : Args T) item s
    (Q : T → State T → list (Event T) → Prop) :
  item ∈ CONFIG_ITEMS (T:=T) →
  (∀ v, getattr a item.1.1.1.1 = Ok v → Q v s []) →
  wpE E (lift (getattr a item.1.1.1.1)) s Q.
Proof.
  intros Hin HQ. apply wpE_lift.
  unfold CONFIG_ITEMS in Hin.
  repeat (apply elem_of_cons in Hin as [->|Hin]);
    [..|by apply elem_of_nil in Hin];
    simpl; by apply HQ.
Qed.

Lemma config_pad_ok i hat s :
  (0 ≤ sel s < 5)%Z → is_ok (config_pad i hat s) = true.
Proof.
  intros Hsel.
  enough (wpE False (config_pad i hat) s (λ _ _ _, True)) as Hwp.
  { unfold wpE in Hwp. by destruct (config_pad i hat s). }
  assert (∀ n, 0 ≤ n `mod` Z.of_nat (length (CONFIG_ITEMS (T:=T))) < 5)%Z
    as Hmod.
  { intros n. simpl. apply Z.mod_pos_bound. lia. }
  unfold config_pad.
  repeat first
    [ apply wp_config_item; [simpl; auto|intros item Hitem]
    | apply wp_getattr_item; [done|intros v _]
    | wp_step; cbn beta iota ].
  all: done.
Qed.

Lemma toggle_phase_eq i s :
  toggle_phase i s = Ok (tt, toggle_state s i, toggle_out s i).
Proof. by apply wpE_eq, wp_toggle. Qed.

(** A tick, from the toggle and the phase of its mode. *)
Lemma wp_tick E i s (Q : unit → State T → list (Event T) → Prop) :
  wpE E (if mode_in_tick s i then config_phase i (joy_h i)
         else normal_phase i (joy_h i))
    (toggle_state s i)
    (λ _ s2 o2, Q tt (set_prev_hat (joy_h i) s2) (toggle_out s i ++ o2)) →
  wpE E (tick i) s Q.
Proof.
  intros Hwp. unfold tick. apply wpE_bind, wp_toggle. apply wpE_bind, wpE_get.
  apply wpE_bind. simpl config_mode.
  eapply wpE_mono; [|exact Hwp]. simpl. intros _ s2 o2 HQ.
  apply wpE_modify. by rewrite !app_nil_r.
Qed.

(** The save control on its rising edge. *)
Lemma config_save_rising i s :
  joy_b i (btn_save_config (args s)) = true →
  default false (btn_state s !! "save") = false →
  config_save i s
  = Ok (tt,
        set_config_mode false
          ((if save_succeeds i then set_log_saved_time (time_saved i)
            else λ s, s)
             (set_btn_state (<["save" := true]> (btn_state s)) s)),
        SaveConfig (args s)
        :: (if save_succeeds i then [LogAdd "SAVED joystick_config.json"]
            else [])).
Proof.
  intros Hp Hwas. apply wpE_eq. unfold config_save, save_config.
  apply wpE_bind, wpE_get. apply wpE_bind, wpE_edge.
  rewrite Hp, edge_step_rising by done. simpl.
  destruct (save_succeeds i); wp; reflexivity.
Qed.

Lemma config_pad_eq i hat s :
  (0 ≤ sel s < 5)%Z →
  ∃ s' o,
    config_pad i hat s = Ok (tt, s', o)
    ∧ btn_state s' = btn_state s
    ∧ config_mode s' = config_mode s
    ∧ btn_save_config (args s') = btn_save_config (args s).
Proof.
  intros Hsel. pose proof (config_pad_ok i hat s Hsel) as Hok.
  pose proof (config_pad_frame i hat s) as Hfr. unfold wpE in Hfr.
  destruct (config_pad i hat s) as [[[[] s'] o]|e]; [|done].
  exists s', o. by simplify_eq.
Qed.

(** A tick in configuration mode, from its parts. *)
Lemma step_config_eq i s s2 o2 s3 o3 :
  mode_in_tick s i = true →
  config_pad i (joy_h i) (toggle_state s i) = Ok (tt, s2, o2) →
  config_save i s2 = Ok (tt, s3, o3) →
  step s i = Ok (set_prev_hat (joy_h i) s3, toggle_out s i ++ o2 ++ o3).
Proof.
  intros Hrun Hpad Hsave. unfold step, tick.
  rewrite (bind_eq _ _ _ _ _ _ (toggle_phase_eq _ _)).
  erewrite bind_eq by reflexivity. unfold toggle_state at 1.
  simpl config_mode. rewrite Hrun. fold (toggle_state s i).
  unfold config_phase.
  erewrite bind_eq; [|erewrite bind_eq by exact Hpad; by rewrite Hsave].
  simpl. by rewrite !app_nil_r.
Qed.

(** C3: from configuration mode, a tick on which the save control shows
    a rising edge ends in normal mode whatever [save_config] returns; and
    when the tick examines the save control (the toggle does not fire),
    it returns, and the runs with a failing and with a succeeding save
    differ in nothing but [log.saved_time] and the "SAVED" log line. *)
Theorem C3_save_edge_leaves_config s i :
  config_mode s = true →
  joy_b i (btn_save_config (args s)) = true →
  default false (btn_state s !! "save") = false →
  (∀ b s' out,
     step s (with_save_result b i) = Ok (s', out) → config_mode s' = false)
  ∧ (cfg_edge s i = false → (0 ≤ sel s < 5)%Z →
     ∃ s' out,
       step s (with_save_result false i) = Ok (s', out)
       ∧ step s (with_save_result true i)
         = Ok (set_log_saved_time (time_saved i) s',
               out ++ [LogAdd "SAVED joystick_config.json"])
       ∧ config_mode s' = false).
Proof.
  intros Hmode Hp Hwas. split.
  - intros b s' out Hstep.
    pose proof (step_wp True (with_save_result b i) s
                  (λ s' _, config_mode s' = false)) as Hwp.
    rewrite Hstep in Hwp. apply Hwp. clear Hwp Hstep.
    apply wp_tick.
    destruct (mode_in_tick s (with_save_result b i)) eqn:Hrun.
    + unfold config_phase. apply wpE_bind.
      eapply wpE_preserves; [apply config_pad_frame|]. simpl.
      unfold wpE at 1.
      destruct (config_pad _ _ _) as [[[[] s2] o2]|e]; [|done].
      intros Hfr. injection Hfr as _ _ _ _ _ Hbs _ _ Hbtn. simpl in Hbs, Hbtn.
      unfold wpE. rewrite config_save_rising.
      * done.
      * by rewrite Hbtn.
      * rewrite Hbs. by rewrite edge_step_other.
    + eapply wpE_preserves; [apply normal_phase_config_mode|].
      apply wpE_any. intros _ s2 _ Hcm. simpl. rewrite Hcm.
      unfold toggle_state. simpl. exact Hrun.
  - intros Hedge Hsel.
    assert (∀ b, mode_in_tick s (with_save_result b i) = true) as Hrun.
    { intros b. change (mode_in_tick s i = true).
      unfold mode_in_tick. by rewrite Hedge, Hmode. }
    destruct (config_pad_eq i (joy_h i) (toggle_state s i) Hsel)
      as (s2 & o2 & Hpad & Hbs & _ & Hbtn).
    simpl in Hbs, Hbtn.
    exists (set_prev_hat (joy_h i)
              (set_config_mode false
                 (set_btn_state (<["save" := true]> (btn_state s2)) s2))),
           (toggle_out s i ++ o2 ++ [SaveConfig (args s2)]).
    assert (default false (btn_state s2 !! "save") = false) as Hwas2.
    { rewrite Hbs. by rewrite edge_step_other. }
    split_and!; [..|done].
    + erewrite (step_config_eq (with_save_result false i));
        [done|by apply Hrun|exact Hpad|].
      rewrite config_save_rising; [done|by rewrite Hbtn|exact Hwas2].
    + erewrite (step_config_eq (with_save_result true i));
        [|by apply Hrun|exact Hpad|].
      2:{ rewrite config_save_rising; [done|by rewrite Hbtn|exact Hwas2]. }
      simpl. f_equal. f_equal.
      change (toggle_out s (with_save_result true i)) with (toggle_out s i).
      by rewrite <- !app_assoc.
Qed.

End ModeController.

(** ** The pad and its debounce *)

Section Debounce.
Context {T : Type} `{PyFloat T}.
Implicit Types (s : State T) (i : Input T) (E : Prop).

Lemma motion_phase_frame i :
  preserves (λ s, (config_mode s, sel s, prev_hat s, last_hat_time s,
                   args s, log_saved_time s)) (motion_phase i).
Proof. unfold motion_phase, drag_phase. frame. Qed.

Lemma normal_phase_frame i hat :
  preserves (λ s, (config_mode s, sel s, prev_hat s, last_hat_time s,
                   args s, log_saved_time s)) (normal_phase i hat).
Proof.
  unfold normal_phase, normal_buttons, motion_buttons, media_buttons,
    normal_pad.
  pose proof (motion_phase_frame i). frame.
Qed.

Lemma normal_buttons_frame i :
  preserves (λ s, (vx s, vy s, dragging s, config_mode s, sel s, prev_hat s,
                   last_hat_time s, args s, log_saved_time s))
    (normal_buttons i).
Proof. unfold normal_buttons, motion_buttons, media_buttons. frame. Qed.

Lemma config_save_frame i :
  preserves (λ s, (vx s, vy s, mouse_active s, dragging s, sel s, prev_hat s,
                   last_hat_time s, args s)) (config_save i).
Proof. unfold config_save, save_config. frame. Qed.

Lemma config_save_not_log_param i : emits_only not_log_param (config_save i).
Proof. unfold config_save, save_config. frame. Qed.

Lemma config_pad_rejected i s :
  pad_gate s i = false →
  config_pad i (joy_h i) (toggle_state s i) = Ok (tt, toggle_state s i, []).
Proof.
  intros Hgate. unfold config_pad. erewrite bind_eq by reflexivity.
  change (negb _ && flt _ _) with (pad_gate s i). by rewrite Hgate.
Qed.

Lemma config_pad_accepted i s :
  pad_gate s i = true →
  wpE True (config_pad i (joy_h i)) (toggle_state s i)
    (λ _ s' _, last_hat_time s' = time_now i).
Proof.
  intros Hgate. unfold config_pad. apply wpE_bind, wpE_get.
  change (negb _ && flt _ _) with (pad_gate s i). rewrite Hgate.
  apply wpE_when. apply wpE_bind, wpE_modify.
  eapply wpE_preserves.
  { instantiate (1 := last_hat_time). frame. }
  apply wpE_any. intros _ s' _ ->. done.
Qed.

Lemma tick_last_hat_time i s :
  wpE True (tick i) s
    (λ _ s' _, last_hat_time s'
               = if config_accepts s i then time_now i else last_hat_time s).
Proof.
  apply wp_tick. unfold config_accepts.
  destruct (mode_in_tick s i) eqn:Hrun; simpl.
  - unfold config_phase. apply wpE_bind.
    destruct (pad_gate s i) eqn:Hgate.
    + eapply wpE_mono; [|by apply config_pad_accepted]. simpl.
      intros _ s1 _ Hs1.
      eapply wpE_preserves; [apply config_save_frame|].
      apply wpE_any. intros _ s2 _ Hfr. simplify_eq. congruence.
    + unfold wpE at 1. rewrite config_pad_rejected by done.
      eapply wpE_preserves; [apply config_save_frame|].
      apply wpE_any. intros _ s2 _ Hfr. by simplify_eq.
  - eapply wpE_preserves; [apply normal_phase_frame|].
    apply wpE_any. intros _ s2 _ Hfr. by simplify_eq.
Qed.

Lemma accept_times_gated s ins : gated (last_hat_time s) (accept_times s ins).
Proof.
  revert s. induction ins as [|i ins IH]; intros s; [done|]. simpl.
  pose proof (step_wp True i s _ (tick_last_hat_time i s)) as Hstep.
  destruct (step s i) as [[s1 out]|e]; [|done].
  specialize (IH s1). rewrite Hstep in IH.
  destruct (config_accepts s i) eqn:Hacc; simpl; [|done].
  split; [|done].
  apply andb_true_iff in Hacc as [_ Hgate].
  by apply andb_true_iff in Hgate as [_ Hgate].
Qed.

Lemma toggle_out_not_log_param s i : Forall not_log_param (toggle_out s i).
Proof.
  unfold toggle_out. destruct (cfg_edge s i); repeat constructor; done.
Qed.

Lemma normal_pad_taps hat c s :
  hat ≠ prev_hat s → cmds hat = Some c →
  normal_pad hat s = Ok (tt, s, [KeyTap c]).
Proof.
  intros Hne Hc. unfold normal_pad. erewrite bind_eq by reflexivity.
  assert (hat_eqb hat (prev_hat s) = false) as ->.
  { apply not_true_is_false. intros Heq. apply Hne. unfold hat_eqb in Heq.
    apply andb_true_iff in Heq as [?%Z.eqb_eq ?%Z.eqb_eq].
    destruct hat, (prev_hat s); simpl in *; congruence. }
  simpl. by rewrite Hc.
Qed.

(** A tick in normal mode, from the toggle and the normal phase. *)
Lemma step_normal_unfold s i :
  mode_in_tick s i = false →
  step s i
  = match normal_phase i (joy_h i) (toggle_state s i) with
    | Ok (_, s2, o2) =>
        Ok (set_prev_hat (joy_h i) s2, toggle_out s i ++ o2)
    | Raise e => Raise e
    end.
Proof.
  intros Hrun. unfold step, tick.
  rewrite (bind_eq _ _ _ _ _ _ (toggle_phase_eq _ _)).
  erewrite bind_eq by reflexivity.
  change (config_mode (toggle_state s i)) with (mode_in_tick s i).
  rewrite Hrun. unfold mbind, M_bind, bind.
  destruct (normal_phase i (joy_h i) (toggle_state s i))
    as [[[[] s2] o2]|e]; [|done].
  simpl. by rewrite !app_nil_r.
Qed.

(** A tick in normal mode does not read the clock. *)
Lemma step_normal_ignores_clock s i (t t' : T) :
  mode_in_tick s i = false → step s (with_clock t t' i) = step s i.
Proof.
  intros Hrun. rewrite !step_normal_unfold by done. reflexivity.
Qed.


End Debounce.

(** ** The selection, and what configuration mode does not read *)

Section Selection.
Context {T : Type} `{PyFloat T}.
Implicit Types (s : State T) (i : Input T) (E : Prop).

(** The selection stays an index of [CONFIG_ITEMS]. *)
Lemma tick_sel_valid i s :
  (0 ≤ sel s < 5)%Z →
  wpE True (tick i) s (λ _ s' _, (0 ≤ sel s' < 5)%Z).
Proof.
  intros Hsel.
  assert (∀ n, 0 ≤ n `mod` Z.of_nat (length (CONFIG_ITEMS (T:=T))) < 5)%Z
    as Hmod.
  { intros n. simpl. apply Z.mod_pos_bound. lia. }
  apply wp_tick. destruct (mode_in_tick s i).
  - unfold config_phase. apply wpE_bind.
    apply wpE_mono with (Q := λ _ s1 _, (0 ≤ sel s1 < 5)%Z).
    + intros _ s1 _ Hs1.
      eapply wpE_preserves; [apply config_save_frame|].
      apply wpE_any. intros _ s2 _ Hfr.
      injection Hfr as _ _ _ _ Hs2 _ _ _. simpl. by rewrite Hs2.
    + unfold config_pad. wp; simpl; auto.
  - eapply wpE_preserves; [apply normal_phase_frame|].
    apply wpE_any. intros _ s2 _ Hfr.
    injection Hfr as _ Hs2 _ _ _ _. simpl. by rewrite Hs2.
Qed.

Lemma run_sel_valid s ins s' outs :
  (0 ≤ sel s < 5)%Z → run s ins = Ok (s', outs) → (0 ≤ sel s' < 5)%Z.
Proof.
  revert s outs. induction ins as [|i ins IH]; intros s outs Hsel Hrun.
  { simpl in Hrun. by simplify_eq. }
  simpl in Hrun.
  pose proof (step_wp True i s _ (tick_sel_valid i s Hsel)) as Hstep.
  destruct (step s i) as [[s1 out]|e]; [|done].
  destruct (run s1 ins) as [[s2 outs2]|e] eqn:Hrest; [|done].
  simplify_eq. by eapply IH.
Qed.

(** The selection is an index of [CONFIG_ITEMS] in every state the loop
    reaches. *)
Lemma reachable_sel_valid (a : Args T) ins s outs :
  run (init_state a) ins = Ok (s, outs) → (0 ≤ sel s < 5)%Z.
Proof. apply run_sel_valid. simpl. lia. Qed.

(** *** Configuration mode does not read the other controls' states *)

Lemma edge_step_insert (p : bool) (k key : string) (b : bool)
    (bs : gmap string bool) :
  key ≠ k →
  edge_step p k (<[key := b]> bs)
  = ((edge_step p k bs).1, <[key := b]> (edge_step p k bs).2).
Proof.
  intros Hne. unfold edge_step. rewrite lookup_insert_ne by done.
  destruct (p && negb (default false (bs !! k))); simpl.
  - by rewrite insert_insert_ne.
  - destruct (negb p); simpl; [by rewrite insert_insert_ne|done].
Qed.

Lemma config_pad_ignores_btn_state i hat :
  ignores_btn_state (config_pad i hat).
Proof.
  intros s bs. unfold config_pad, mbind, M_bind, bind, get, when, modify,
    emit, lift, mret, M_ret, ret. simpl.
  destruct (negb _ && flt _ _); [|done].
  destruct (hat_eqb hat (0, 1)%Z), (hat_eqb hat (0, -1)%Z),
    (hat_eqb hat (1, 0)%Z || hat_eqb hat (-1, 0)%Z); simpl; try done.
  all: destruct (py_index CONFIG_ITEMS _) as [item|e]; [|done]; simpl.
  all: destruct (getattr (args s) _) as [v|e]; [|done]; done.
Qed.

Lemma config_save_ignores_key i (key : string) (b : bool) s :
  key ≠ "save" →
  config_save i (set_btn_state (<[key := b]> (btn_state s)) s)
  = match config_save i s with
    | Ok (u, s', o) => Ok (u, set_btn_state (<[key := b]> (btn_state s')) s', o)
    | Raise e => Raise e
    end.
Proof.
  intros Hne.
  unfold config_save, save_config, edge, mbind, M_bind, bind, get, when,
    modify, emit, mret, M_ret, ret. simpl.
  rewrite edge_step_insert by done.
  destruct (edge_step _ "save" (btn_state s)) as [[] bs1]; simpl; [|done].
  by destruct (save_succeeds i).
Qed.

Lemma toggle_state_ignores_key i (key : string) (b : bool) s :
  key ≠ "cfg" →
  toggle_state (set_btn_state (<[key := b]> (btn_state s)) s) i
  = set_btn_state (<[key := b]> (btn_state (toggle_state s i)))
      (toggle_state s i)
  ∧ toggle_out (set_btn_state (<[key := b]> (btn_state s)) s) i
    = toggle_out s i
  ∧ mode_in_tick (set_btn_state (<[key := b]> (btn_state s)) s) i
    = mode_in_tick s i.
Proof.
  intros Hne. unfold toggle_state, toggle_out, mode_in_tick, cfg_edge. simpl.
  by rewrite edge_step_insert.
Qed.

(** A tick in configuration mode, from its parts. *)
Lemma step_config_unfold s i :
  mode_in_tick s i = true →
  step s i
  = match config_pad i (joy_h i) (toggle_state s i) with
    | Ok (_, s2, o2) =>
        match config_save i s2 with
        | Ok (_, s3, o3) =>
            Ok (set_prev_hat (joy_h i) s3, toggle_out s i ++ o2 ++ o3)
        | Raise e => Raise e
        end
    | Raise e => Raise e
    end.
Proof.
  intros Hrun. unfold step, tick.
  rewrite (bind_eq _ _ _ _ _ _ (toggle_phase_eq _ _)).
  erewrite bind_eq by reflexivity.
  change (config_mode (toggle_state s i)) with (mode_in_tick s i).
  rewrite Hrun. unfold config_phase, mbind, M_bind, bind.
  destruct (config_pad i (joy_h i) (toggle_state s i))
    as [[[[] s2] o2]|e]; [|done].
  destruct (config_save i s2) as [[[[] s3] o3]|e]; [|done].
  simpl. by rewrite !app_nil_r.
Qed.

(** A tick in configuration mode runs the same whatever the stored state
    of a control other than "cfg" and "save", and carries that state
    along. *)
Lemma step_config_ignores_key s i (key : string) (b : bool) :
  key ≠ "cfg" → key ≠ "save" → mode_in_tick s i = true →
  step (set_btn_state (<[key := b]> (btn_state s)) s) i
  = match step s i with
    | Ok (s', out) =>
        Ok (set_btn_state (<[key := b]> (btn_state s')) s', out)
    | Raise e => Raise e
    end.
Proof.
  intros Hcfg Hsave Hrun.
  destruct (toggle_state_ignores_key i key b s Hcfg) as (Hts & Hto & Hmode).
  rewrite !step_config_unfold by congruence.
  rewrite Hts, Hto, config_pad_ignores_btn_state.
  pose proof (config_pad_frame i (joy_h i) (toggle_state s i)) as Hfr.
  unfold wpE in Hfr.
  destruct (config_pad i (joy_h i) (toggle_state s i))
    as [[[[] s2] o2]|e]; [|done].
  injection Hfr as _ _ _ _ _ Hbs _ _ _.
  change (btn_state s2 = btn_state (toggle_state s i)) in Hbs.
  rewrite <- Hbs, config_save_ignores_key by done.
  by destruct (config_save i s2) as [[[[] s3] o3]|e].
Qed.

End Selection.

(** ** What configuration mode leaves alone *)

Section ConfigFrame.
Context {T : Type} `{PyFloat T}.
Implicit Types (s : State T) (i : Input T) (E : Prop).

Lemma config_pad_keeps_args i s :
  config_adjusts s i = false → mode_in_tick s i = true →
  wpE True (config_pad i (joy_h i)) (toggle_state s i)
    (λ _ s' _, args s' = args s).
Proof.
  unfold config_adjusts, config_accepts. intros Hadj Hrun.
  rewrite Hrun in Hadj. simpl in Hadj.
  unfold config_pad. apply wpE_bind, wpE_get.
  change (negb _ && flt _ _) with (pad_gate s i).
  destruct (pad_gate s i); simpl in Hadj; [|done].
  rewrite Hadj. simpl. wp; done.
Qed.

Lemma config_phase_frame i hat :
  preserves (λ s, (vx s, vy s, mouse_active s, dragging s))
    (config_phase i hat).
Proof. unfold config_phase, config_pad, config_save, save_config. frame. Qed.

Lemma config_phase_other_key i hat (key : string) :
  key ≠ "save" → preserves (λ s, btn_state s !! key) (config_phase i hat).
Proof.
  intros Hne. unfold config_phase, config_pad, config_save, save_config.
  frame.
Qed.

(** A tick that runs in configuration mode. *)
Lemma tick_config_frame i s :
  mode_in_tick s i = true →
  wpE True (tick i) s
    (λ _ s' _,
       (vx s', vy s', mouse_active s', dragging s')
       = (vx s, vy s, mouse_active s, dragging s)
       ∧ (config_adjusts s i = false → args s' = args s)
       ∧ ∀ key : string,
           key ≠ "cfg" → key ≠ "save" →
           btn_state s' !! key = btn_state s !! key).
Proof.
  intros Hrun. apply wp_tick. rewrite Hrun.
  apply wpE_conj; [|apply wpE_conj].
  - eapply wpE_preserves; [apply config_phase_frame|].
    apply wpE_any. intros _ s2 _ Hfr. simpl in *. congruence.
  - destruct (config_adjusts s i) eqn:Hadj; [by apply wpE_any|].
    unfold config_phase. apply wpE_bind.
    eapply wpE_mono; [|by apply config_pad_keeps_args]. simpl.
    intros _ s1 _ Hs1.
    eapply wpE_preserves; [apply config_save_frame|].
    apply wpE_any. intros _ s2 _ Hfr _. simplify_eq. simpl. congruence.
  - unfold wpE.
    destruct (config_phase i (joy_h i) (toggle_state s i))
      as [[[[] s2] o2]|e] eqn:Hphase; [|done].
    intros key Hcfg Hsave. simpl.
    pose proof (config_phase_other_key i (joy_h i) key Hsave
                  (toggle_state s i)) as Hkey.
    unfold wpE in Hkey. rewrite Hphase in Hkey. rewrite Hkey. simpl.
    by apply edge_step_other.
Qed.

(** Runs that stay in configuration mode. *)
Lemma run_config_frame s ins s1 outs :
  every_tick (λ s i, mode_in_tick s i = true) s ins →
  run s ins = Ok (s1, outs) →
  (vx s1, vy s1, mouse_active s1, dragging s1)
  = (vx s, vy s, mouse_active s, dragging s)
  ∧ (every_tick (λ s i, config_adjusts s i = false) s ins →
     args s1 = args s)
  ∧ ∀ key : string,
      key ≠ "cfg" → key ≠ "save" →
      btn_state s1 !! key = btn_state s !! key.
Proof.
  revert s outs. induction ins as [|i ins IH]; intros s outs Hall Hrun.
  { simpl in Hrun. by simplify_eq. }
  simpl in Hall, Hrun. destruct Hall as [Hmode Hall].
  pose proof (step_wp True i s _ (tick_config_frame i s Hmode)) as Hstep.
  destruct (step s i) as [[s' out]|e] eqn:Hs; [|done].
  destruct (run s' ins) as [[s2 outs2]|e] eqn:Hrest; [|done].
  simplify_eq. destruct Hstep as (Hfr & Hargs & Hkeys).
  destruct (IH s' outs2 Hall Hrest) as (Hfr' & Hargs' & Hkeys').
  split_and!.
  - congruence.
  - intros Hadj. simpl in Hadj. rewrite Hs in Hadj.
    destruct Hadj as [Hadj Hrestadj]. rewrite Hargs' by done. by apply Hargs.
  - intros key Hcfg Hsave. rewrite Hkeys' by done. by apply Hkeys.
Qed.

(** C7 (as amended): a run enters configuration mode through the toggle
    and stays in it; when the toggle fires again, the tick reaches
    line 239 in normal mode with the velocity and the motion-active flag
    of before the first toggle, and with the parameters of before the
    first toggle provided no pad "left" or "right" was accepted (no
    adjustment made) in between. *)
Theorem C7_config_round_trip s ins leave s1 outs :
  config_mode s = false →
  every_tick (λ s i, mode_in_tick s i = true) s ins →
  run s ins = Ok (s1, outs) →
  config_mode s1 = true →
  cfg_edge s1 leave = true →
  toggle_phase leave s1
  = Ok (tt, toggle_state s1 leave, toggle_out s1 leave)
  ∧ config_mode (toggle_state s1 leave) = false
  ∧ vx (toggle_state s1 leave) = vx s
  ∧ vy (toggle_state s1 leave) = vy s
  ∧ mouse_active (toggle_state s1 leave) = mouse_active s
  ∧ (every_tick (λ s i, config_adjusts s i = false) s ins →
     args (toggle_state s1 leave) = args s).
Proof.
  intros _ Hall Hrun Hmode Hedge.
  destruct (run_config_frame s ins s1 outs Hall Hrun) as (Hfr & Hargs & _).
  injection Hfr as Hvx Hvy Hma _.
  split_and!; try done.
  - apply toggle_phase_eq.
  - simpl. unfold mode_in_tick. by rewrite Hedge, Hmode.
Qed.

End ConfigFrame.

(** ** Motion and the drag button *)

Section Drag.
Context {T : Type} `{PyFloat T}.
Implicit Types (s : State T) (i : Input T) (E : Prop).

Lemma drag_events_app (o1 o2 : list (Event T)) :
  drag_events (o1 ++ o2) = drag_events o1 ++ drag_events o2.
Proof. unfold drag_events. apply omap_app. Qed.

Lemma drag_events_none (o : list (Event T)) :
  Forall not_drag o → drag_events o = [].
Proof.
  induction 1 as [|e o He _ IH]; [done|].
  change (e :: o) with ([e] ++ o). rewrite drag_events_app, IH. by rewrite He.
Qed.

Lemma edge_step_fst_other (p p' : bool) (key key' : string)
    (bs : gmap string bool) :
  key ≠ key' →
  (edge_step p key (edge_step p' key' bs).2).1 = (edge_step p key bs).1.
Proof.
  intros Hne. unfold edge_step at 1 3. rewrite edge_step_other by done.
  destruct (p && _); [done|]. by destruct (negb p).
Qed.

Lemma motion_buttons_spec i s :
  wpE True (motion_buttons i) s
    (λ _ s' o,
       mouse_active s' = mouse_active_in_tick s i
       ∧ (dragging s', args s') = (dragging s, args s)
       ∧ Forall not_drag o).
Proof.
  unfold motion_buttons. apply wpE_bind, wpE_get.
  apply wpE_bind, wpE_edge. apply wpE_bind.
  unfold mouse_active_in_tick. apply wpE_when.
  destruct (edge_step _ "stop" _).1;
    repeat (lazymatch goal with
            | |- wpE _ (edge _ _ _) _ _ => fail
            | _ => wp_step; cbn beta iota
            end);
    apply wpE_edge; simpl btn_state;
    rewrite edge_step_fst_other by done;
    wp; split_and!; try done; repeat constructor; done.
Qed.

Lemma mouse_active_in_tick_toggle s i :
  mouse_active_in_tick (toggle_state s i) i = mouse_active_in_tick s i.
Proof.
  unfold mouse_active_in_tick, toggle_state. simpl.
  by rewrite !edge_step_fst_other.
Qed.

Lemma media_buttons_frame i :
  preserves (λ s, (mouse_active s, dragging s, args s)) (media_buttons i).
Proof. unfold media_buttons. frame. Qed.

Lemma media_buttons_not_drag i : emits_only not_drag (media_buttons i).
Proof. unfold media_buttons. frame. Qed.

Lemma normal_pad_frame hat :
  preserves (λ s, (mouse_active s, dragging s, args s)) (normal_pad hat).
Proof. unfold normal_pad. frame. Qed.

Lemma normal_pad_not_drag hat :
  emits_only not_drag (normal_pad hat : M T unit).
Proof. unfold normal_pad. frame. Qed.

Lemma toggle_out_not_drag s i : Forall not_drag (toggle_out s i).
Proof.
  unfold toggle_out. destruct (cfg_edge s i); repeat constructor; done.
Qed.

(** The drag button, by cases on its level and the flag. *)
Lemma drag_phase_spec i s :
  wpE True (drag_phase i) s
    (λ _ s' o,
       dragging s' = joy_b i (btn_left_drag (args s))
       ∧ drag_events o
         = if joy_b i (btn_left_drag (args s))
           then (if dragging s then [] else [true])
           else (if dragging s then [false] else [])).
Proof.
  unfold drag_phase. apply wpE_bind, wpE_get.
  destruct (joy_b i (btn_left_drag (args s))), (dragging s) eqn:Hd;
    simpl; wp; done.
Qed.

Lemma motion_phase_spec i s :
  wpE True (motion_phase i) s
    (λ _ s' o,
       dragging s' = joy_b i (btn_left_drag (args s))
       ∧ drag_events o
         = if joy_b i (btn_left_drag (args s))
           then (if dragging s then [] else [true])
           else (if dragging s then [false] else [])).
Proof.
  unfold motion_phase. apply wpE_bind, wpE_get.
  apply wpE_bind, wpE_lift.
  destruct (integrate _ _ _ _ _ _) as [v|e]; [|done].
  apply wpE_bind, wpE_modify.
  apply wpE_bind, wpE_lift. destruct (to_int _) as [dx|e]; [|done].
  apply wpE_bind, wpE_lift. destruct (to_int _) as [dy|e]; [|done].
  apply wpE_bind.
  eapply wpE_emits_only.
  { instantiate (1 := not_drag). frame. }
  eapply wpE_preserves.
  { instantiate (1 := λ s, (dragging s, args s)). frame. }
  apply wpE_any. intros _ s1 o1 Hfr1 Ho1. apply wpE_bind.
  eapply wpE_emits_only.
  { instantiate (1 := not_drag). frame. }
  eapply wpE_preserves.
  { instantiate (1 := λ s, (dragging s, args s)). frame. }
  apply wpE_any. intros _ s2 o2 Hfr2 Ho2.
  eapply wpE_mono; [|apply drag_phase_spec]. simpl.
  intros _ s3 o3 [Hd Ho3]. simplify_eq. simpl in *.
  rewrite !drag_events_app, (drag_events_none o1), (drag_events_none o2)
    by done.
  repeat match goal with Heq : _ = _ |- _ => rewrite Heq in * end.
  done.
Qed.

(** C8 (as amended): on a tick that runs in normal mode and returns,
    if motion is active and the device connected when line 279 is
    reached, then a pressed drag button with the flag down puts out one
    drag-begin and raises the flag, a released button with the flag up
    puts out one drag-end and lowers it, and otherwise no drag action is
    put out and the flag stays; if motion is stopped or the device is
    disconnected, no drag action is put out and the flag stays as it
    was. *)
Theorem C8_drag_follows_level_when_motion_active s i s' out :
  step s i = Ok (s', out) →
  mode_in_tick s i = false →
  (mouse_active_in_tick s i && joy_connected i = true →
   dragging s' = joy_b i (btn_left_drag (args s))
   ∧ drag_events out
     = if joy_b i (btn_left_drag (args s))
       then (if dragging s then [] else [true])
       else (if dragging s then [false] else []))
  ∧ (mouse_active_in_tick s i && joy_connected i = false →
     dragging s' = dragging s ∧ drag_events out = []).
Proof.
  intros Hstep Hrun.
  pose proof (step_wp True i s
    (λ s' out,
       (mouse_active_in_tick s i && joy_connected i = true →
        dragging s' = joy_b i (btn_left_drag (args s))
        ∧ drag_events out
          = if joy_b i (btn_left_drag (args s))
            then (if dragging s then [] else [true])
            else (if dragging s then [false] else []))
       ∧ (mouse_active_in_tick s i && joy_connected i = false →
          dragging s' = dragging s ∧ drag_events out = []))) as Hwp.
  rewrite Hstep in Hwp. apply Hwp. clear Hwp Hstep s' out.
  apply wp_tick. rewrite Hrun. unfold normal_phase, normal_buttons.
  apply wpE_bind, wpE_bind.
  eapply wpE_mono; [|apply motion_buttons_spec]. simpl.
  intros _ s1 o1 (Hma & Hfr1 & Ho1).
  rewrite mouse_active_in_tick_toggle in Hma.
  eapply wpE_preserves; [apply media_buttons_frame|].
  eapply wpE_emits_only; [apply media_buttons_not_drag|].
  apply wpE_any. intros _ s2 o2 Ho2 Hfr2. apply wpE_bind.
  eapply wpE_preserves; [apply normal_pad_frame|].
  eapply wpE_emits_only; [apply normal_pad_not_drag|].
  apply wpE_any. intros _ s3 o3 Ho3 Hfr3. apply wpE_bind, wpE_get.
  injection Hfr1 as Hd1 Ha1. injection Hfr2 as Hm2 Hd2 Ha2.
  injection Hfr3 as Hm3 Hd3 Ha3. simpl in Hd1, Ha1.
  assert (mouse_active s3 = mouse_active_in_tick s i) as -> by congruence.
  assert (dragging s3 = dragging s) as Hd by congruence.
  assert (args s3 = args s) as Ha by congruence.
  pose proof (toggle_out_not_drag s i) as Ho0.
  apply wpE_when. destruct (mouse_active_in_tick s i && joy_connected i).
  - eapply wpE_mono; [|apply motion_phase_spec]. simpl.
    intros _ s4 o4 [Hd4 Ho4]. split; [intros _|done].
    rewrite Ha, Hd in *. split; [done|].
    rewrite !drag_events_app, (drag_events_none (toggle_out s i)),
      (drag_events_none o1), (drag_events_none o2), (drag_events_none o3)
      by done.
    done.
  - split; [done|intros _]. simpl. split; [done|].
    rewrite !drag_events_app, (drag_events_none (toggle_out s i)),
      (drag_events_none o1), (drag_events_none o2), (drag_events_none o3)
      by done.
    done.
Qed.

(** *** The velocity a tick leaves *)

Lemma motion_phase_integrates i s :
  wpE True (motion_phase i) s (λ _ s' _, integrated s i s').
Proof.
  unfold motion_phase, integrated. apply wpE_bind, wpE_get.
  apply wpE_bind, wpE_lift.
  destruct (integrate _ _ _ _ _ _) as [[x y]|e]; [|done].
  apply wpE_bind, wpE_modify.
  eapply wpE_preserves.
  { instantiate (1 := λ s, (vx s, vy s)). unfold drag_phase. frame. }
  apply wpE_any. intros _ s' _ Hfr. simpl in Hfr. by rewrite Hfr.
Qed.

Lemma normal_buttons_pad_frame i hat :
  preserves (λ s, (vx s, vy s, args s))
    (normal_buttons i ≫= λ _, normal_pad hat).
Proof.
  unfold normal_buttons, motion_buttons, media_buttons, normal_pad. frame.
Qed.

(** The motion-active flag when line 279 is reached. *)
Lemma normal_buttons_pad_mouse_active i hat s :
  wpE True (normal_buttons i ≫= λ _, normal_pad hat) s
    (λ _ s' _, mouse_active s' = mouse_active_in_tick s i).
Proof.
  apply wpE_bind. unfold normal_buttons. apply wpE_bind.
  eapply wpE_mono; [|apply motion_buttons_spec]. simpl.
  intros _ s1 _ (Hma & _ & _).
  eapply wpE_preserves; [apply media_buttons_frame|].
  apply wpE_any. intros _ s2 _ Hfr2.
  eapply wpE_preserves; [apply normal_pad_frame|].
  apply wpE_any. intros _ s3 _ Hfr3.
  injection Hfr2 as Hm2 _ _. injection Hfr3 as Hm3 _ _. congruence.
Qed.

(** A tick that runs in normal mode with motion active and the device
    connected integrates the velocity. *)
Lemma tick_integrates i s :
  mode_in_tick s i = false →
  mouse_active_in_tick s i && joy_connected i = true →
  wpE True (tick i) s (λ _ s' _, integrated s i s').
Proof.
  intros Hrun Hgate. apply wp_tick. rewrite Hrun. unfold normal_phase.
  rewrite <- mouse_active_in_tick_toggle in Hgate.
  enough (wpE True
            ((normal_buttons i ≫= λ _, normal_pad (joy_h i))
             ≫= λ _, s0 ← get;
                     when (mouse_active s0 && joy_connected i) (motion_phase i))
            (toggle_state s i)
            (λ _ s2 _, integrated s i (set_prev_hat (joy_h i) s2))) as Hwp.
  { unfold wpE, mbind, M_bind, bind in *.
    destruct (normal_buttons i (toggle_state s i)) as [[[[] s1] o1]|e]; [|done].
    destruct (normal_pad (joy_h i) s1) as [[[[] s2] o2]|e]; [|done].
    simpl in *.
    by destruct (when (mouse_active s2 && joy_connected i) (motion_phase i) s2)
      as [[[[] s3] o3]|e]. }
  apply wpE_bind.
  eapply wpE_preserves; [apply normal_buttons_pad_frame|].
  eapply wpE_mono; [|apply normal_buttons_pad_mouse_active]. simpl.
  intros _ s1 _ Hma Hfr. injection Hfr as Hvx Hvy Hargs.
  apply wpE_bind, wpE_get. rewrite Hma, Hgate. apply wpE_when.
  eapply wpE_mono; [|apply motion_phase_integrates]. simpl.
  intros _ s2 _ Hint. unfold integrated in *. simpl in *.
  by rewrite <- Hvx, <- Hvy, <- Hargs.
Qed.

End Drag.

(** ** Comparisons on binary64 *)

Section Binary64.

Lemma ltb_leb (x y : float) :
  PrimFloat.ltb x y = true → PrimFloat.leb x y = true.
Proof.
  rewrite FloatAxioms.ltb_spec, FloatAxioms.leb_spec. unfold SFltb, SFleb.
  by destruct (SFcompare _ _) as [[]|].
Qed.

(** A zero of either sign compares as [+0.0] does. *)
Lemma ltb_zero_r (m z : float) :
  PrimFloat.eqb z PrimFloat.zero = true →
  PrimFloat.ltb m z = PrimFloat.ltb m PrimFloat.zero.
Proof.
  rewrite FloatAxioms.eqb_spec, !FloatAxioms.ltb_spec. unfold SFeqb, SFltb.
  change (Prim2SF PrimFloat.zero) with (S754_zero false).
  destruct (Prim2SF z) as [sz|sz| |sz mz ez]; simpl; try done.
  all: by destruct sz.
Qed.

End Binary64.

(** ** The velocity ceiling *)

Section Ceiling.

(** C6 (as amended): when the speed is zero and [max_velocity] is not
    negative, the test of line 293 fails, the clamp returns the velocity
    as it is and no division is evaluated. *)
Theorem C6_zero_speed_skips_clamp (x y maxv speed : float) :
  speed_of x y = Ok speed →
  PrimFloat.eqb speed PrimFloat.zero = true →
  PrimFloat.ltb maxv PrimFloat.zero = false →
  flt maxv speed = false ∧ clamp x y maxv = Ok (x, y).
Proof.
  intros Hspeed Hzero Hmax.
  assert (flt maxv speed = false) as Hlt.
  { simpl. by rewrite (ltb_zero_r maxv speed Hzero). }
  split; [done|]. unfold clamp. rewrite Hspeed. simpl. 
  simpl in Hlt. by rewrite Hlt.
Qed.

Lemma C6_zero_speed_skips_clamp_witness :
  clamp (lit 0 1) (lit 0 1) (lit 130 1) = Ok (lit 0 1 : float, lit 0 1 : float).
Proof.
  apply (C6_zero_speed_skips_clamp (lit 0 1) (lit 0 1) (lit 130 1) (lit 0 1));
    vm_compute; reflexivity.
Defined.

(** With a negative [max_velocity] the velocity at rest has speed zero,
    the test of line 293 succeeds and line 294 divides by zero: the loop
    started with [--max_velocity -1] ends on its first tick. *)
Lemma C6_negative_ceiling_divides_by_zero :
  speed_of (lit 0 1) (lit 0 1) = Ok (lit 0 1 : float)
  ∧ flt (lit (-1) 0 : float) (lit 0 1) = true
  ∧ clamp (lit 0 1) (lit 0 1) (lit (-1) 0 : float) = Raise ZeroDivisionError
  ∧ step Scenario.start_negative_ceiling (Scenario.idle 1000)
    = Raise ZeroDivisionError.
Proof. vm_compute. by split_and!. Qed.

End Ceiling.

(** ** Parameter adjustment *)

Section Tuning.

Lemma clamp_within (mn mx x : float) :
  PrimFloat.leb mn mn = true → PrimFloat.leb mn mx = true →
  PrimFloat.leb mx mx = true →
  within mn mx (py_max mn (py_min mx x)).
Proof.
  intros Hmn Hle Hmx. unfold within, py_max, py_min. simpl.
  destruct (PrimFloat.ltb x mx) eqn:Hx.
  - destruct (PrimFloat.ltb mn x) eqn:Hm; auto using ltb_leb.
  - destruct (PrimFloat.ltb mn mx) eqn:Hm; auto using ltb_leb.
Qed.

Lemma adjust_in_range item (val : float) (d : bool) :
  item ∈ CONFIG_ITEMS (T:=float) → item_range item (adjust item val d).
Proof.
  intros Hin. unfold CONFIG_ITEMS in Hin.
  repeat (apply elem_of_cons in Hin as [->|Hin]);
    [..|by apply elem_of_nil in Hin];
    unfold item_range, adjust; cbn [fst snd];
    apply clamp_within; vm_compute; reflexivity.
Qed.

Lemma adjust_all_in_range item (val : float) (dirs : list bool) :
  item ∈ CONFIG_ITEMS (T:=float) →
  Forall (item_range item) (adjust_all item val dirs).
Proof.
  intros Hin. revert val.
  induction dirs as [|d dirs IH]; intros val; simpl; constructor.
  - by apply adjust_in_range.
  - apply IH.
Qed.

Lemma setattr_in_range (a : Args float) item (v : float) :
  params_in_range a →
  item ∈ CONFIG_ITEMS (T:=float) → item_range item v →
  params_in_range (setattr a item.1.1.1.1 v).
Proof.
  intros Ha Hin Hv item' v' Hin' Hget.
  pose proof (Ha item') as Ha'.
  unfold CONFIG_ITEMS in Hin, Hin'.
  repeat (apply elem_of_cons in Hin as [->|Hin]);
    [..|by apply elem_of_nil in Hin];
    repeat (apply elem_of_cons in Hin' as [->|Hin']);
    try (by apply elem_of_nil in Hin');
    vm_compute in Hget; injection Hget as <-;
    first [ exact Hv
          | apply Ha';
            [ unfold CONFIG_ITEMS;
              repeat (apply elem_of_cons; first [by left | right])
            | reflexivity ] ].
Qed.

Lemma py_index_elem {A} (l : list A) (n : Z) (x : A) :
  py_index l n = Ok x → x ∈ l.
Proof.
  unfold py_index. destruct (_ <? 0)%Z; [done|].
  destruct (l !! _) as [y|] eqn:Hy; [|done].
  intros [= <-]. by eapply list_elem_of_lookup_2.
Qed.

Lemma config_pad_in_range (i : Input float) hat s :
  params_in_range (args s) →
  wpE True (config_pad i hat) s (λ _ s' _, params_in_range (args s')).
Proof.
  intros Ha. unfold config_pad. wp; simpl; try done.
  all: apply setattr_in_range; [done| |apply adjust_in_range];
    by eapply py_index_elem.
Qed.

Lemma tick_in_range (i : Input float) s :
  params_in_range (args s) →
  wpE True (tick i) s (λ _ s' _, params_in_range (args s')).
Proof.
  intros Ha. apply wp_tick. destruct (mode_in_tick s i).
  - unfold config_phase. apply wpE_bind.
    eapply wpE_mono; [|by apply config_pad_in_range]. simpl.
    intros _ s1 _ Hs1.
    eapply wpE_preserves; [apply config_save_frame|].
    apply wpE_any. intros _ s2 _ Hfr.
    injection Hfr as _ _ _ _ _ _ _ Hargs. simpl. by rewrite Hargs.
  - eapply wpE_preserves; [apply normal_phase_frame|].
    apply wpE_any. intros _ s2 _ Hfr.
    injection Hfr as _ _ _ _ Hargs _. simpl. by rewrite Hargs.
Qed.

Lemma run_in_range (s : State float) ins s' outs :
  params_in_range (args s) → run s ins = Ok (s', outs) →
  params_in_range (args s').
Proof.
  revert s outs. induction ins as [|i ins IH]; intros s outs Ha Hrun.
  { simpl in Hrun. by simplify_eq. }
  simpl in Hrun.
  pose proof (step_wp True i s _ (tick_in_range i s Ha)) as Hstep.
  destruct (step s i) as [[s1 out]|e]; [|done].
  destruct (run s1 ins) as [[s2 outs2]|e] eqn:Hrest; [|done].
  simplify_eq. by eapply IH.
Qed.

Lemma default_params_in_range : params_in_range DEFAULT_PARAMS.
Proof.
  intros item v Hin Hget. unfold CONFIG_ITEMS in Hin.
  repeat (apply elem_of_cons in Hin as [->|Hin]);
    [..|by apply elem_of_nil in Hin];
    vm_compute in Hget; injection Hget as <-; by vm_compute.
Qed.

(** C5: on binary64, whatever the starting value, every value reached by
    a series of pad "left" and "right" adjustments of a configuration
    item is in the item's range; and along any run of the loop that
    starts with all five parameters in their ranges, they stay in
    them. *)
Theorem C5_adjustments_stay_in_range :
  (∀ item (val : float) (dirs : list bool),
     item ∈ CONFIG_ITEMS (T:=float) →
     Forall (item_range item) (adjust_all item val dirs))
  ∧ (∀ (s : State float) ins s' outs,
       params_in_range (args s) → run s ins = Ok (s', outs) →
       params_in_range (args s'))
  ∧ params_in_range DEFAULT_PARAMS.
Proof.
  split_and!.
  - intros. by apply adjust_all_in_range.
  - intros. by eapply run_in_range.
  - apply default_params_in_range.
Qed.

End Tuning.

(** ** The velocity bound, in exact arithmetic *)

Section ExactBound.
Local Open Scope R_scope.

Lemma exact_speed_of (x y : R) : speed_of x y = Ok (sqrt (x * x + y * y)).
Proof. reflexivity. Qed.

Lemma sum_squares_nonneg (x y : R) : 0 <= x * x + y * y.
Proof. nra. Qed.

(** The clamp of lines 292-295. *)
Lemma exact_clamp (x y maxv : R) :
  0 <= maxv →
  let speed := sqrt (x * x + y * y) in
  (maxv < speed →
   clamp x y maxv = Ok (x * (maxv / speed), y * (maxv / speed))
   ∧ 0 <= maxv / speed
   ∧ sqrt ((x * (maxv / speed)) * (x * (maxv / speed))
           + (y * (maxv / speed)) * (y * (maxv / speed))) = maxv)
  ∧ (speed <= maxv → clamp x y maxv = Ok (x, y)).
Proof.
  intros Hmax speed. split.
  - intros Hlt.
    assert (0 < speed) as Hpos by lra.
    assert (speed * speed = x * x + y * y) as Hsq.
    { apply sqrt_sqrt, sum_squares_nonneg. }
    split_and!.
    + unfold clamp. rewrite exact_speed_of. simpl. fold speed.
      unfold Exact.ltb. destruct (Rlt_dec maxv speed); [|lra]. simpl.
      unfold Exact.div. destruct (Req_EM_T speed 0); [lra|]. simpl.
      do 2 f_equal; field; lra.
    + apply Rmult_le_pos; [lra|]. left. apply Rinv_0_lt_compat. lra.
    + replace (_ + _) with (maxv * maxv).
      { by apply sqrt_square. }
      transitivity ((x * x + y * y) * (maxv * maxv) / (speed * speed)).
      * rewrite <- Hsq. field. lra.
      * field. lra.
  - intros Hle. unfold clamp. rewrite exact_speed_of. simpl. fold speed.
    unfold Exact.ltb. destruct (Rlt_dec maxv speed); [lra|done].
Qed.

(** One integration step. *)
Lemma exact_integrate (accel fric maxv fx fy vx0 vy0 : R) :
  0 <= maxv →
  let x := (vx0 + fx * accel) * fric in
  let y := (vy0 + fy * accel) * fric in
  let speed := sqrt (x * x + y * y) in
  ∃ vx1 vy1 : R,
    integrate fx fy accel fric maxv (vx0, vy0) = Ok (vx1, vy1)
    ∧ speed_of vx1 vy1 = Ok (sqrt (vx1 * vx1 + vy1 * vy1))
    ∧ sqrt (vx1 * vx1 + vy1 * vy1) <= maxv
    ∧ (maxv < speed →
       vx1 = x * (maxv / speed) ∧ vy1 = y * (maxv / speed)
       ∧ 0 <= maxv / speed)
    ∧ (speed <= maxv → vx1 = x ∧ vy1 = y).
Proof.
  intros Hmax x y speed.
  destruct (exact_clamp x y maxv Hmax) as [Hfire Hskip].
  fold speed in Hfire, Hskip.
  destruct (Rlt_le_dec maxv speed) as [Hlt|Hle].
  - destruct (Hfire Hlt) as (Hclamp & Hfactor & Hnorm).
    exists (x * (maxv / speed)), (y * (maxv / speed)).
    split_and!; [exact Hclamp|done|lra|done|intros; lra].
  - exists x, y.
    split_and!; [by apply Hskip|done|exact Hle|intros; lra|done].
Qed.

(** Every step of a series of inputs. *)
Lemma exact_integrate_all (accel fric maxv : R) (v : R * R)
    (fs : list (R * R)) :
  0 <= maxv →
  ∃ vs : list (R * R),
    integrate_all accel fric maxv v fs = Ok vs
    ∧ length vs = length fs
    ∧ Forall (λ v1, sqrt (v1.1 * v1.1 + v1.2 * v1.2) <= maxv) vs.
Proof.
  intros Hmax. revert v.
  induction fs as [|[fx fy] fs IH]; intros [vx0 vy0].
  { exists []. by split_and!. }
  destruct (exact_integrate accel fric maxv fx fy vx0 vy0 Hmax)
    as (vx1 & vy1 & Hint & _ & Hle & _).
  destruct (IH (vx1, vy1)) as (vs & Hall & Hlen & Hvs).
  exists ((vx1, vy1) :: vs). split_and!.
  - simpl in *. rewrite Hint. simpl. by rewrite Hall.
  - simpl. by rewrite Hlen.
  - by constructor.
Qed.

(** A tick of the loop that integrates. *)
Lemma exact_tick_speed (s : State R) (i : Input R) s' out :
  0 <= max_velocity (args s) →
  step s i = Ok (s', out) →
  mode_in_tick s i = false →
  mouse_active_in_tick s i && joy_connected i = true →
  sqrt (vx s' * vx s' + vy s' * vy s') <= max_velocity (args s).
Proof.
  intros Hmax Hstep Hrun Hgate.
  pose proof (step_wp True i s _ (tick_integrates i s Hrun Hgate)) as Hwp.
  rewrite Hstep in Hwp. unfold integrated in Hwp.
  edestruct (exact_integrate (acceleration (args s)) (friction (args s))
               (max_velocity (args s))) as (vx1 & vy1 & Hint & _ & Hle & _);
    [exact Hmax|].
  rewrite Hint in Hwp. by simplify_eq.
Qed.



(** The bound needs the ceiling not to be negative, in exact arithmetic
    as on binary64: with [max_velocity = -1] the step from rest with the
    stick full right returns the velocity [(-1, 0)], of magnitude 1. *)
Lemma exact_negative_ceiling :
  integrate 1 0 10 (6 / 10) (-1) (0, 0) = Ok (-1, 0)
  ∧ sqrt ((-1) * (-1) + 0 * 0) = 1.
Proof.
  assert (sqrt ((0 + 1 * 10) * (6 / 10) * ((0 + 1 * 10) * (6 / 10))
                + (0 + 0 * 10) * (6 / 10) * ((0 + 0 * 10) * (6 / 10))) = 6)
    as Hsix.
  { replace (_ + _) with (6 * 6) by field. apply sqrt_square. lra. }
  split.
  - unfold integrate, clamp. rewrite exact_speed_of. simpl.
    rewrite Hsix. unfold Exact.ltb.
    destruct (Rlt_dec (-1) 6); [|lra]. simpl. unfold Exact.div.
    destruct (Req_EM_T 6 0); [lra|]. simpl. do 2 f_equal; field.
  - replace (_ + _) with (1 * 1) by field. apply sqrt_square. lra.
Qed.

End ExactBound.

(** ** Scenarios *)

Section Scenarios.
Import Scenario.

(** C9: with the deadzone at [0.07] a raw axis of [0.05] is filtered to
    zero, as is any axis whose absolute value is below the deadzone; and
    from rest, with [accel = 10], [friction = 0.6] and [maxVel = 13], a
    raw axis of [0.5] gives [vx = 3.0] after one step, which is
    [0.5 * 10 * 0.6] in binary64, and the tick moves the pointer by
    [int(3.0 * 1.2) = 3]. *)
Theorem C9_deadzone_and_first_step :
  condition (lit 5 2) (lit 7 2) = (lit 0 0 : float)
  ∧ (∀ raw dz : float,
       flt (fabs raw) dz = true → condition raw dz = lit 0 0)
  ∧ integrate (condition (lit 5 1) (lit 7 2)) (lit 0 0) (lit 10 0) (lit 6 1)
      (lit 13 0) (lit 0 1, lit 0 1)
    = Ok (lit 3 0 : float, lit 0 1 : float)
  ∧ fmul (fmul (lit 5 1) (lit 10 0)) (lit 6 1) = (lit 3 0 : float)
  ∧ step start (with_axis 0 (lit 5 1) (idle 1000))
    = Ok (set_prev_hat (0, 0)%Z
            (set_velocity (lit 3 0) (lit 0 1)
               (set_btn_state
                  (<["play" := false]>
                     (<["mute" := false]>
                        (<["resume" := false]>
                           (<["stop" := false]>
                              (<["cfg" := false]> ∅)))))
                  start)),
          [MouseMove 3 0]).
Proof.
  split_and!.
  - vm_compute. reflexivity.
  - intros raw dz Hlt. unfold condition. by rewrite Hlt.
  - vm_compute. reflexivity.
  - vm_compute. reflexivity.
  - vm_compute. reflexivity.
Qed.

(** The pad presses of [two_pad_presses]: the first and the third are
    accepted, the return to the centre in between comes too early. *)
Lemma two_pad_presses_accepted :
  accept_times start two_pad_presses = [lit 1000 0; lit 1001 0]
  ∧ sensitivity (args (run_state start two_pad_presses)) = lit 14 1.
Proof. vm_compute. by split. Qed.


(** [max_velocity] at 13: one pad "right" gives 14, ten pad "left" then
    give 4; near the ends of the range the value stops at 1 and at 30. *)
Lemma max_velocity_adjustments :
  adjust_all max_velocity_item (lit 13 0) (true :: replicate 10 false)
  = [lit 14 0; lit 13 0; lit 12 0; lit 11 0; lit 10 0; lit 9 0; lit 8 0;
     lit 7 0; lit 6 0; lit 5 0; lit 4 0]
  ∧ adjust_all max_velocity_item (lit 3 0) (replicate 4 false)
    = [lit 2 0; lit 1 0; lit 1 0; lit 1 0]
  ∧ adjust_all max_velocity_item (lit 29 0) (replicate 3 true)
    = [lit 30 0; lit 30 0; lit 30 0].
Proof. vm_compute. by split_and!. Qed.

Lemma C5_adjustments_stay_in_range_witness :
  Forall (item_range max_velocity_item)
    (adjust_all max_velocity_item (lit 13 0) (true :: replicate 10 false)).
Proof.
  apply C5_adjustments_stay_in_range.
  unfold CONFIG_ITEMS, max_velocity_item.
  repeat (apply elem_of_cons; first [by left | right]).
Defined.

(** On binary64 the clamp meets the ceiling only up to rounding: with the
    default parameters and the stick held on the diagonal, the third
    tick leaves a velocity whose computed speed is the double next above
    [13.0]. *)
Lemma binary64_speed_one_ulp_above_ceiling :
  match run start full_diagonal with
  | Ok (s, _) =>
      max_velocity (args s) = lit 13 0
      ∧ speed_of (vx s) (vy s) = Ok (PrimFloat.next_up (lit 13 0))
      ∧ flt (lit 13 0 : float) (PrimFloat.next_up (lit 13 0)) = true
  | Raise _ => False
  end.
Proof. vm_compute. by split_and!. Qed.


Lemma C3_save_edge_leaves_config_witness :
  ∃ s' out,
    step in_config (with_save_result false save_pressed) = Ok (s', out)
    ∧ step in_config (with_save_result true save_pressed)
      = Ok (set_log_saved_time (time_saved save_pressed) s',
            out ++ [LogAdd "SAVED joystick_config.json"])
    ∧ config_mode s' = false.
Proof.
  apply (C3_save_edge_leaves_config in_config save_pressed);
    first [reflexivity | simpl; lia].
Defined.

(** Entering configuration mode with the pad right and leaving it by
    the toggle, with the save control never pressed: the sensitivity went
    from [1.2] to [1.3]. *)
Lemma C7_adjustment_survives_round_trip :
  match run start adjust_then_leave.1 with
  | Ok (s1, _) =>
      config_mode start = false
      ∧ config_mode s1 = true
      ∧ cfg_edge s1 adjust_then_leave.2 = true
      ∧ Forall (λ i, joy_b i (btn_save_config (args start)) = false)
          (adjust_then_leave.1 ++ [adjust_then_leave.2])
      ∧ config_mode (toggle_state s1 adjust_then_leave.2) = false
      ∧ sensitivity (args start) = lit 12 1
      ∧ sensitivity (args (toggle_state s1 adjust_then_leave.2)) = lit 13 1
      ∧ flt (lit 12 1 : float) (lit 13 1) = true
  | Raise _ => False
  end.
Proof. vm_compute. split_and!; try done. repeat constructor. Qed.

Lemma C7_config_round_trip_witness :
  let ins := [press 10 (idle 1000); idle 1001] in
  let leave := press 10 (idle 1002) in
  vx (toggle_state (run_state start ins) leave) = vx start
  ∧ vy (toggle_state (run_state start ins) leave) = vy start
  ∧ mouse_active (toggle_state (run_state start ins) leave)
    = mouse_active start.
Proof.
  intros ins leave.
  edestruct (C7_config_round_trip start ins leave (run_state start ins))
    as (_ & _ & Hvx & Hvy & Hma & _);
    [reflexivity | vm_compute; by split_and! | vm_compute; reflexivity
    | reflexivity | reflexivity |].
  by split_and!.
Defined.

Lemma C8_drag_follows_level_when_motion_active_witness :
  ∃ s' out,
    step start (press 0 (idle 1000)) = Ok (s', out)
    ∧ dragging s' = true ∧ drag_events out = [true].
Proof.
  eexists _, _. split; [vm_compute; reflexivity|].
  edestruct (C8_drag_follows_level_when_motion_active start
               (press 0 (idle 1000))) as [Hon _];
    [vm_compute; reflexivity | reflexivity |].
  exact (Hon eq_refl).
Defined.

(** In normal mode with the pointer stopped (button 6 was pressed), the
    drag button goes down with the dragging flag down: the tick puts out
    nothing and the flag stays down. *)
Lemma C8_no_drag_begin_while_stopped :
  match run start drag_while_stopped.1 with
  | Ok (s1, _) =>
      mode_in_tick s1 drag_while_stopped.2 = false
      ∧ mouse_active s1 = false
      ∧ joy_b drag_while_stopped.2 (btn_left_drag (args s1)) = true
      ∧ dragging s1 = false
      ∧ match step s1 drag_while_stopped.2 with
        | Ok (s2, out) => dragging s2 = false ∧ out = []
        | Raise _ => False
        end
  | Raise _ => False
  end.
Proof. vm_compute. by split_and!. Qed.

(** C10: a tick in configuration mode leaves the stored edge states of
    stop, resume, mute and play as they were, and runs the same whatever
    they are (it does not read them); so with mute up when
    configuration mode is entered, down during it and still down when the
    toggle returns the loop to normal mode, the stored state of mute is
    still unset and that tick taps the mute key. *)
Theorem C10_press_during_config_fires_on_return :
  (∀ (s : State float) (i : Input float) s' out (key : string),
     key ∈ ["stop"; "resume"; "mute"; "play"] →
     mode_in_tick s i = true → step s i = Ok (s', out) →
     btn_state s' !! key = btn_state s !! key)
  ∧ (∀ (s : State float) (i : Input float) (key : string) (b : bool),
       key ∈ ["stop"; "resume"; "mute"; "play"] →
       mode_in_tick s i = true →
       step (set_btn_state (<[key := b]> (btn_state s)) s) i
       = match step s i with
         | Ok (s', out) =>
             Ok (set_btn_state (<[key := b]> (btn_state s')) s', out)
         | Raise e => Raise e
         end)
  ∧ match run start mute_across_config.1 with
    | Ok (s2, outs) =>
        Forall2 (λ i p, joy_b i (btn_mute (args start)) = p)
          (mute_across_config.1 ++ [mute_across_config.2])
          [false; true; true]
        ∧ outs = [[LogAdd "CONFIG MODE"]; []]
        ∧ config_mode s2 = true
        ∧ btn_state s2 !! "mute" = None
        ∧ match step s2 mute_across_config.2 with
          | Ok (s3, out) =>
              config_mode s3 = false
              ∧ out = [LogAdd "NORMAL MODE"; KeyTap 113; LogAdd "MUTE"]
          | Raise _ => False
          end
    | Raise _ => False
    end.
Proof.
  split_and!.
  - intros s i s' out key Hkey Hrun Hstep.
    pose proof (step_wp True i s _ (tick_config_frame i s Hrun)) as Hwp.
    rewrite Hstep in Hwp. destruct Hwp as (_ & _ & Hkeys).
    rewrite !elem_of_cons, elem_of_nil in Hkey.
    destruct Hkey as [Hk|[Hk|[Hk|[Hk|[]]]]]; rewrite Hk; by apply Hkeys.
  - intros s i key b Hkey Hrun.
    rewrite !elem_of_cons, elem_of_nil in Hkey.
    destruct Hkey as [Hk|[Hk|[Hk|[Hk|[]]]]]; rewrite Hk;
      by apply step_config_ignores_key.
  - vm_compute. split_and!; try done. repeat constructor.
Qed.

End Scenarios.

(** ** The calls a tick makes *)

Section Ticks.
Context {T : Type} `{PyFloat T}.
Implicit Types (s : State T) (i : Input T) (E : Prop).

Lemma edge_step_fst (p : bool) (key : string) (bs : gmap string bool) :
  (edge_step p key bs).1 = p && negb (default false (bs !! key)).
Proof.
  unfold edge_step. destruct (p && negb (default false (bs !! key))); [done|].
  by destruct (negb p).
Qed.

(** After a call of [edge] the dictionary holds the level read. *)
Lemma edge_step_level (p : bool) (key : string) (bs : gmap string bool) :
  (edge_step p key bs).2 !! key = Some p.
Proof.
  unfold edge_step. destruct p; simpl.
  - destruct (bs !! key) as [[]|] eqn:Hk; simpl; [done|..];
      by rewrite lookup_insert_eq.
  - by rewrite lookup_insert_eq.
Qed.

Lemma key_taps_app (o1 o2 : list (Event T)) :
  key_taps (o1 ++ o2) = key_taps o1 ++ key_taps o2.
Proof. apply omap_app. Qed.

Lemma clicks_app (o1 o2 : list (Event T)) :
  clicks (o1 ++ o2) = clicks o1 ++ clicks o2.
Proof. apply omap_app. Qed.

Lemma moves_app (o1 o2 : list (Event T)) :
  moves (o1 ++ o2) = moves o1 ++ moves o2.
Proof. apply omap_app. Qed.

Lemma saves_app (o1 o2 : list (Event T)) :
  saves (o1 ++ o2) = saves o1 ++ saves o2.
Proof. apply omap_app. Qed.

Lemma saves_none (o : list (Event T)) :
  Forall (λ e, saves [e] = []) o → saves o = [].
Proof.
  induction 1 as [|e o He _ IH]; [done|].
  change (e :: o) with ([e] ++ o). by rewrite saves_app, He, IH.
Qed.

Lemma hat_eqb_eq (a b : Z * Z) : hat_eqb a b = true ↔ a = b.
Proof.
  unfold hat_eqb. destruct a, b. simpl.
  rewrite andb_true_iff, !Z.eqb_eq.
  split; [intros [-> ->]|intros [= -> ->]]; done.
Qed.

Lemma mouse_active_in_tick_rising s i :
  mouse_active_in_tick s i
  = if rising s i "resume" (btn_resume_mouse (args s)) then true
    else if rising s i "stop" (btn_stop_mouse (args s)) then false
    else mouse_active s.
Proof. unfold mouse_active_in_tick, rising. by rewrite !edge_step_fst. Qed.

Lemma mode_in_tick_rising s i :
  mode_in_tick s i
  = if rising s i "cfg" (btn_enter_config (args s))
    then negb (config_mode s) else config_mode s.
Proof. unfold mode_in_tick, cfg_edge, rising. by rewrite edge_step_fst. Qed.

Lemma rising_toggle s i (key : string) btn :
  key ≠ "cfg" → rising (toggle_state s i) i key btn = rising s i key btn.
Proof. intros Hne. unfold rising. simpl. by rewrite edge_step_other. Qed.

Lemma toggle_out_calls s i :
  key_taps (toggle_out s i) = [] ∧ clicks (toggle_out s i) = []
  ∧ moves (toggle_out s i) = [] ∧ saves (toggle_out s i) = [].
Proof. unfold toggle_out. by destruct (cfg_edge s i). Qed.

Lemma toggle_out_no_action s i :
  Forall (λ e : Event T, is_action e = false) (toggle_out s i).
Proof. unfold toggle_out. destruct (cfg_edge s i); repeat constructor. Qed.

(** A computation that returns, whatever may raise. *)
Lemma wpE_total {A} E (m : M T A) s
    (Q : A → State T → list (Event T) → Prop) :
  wpE False m s Q → wpE E m s Q.
Proof. unfold wpE. by destruct (m s) as [[[a s'] o]|e]. Qed.

Lemma wpE_raise {A} (E : Prop) (m : M T A) s
    (Q : A → State T → list (Event T) → Prop) :
  E → wpE True m s Q → wpE E m s Q.
Proof. unfold wpE. by destruct (m s) as [[[a s'] o]|e]. Qed.

Lemma wpE_assoc {A B C} E (m : M T A) (f : A → M T B) (g : B → M T C) s
    (Q : C → State T → list (Event T) → Prop) :
  wpE E ((m ≫= f) ≫= g) s Q → wpE E (m ≫= λ a, f a ≫= g) s Q.
Proof.
  unfold wpE, mbind, M_bind, bind.
  destruct (m s) as [[[a s1] o1]|e]; [|done].
  destruct (f a s1) as [[[b s2] o2]|e]; [|done].
  destruct (g b s2) as [[[c s3] o3]|e]; [|done].
  by rewrite app_assoc.
Qed.

End Ticks.

(** One step through a tick, with the dictionary of [edge] looked up. *)
Ltac st :=
  st_fields; rewrite ?edge_step_fst; rewrite ?edge_step_other by done.

Section TickSpecs.
Context {T : Type} `{PyFloat T}.
Implicit Types (s : State T) (i : Input T) (E : Prop).

(** Lines 261-277: the one-shot buttons and the pad of normal mode. *)
Lemma normal_controls_spec i hat s :
  wpE False (normal_buttons i ≫= λ _, normal_pad hat) s
    (λ _ s' o,
       key_taps o
       = (if rising s i "mute" (btn_mute (args s)) then [113%Z] else [])
         ++ (if rising s i "play" (btn_play_pause (args s)) then [164%Z]
             else [])
         ++ (if hat_eqb hat (prev_hat s) then []
             else match cmds hat with Some c => [c] | None => [] end)
       ∧ clicks o = [] ∧ moves o = []
       ∧ mouse_active s' = mouse_active_in_tick s i
       ∧ (vx s', vy s', dragging s', config_mode s', sel s', prev_hat s',
          last_hat_time s', args s', log_saved_time s')
         = (vx s, vy s, dragging s, config_mode s, sel s, prev_hat s,
            last_hat_time s, args s, log_saved_time s)
       ∧ btn_state s' !! "stop" = Some (joy_b i (btn_stop_mouse (args s)))
       ∧ btn_state s' !! "resume" = Some (joy_b i (btn_resume_mouse (args s)))
       ∧ btn_state s' !! "mute" = Some (joy_b i (btn_mute (args s)))
       ∧ btn_state s' !! "play" = Some (joy_b i (btn_play_pause (args s)))
       ∧ ∀ key : string,
           key ≠ "stop" → key ≠ "resume" → key ≠ "mute" → key ≠ "play" →
           btn_state s' !! key = btn_state s !! key).
Proof.
  rewrite mouse_active_in_tick_rising.
  unfold normal_buttons, motion_buttons, media_buttons, normal_pad, rising.
  repeat (wp_step; st).
  all: destruct (hat_eqb hat (prev_hat s)); try discriminate.
  all: split_and!; try done.
  all: try (by rewrite ?edge_step_other, ?edge_step_level by done).
  all: by intros key ????; rewrite !edge_step_other by done.
Qed.

(** Lines 279-310: motion, right click and drag. *)
Lemma motion_phase_output i s :
  wpE True (motion_phase i) s
    (λ _ s' o,
       key_taps o = []
       ∧ clicks o
         = (if joy_b i (btn_right_click (args s)) then [0xC1%Z] else [])
           ++ drag_click (joy_b i (btn_left_drag (args s))) (dragging s)
       ∧ (∃ dx dy,
            to_int (fmul (vx s') (sensitivity (args s))) = Ok dx
            ∧ to_int (fmul (vy s') (sensitivity (args s))) = Ok dy
            ∧ moves o = if ((dx =? 0) && (dy =? 0))%Z then []
                        else [(dx, dy)])
       ∧ dragging s' = joy_b i (btn_left_drag (args s))
       ∧ (mouse_active s', btn_state s', config_mode s', sel s', prev_hat s',
          last_hat_time s', args s', log_saved_time s')
         = (mouse_active s, btn_state s, config_mode s, sel s, prev_hat s,
            last_hat_time s, args s, log_saved_time s)).
Proof.
  unfold motion_phase, drag_phase, drag_click.
  repeat (wp_step; st); try done.
  all: split_and!; try done.
  all: try (eexists _, _; split_and!; [done..|]).
  all: try (destruct (_ =? 0)%Z, (_ =? 0)%Z; simpl in *; done).
  all: try (by destruct (joy_b i (btn_left_drag (args s))), (dragging s)).
Qed.

(** A tick in normal mode: it can raise only in the motion phase. *)
Lemma normal_tick_spec i s :
  mode_in_tick s i = false →
  wpE (mouse_active_in_tick s i && joy_connected i = true) (tick i) s
    (λ _ s' o,
       key_taps o
       = (if rising s i "mute" (btn_mute (args s)) then [113%Z] else [])
         ++ (if rising s i "play" (btn_play_pause (args s)) then [164%Z]
             else [])
         ++ (if hat_eqb (joy_h i) (prev_hat s) then []
             else match cmds (joy_h i) with Some c => [c] | None => [] end)
       ∧ mouse_active s' = mouse_active_in_tick s i
       ∧ (config_mode s', sel s', prev_hat s', last_hat_time s', args s',
          log_saved_time s')
         = (false, sel s, joy_h i, last_hat_time s, args s, log_saved_time s)
       ∧ (btn_state s' !! "cfg" = Some (joy_b i (btn_enter_config (args s)))
          ∧ btn_state s' !! "stop" = Some (joy_b i (btn_stop_mouse (args s)))
          ∧ btn_state s' !! "resume"
            = Some (joy_b i (btn_resume_mouse (args s)))
          ∧ btn_state s' !! "mute" = Some (joy_b i (btn_mute (args s)))
          ∧ btn_state s' !! "play"
            = Some (joy_b i (btn_play_pause (args s))))
       ∧ (∀ key : string,
            key ≠ "cfg" → key ≠ "stop" → key ≠ "resume" → key ≠ "mute" →
            key ≠ "play" → btn_state s' !! key = btn_state s !! key)
       ∧ if mouse_active_in_tick s i && joy_connected i
         then
           integrated s i s'
           ∧ dragging s' = joy_b i (btn_left_drag (args s))
           ∧ clicks o
             = (if joy_b i (btn_right_click (args s)) then [0xC1%Z] else [])
               ++ drag_click (joy_b i (btn_left_drag (args s))) (dragging s)
           ∧ ∃ dx dy,
               to_int (fmul (vx s') (sensitivity (args s))) = Ok dx
               ∧ to_int (fmul (vy s') (sensitivity (args s))) = Ok dy
               ∧ moves o = if ((dx =? 0) && (dy =? 0))%Z then []
                           else [(dx, dy)]
         else
           (vx s', vy s', dragging s') = (vx s, vy s, dragging s)
           ∧ clicks o = [] ∧ moves o = []).
Proof.
  intros Hmode. apply wp_tick. rewrite Hmode. unfold normal_phase.
  apply wpE_assoc, wpE_bind.
  eapply wpE_mono; [|apply wpE_total, normal_controls_spec]. cbn beta.
  intros _ s1 o1
    (Hk & Hc & Hm & Hma & Hfr & Hstop & Hres & Hmute & Hplay & Hoth).
  rewrite !rising_toggle in Hk by done.
  rewrite mouse_active_in_tick_toggle in Hma.
  pose proof (toggle_out_calls s i) as (Htk & Htc & Htm & _).
  injection Hfr as Hvx Hvy Hdr Hcm Hsel Hph Hlt Hargs Hlog.
  simpl in Hvx, Hvy, Hdr, Hcm, Hsel, Hph, Hlt, Hargs, Hlog, Hk, Hstop, Hres,
    Hmute, Hplay.
  assert (btn_state s1 !! "cfg" = Some (joy_b i (btn_enter_config (args s))))
    as Hcfg.
  { rewrite Hoth by done. simpl. apply edge_step_level. }
  assert (∀ key : string,
            key ≠ "cfg" → key ≠ "stop" → key ≠ "resume" → key ≠ "mute" →
            key ≠ "play" → btn_state s1 !! key = btn_state s !! key) as Hoth'.
  { intros key ?????. rewrite Hoth by done. simpl. by apply edge_step_other. }
  apply wpE_bind, wpE_get. apply wpE_when. rewrite Hma.
  destruct (mouse_active_in_tick s i && joy_connected i) eqn:Hg.
  - apply wpE_raise; [done|].
    eapply wpE_mono;
      [|apply wpE_conj;
        [apply motion_phase_output|apply motion_phase_integrates]].
    cbn beta.
    intros _ s2 o2 ((Hk2 & Hc2 & Hm2 & Hd2 & Hfr2) & Hint).
    injection Hfr2 as Hma2 Hbs2 Hcm2 Hsel2 Hph2 Hlt2 Hargs2 Hlog2.
    rewrite !key_taps_app, !clicks_app, !moves_app.
    rewrite Htk, Htc, Htm, Hk, Hc, Hm, Hk2, Hc2. simpl.
    rewrite ?Hbs2, ?Hma2, ?Hsel2, ?Hlt2, ?Hargs2, ?Hlog2, ?Hcm2, ?Hcm,
      ?Hmode, ?Hsel, ?Hlt, ?Hargs, ?Hlog, ?Hdr, ?Hph, ?app_nil_r.
    split_and!; try done.
    + unfold integrated in *. simpl in *.
      by rewrite <- Hvx, <- Hvy, <- Hargs.
    + by rewrite Hd2, Hargs.
    + destruct Hm2 as (dx & dy & Hdx & Hdy & Hm2). exists dx, dy.
      by rewrite <- Hargs.
  - rewrite !key_taps_app, !clicks_app, !moves_app.
    rewrite Htk, Htc, Htm, Hk, Hc, Hm. simpl.
    rewrite ?Hcm, ?Hmode, ?Hsel, ?Hlt, ?Hargs, ?Hlog, ?Hdr, ?Hph, ?Hvx,
      ?Hvy, ?app_nil_r.
    by split_and!.
Qed.

End TickSpecs.

Section ConfigSpecs.
Context {T : Type} `{PyFloat T}.
Implicit Types (s : State T) (i : Input T) (E : Prop).

Lemma config_pad_sel i hat s :
  wpE True (config_pad i hat) s
    (λ _ s' _,
       sel s'
       = if negb (hat_eqb hat (prev_hat s))
            && flt (lit 18 2) (fsub (time_now i) (last_hat_time s))
         then if hat_eqb hat (0, 1)%Z then ((sel s + 1) `mod` 5)%Z
              else if hat_eqb hat (0, -1)%Z then ((sel s - 1) `mod` 5)%Z
              else sel s
         else sel s).
Proof.
  unfold config_pad.
  destruct (negb (hat_eqb hat (prev_hat s))
            && flt (lit 18 2) (fsub (time_now i) (last_hat_time s))) eqn:Hg.
  - destruct (hat_eqb hat (0, 1)%Z) eqn:Hup.
    { apply hat_eqb_eq in Hup as ->. repeat (wp_step; st); try done. }
    destruct (hat_eqb hat (0, -1)%Z) eqn:Hdown.
    { apply hat_eqb_eq in Hdown as ->. repeat (wp_step; st); try done. }
    repeat (wp_step; st); try done.
  - apply wpE_bind, wpE_get. rewrite Hg. by apply wpE_when.
Qed.

Lemma config_save_spec i s :
  wpE False (config_save i) s
    (λ _ s' _,
       config_mode s'
       = (if rising s i "save" (btn_save_config (args s)) then false
          else config_mode s)
       ∧ btn_state s' !! "save" = Some (joy_b i (btn_save_config (args s)))
       ∧ ∀ key : string,
           key ≠ "save" → btn_state s' !! key = btn_state s !! key).
Proof.
  unfold config_save, save_config, rising.
  repeat (wp_step; st); split_and!; try done.
  all: try apply edge_step_level.
  all: intros key Hne; by apply edge_step_other.
Qed.

Lemma config_tick_spec i s :
  mode_in_tick s i = true →
  wpE True (tick i) s
    (λ _ s' _,
       sel s'
       = (if pad_gate s i
          then if hat_eqb (joy_h i) (0, 1)%Z then ((sel s + 1) `mod` 5)%Z
               else if hat_eqb (joy_h i) (0, -1)%Z
                    then ((sel s - 1) `mod` 5)%Z
                    else sel s
          else sel s)
       ∧ config_mode s'
         = negb (rising s i "save" (btn_save_config (args s)))
       ∧ prev_hat s' = joy_h i
       ∧ btn_state s' !! "cfg" = Some (joy_b i (btn_enter_config (args s)))
       ∧ btn_state s' !! "save"
         = Some (joy_b i (btn_save_config (args s)))).
Proof.
  intros Hmode. apply wp_tick. rewrite Hmode. unfold config_phase.
  apply wpE_bind.
  eapply wpE_preserves; [apply config_pad_frame|].
  eapply wpE_mono; [|apply config_pad_sel]. cbn beta.
  intros _ s1 _ Hsel Hfr.
  injection Hfr as _ _ _ _ Hcm Hbs _ _ Hbtn. simpl in Hsel, Hcm, Hbs.
  eapply wpE_preserves; [apply config_save_frame|].
  eapply wpE_mono; [|apply wpE_total, config_save_spec]. cbn beta.
  intros _ s2 _ (Hcm2 & Hsave & Hoth) Hfr2.
  injection Hfr2 as _ _ _ _ Hsel2 _ _ _. simpl.
  rewrite Hsel2, Hcm2, Hsave, Hoth by done. unfold rising.
  rewrite Hbtn, Hbs, Hcm, Hmode, Hsel. simpl.
  rewrite edge_step_other by done. rewrite edge_step_level.
  by split_and!.
Qed.

Lemma config_save_returns i s : wpE False (config_save i) s (λ _ _ _, True).
Proof. unfold config_save, save_config. wp; done. Qed.

Lemma config_phase_no_action i hat :
  emits_only (λ e, is_action e = false) (config_phase i hat).
Proof. unfold config_phase, config_pad, config_save, save_config. frame. Qed.

Lemma normal_phase_no_save i hat :
  emits_only (λ e, saves [e] = []) (normal_phase i hat).
Proof.
  unfold normal_phase, normal_buttons, motion_buttons, media_buttons,
    normal_pad, motion_phase, drag_phase.
  frame.
Qed.

Lemma config_pad_no_save i hat :
  emits_only (λ e, saves [e] = []) (config_pad i hat).
Proof. unfold config_pad. frame. Qed.

Lemma config_save_saves i s :
  wpE False (config_save i) s
    (λ _ s' o,
       saves o = if rising s i "save" (btn_save_config (args s))
                 then [args s] else []).
Proof.
  unfold config_save, save_config, rising.
  repeat (wp_step; st); done.
Qed.

Lemma config_pad_adjusts i hat s :
  negb (hat_eqb hat (prev_hat s))
  && flt (lit 18 2) (fsub (time_now i) (last_hat_time s)) = true →
  hat_eqb hat (1, 0)%Z || hat_eqb hat (-1, 0)%Z = true →
  wpE True (config_pad i hat) s
    (λ _ s' o,
       ∃ item val,
         py_index CONFIG_ITEMS (sel s) = Ok item
         ∧ getattr (args s) item.1.1.1.1 = Ok val
         ∧ args s'
           = setattr (args s) item.1.1.1.1
               (adjust item val (hat_eqb hat (1, 0)%Z))
         ∧ o = [LogParam item.1.1.1.1
                  (adjust item val (hat_eqb hat (1, 0)%Z))]
         ∧ sel s' = sel s).
Proof.
  intros Hgate Hside. unfold config_pad.
  apply wpE_bind, wpE_get. rewrite Hgate. apply wpE_when.
  assert (hat_eqb hat (0, 1)%Z = false ∧ hat_eqb hat (0, -1)%Z = false)
    as [-> ->].
  { apply orb_true_iff in Hside as [->%hat_eqb_eq| ->%hat_eqb_eq]; done. }
  rewrite Hside.
  repeat (wp_step; st); try done.
  eexists _, _. by split_and!.
Qed.

Lemma tick_sel_move i s :
  wpE True (tick i) s
    (λ _ s' _, (sel s' `mod` 5 = (sel s + sel_move s i) `mod` 5)%Z).
Proof.
  unfold sel_move, config_accepts.
  destruct (mode_in_tick s i) eqn:Hmode.
  - eapply wpE_mono; [|by apply config_tick_spec]. cbn beta.
    intros _ s' _ (-> & _). simpl.
    destruct (pad_gate s i); [|by rewrite Z.add_0_r].
    destruct (hat_eqb (joy_h i) (0, 1)%Z); [by rewrite Z.mod_mod|].
    destruct (hat_eqb (joy_h i) (0, -1)%Z); [by rewrite Z.mod_mod|].
    by rewrite Z.add_0_r.
  - apply wp_tick. rewrite Hmode.
    eapply wpE_preserves; [apply normal_phase_frame|].
    apply wpE_any. intros _ s2 _ Hfr.
    injection Hfr as _ Hsel _ _ _ _. simpl in *. by rewrite Hsel, Z.add_0_r.
Qed.

Lemma run_sel_moves s ins s' outs :
  run s ins = Ok (s', outs) →
  (sel s' `mod` 5 = (sel s + sel_moves s ins) `mod` 5)%Z.
Proof.
  revert s outs. induction ins as [|i ins IH]; intros s outs Hrun; simpl in *.
  { simplify_eq. by rewrite Z.add_0_r. }
  pose proof (step_wp True i s _ (tick_sel_move i s)) as Hstep.
  destruct (step s i) as [[s1 out]|e]; [|done].
  destruct (run s1 ins) as [[s2 outs2]|e] eqn:Hrun1; [|done].
  simplify_eq. rewrite (IH _ _ Hrun1).
  rewrite Z.add_assoc, <- Zplus_mod_idemp_l, Hstep, Zplus_mod_idemp_l.
  done.
Qed.

(** A tick with the device away. *)
Lemma disconnected_tick_spec i s :
  joy_connected i = false →
  wpE False (tick i) s
    (λ _ s' o,
       o = []
       ∧ (vx s', vy s', mouse_active s', dragging s', config_mode s', sel s',
          args s', log_saved_time s')
         = (vx s, vy s, mouse_active s, dragging s, config_mode s, sel s,
            args s, log_saved_time s)
       ∧ prev_hat s' = (0, 0)%Z).
Proof.
  intros Hdis.
  assert (∀ x, joy_b i x = false) as Hb.
  { intros x. unfold joy_b. by rewrite Hdis. }
  unfold tick, toggle_phase, config_phase, config_pad, config_save,
    normal_phase, normal_buttons, motion_buttons, media_buttons, normal_pad,
    joy_h.
  rewrite Hdis.
  change (hat_eqb (0, 0)%Z (0, 1)%Z) with false.
  change (hat_eqb (0, 0)%Z (0, -1)%Z) with false.
  change (hat_eqb (0, 0)%Z (1, 0)%Z) with false.
  change (hat_eqb (0, 0)%Z (-1, 0)%Z) with false.
  change (cmds (0, 0)%Z) with (@None Z).
  repeat (wp_step; st; rewrite ?Hb, ?andb_false_r; cbn [andb orb negb]).
  all: try done.
  all: by destruct (config_mode s).
Qed.

End ConfigSpecs.

(** ** What a tick does, control by control *)

Section TickTheorems.
Context {T : Type} `{PyFloat T}.
Implicit Types (s : State T) (i : Input T) (E : Prop).

(** X1: in a state the loop can reach from its start, a tick that runs
    in configuration mode returns: [CONFIG_ITEMS[sel]] and
    [getattr(args, k)] of lines 248-249 never raise. *)
Theorem config_tick_returns (a : Args T) ins s outs i :
  run (init_state a) ins = Ok (s, outs) →
  mode_in_tick s i = true →
  ∃ s' out, step s i = Ok (s', out).
Proof.
  intros Hrun Hmode.
  pose proof (reachable_sel_valid _ _ _ _ Hrun) as Hsel.
  rewrite step_config_unfold by done.
  destruct (config_pad_eq i (joy_h i) (toggle_state s i)) as (s2 & o2 & -> & _);
    [done|].
  pose proof (config_save_returns i s2) as Hs. unfold wpE in Hs.
  destruct (config_save i s2) as [[[[] s3] o3]|e]; [|done].
  eauto.
Qed.

(** X2: a tick that runs in configuration mode calls [ydotool] not at
    all: it puts out no key tap, no click and no pointer move. *)
Theorem config_tick_no_action s i s' out :
  step s i = Ok (s', out) →
  mode_in_tick s i = true →
  Forall (λ e, is_action e = false) out.
Proof.
  intros Hstep Hmode.
  pose proof (step_wp True i s (λ _ o, Forall (λ e, is_action e = false) o))
    as Hwp.
  rewrite Hstep in Hwp. apply Hwp. clear Hwp Hstep.
  apply wp_tick. rewrite Hmode.
  eapply wpE_mono; [|apply config_phase_no_action].
  simpl. intros _ s2 o2 Ho. apply Forall_app. split; [|done].
  apply toggle_out_no_action.
Qed.

(** X3: after any run from the start of the loop, the menu selection is
    the number of accepted pad transitions to [(0,1)] minus the number
    of accepted pad transitions to [(0,-1)], modulo the five items. *)
Theorem selection_counts_pad_steps (a : Args T) ins s outs :
  run (init_state a) ins = Ok (s, outs) →
  sel s = (sel_moves (init_state a) ins `mod` 5)%Z.
Proof.
  intros Hrun.
  pose proof (reachable_sel_valid _ _ _ _ Hrun) as Hsel.
  rewrite <- (Z.mod_small (sel s) 5) by done.
  by rewrite (run_sel_moves _ _ _ _ Hrun).
Qed.

(** X4: the mode a tick leaves: the mode it came in, flipped when the
    toggle control goes down, and normal mode whenever the save control
    goes down in configuration mode (so the two controls going down on
    one tick in normal mode save and stay in normal mode). *)
Theorem mode_after_tick s i s' out :
  step s i = Ok (s', out) →
  config_mode s'
  = (if rising s i "cfg" (btn_enter_config (args s))
     then negb (config_mode s) else config_mode s)
    && negb (rising s i "save" (btn_save_config (args s))).
Proof.
  intros Hstep. rewrite <- mode_in_tick_rising.
  destruct (mode_in_tick s i) eqn:Hmode.
  - pose proof (step_wp True i s _ (config_tick_spec i s Hmode)) as Hwp.
    rewrite Hstep in Hwp. by destruct Hwp as (_ & -> & _).
  - pose proof (step_wp _ i s _ (normal_tick_spec i s Hmode)) as Hwp.
    rewrite Hstep in Hwp. destruct Hwp as (_ & _ & Hfr & _).
    by injection Hfr as -> _ _ _ _ _.
Qed.

(** X5: after a tick, [prev_hat] is the pad as read, and [btn_state]
    holds, for every control the tick looked at, the level it read:
    the toggle always, the save control in configuration mode, and
    stop, resume, mute and play in normal mode. *)
Theorem tick_remembers_levels s i s' out :
  step s i = Ok (s', out) →
  prev_hat s' = joy_h i
  ∧ btn_state s' !! "cfg" = Some (joy_b i (btn_enter_config (args s)))
  ∧ if mode_in_tick s i
    then btn_state s' !! "save" = Some (joy_b i (btn_save_config (args s)))
    else btn_state s' !! "stop" = Some (joy_b i (btn_stop_mouse (args s)))
         ∧ btn_state s' !! "resume"
           = Some (joy_b i (btn_resume_mouse (args s)))
         ∧ btn_state s' !! "mute" = Some (joy_b i (btn_mute (args s)))
         ∧ btn_state s' !! "play"
           = Some (joy_b i (btn_play_pause (args s))).
Proof.
  intros Hstep. destruct (mode_in_tick s i) eqn:Hmode.
  - pose proof (step_wp True i s _ (config_tick_spec i s Hmode)) as Hwp.
    rewrite Hstep in Hwp. by destruct Hwp as (_ & _ & -> & -> & ->).
  - pose proof (step_wp _ i s _ (normal_tick_spec i s Hmode)) as Hwp.
    rewrite Hstep in Hwp.
    destruct Hwp as (_ & _ & Hfr & (-> & -> & -> & -> & ->) & _).
    by injection Hfr as _ _ -> _ _ _.
Qed.

(** X6: the key taps of a tick that runs in normal mode, in order:
    code 113 when mute goes down, code 164 when play/pause goes down,
    and the key of the pad direction when the pad has changed to one
    of the four directions; they do not depend on the motion flag or
    on the pointer. *)
Theorem normal_tick_key_taps s i s' out :
  step s i = Ok (s', out) →
  mode_in_tick s i = false →
  key_taps out
  = (if rising s i "mute" (btn_mute (args s)) then [113%Z] else [])
    ++ (if rising s i "play" (btn_play_pause (args s)) then [164%Z] else [])
    ++ (if hat_eqb (joy_h i) (prev_hat s) then []
        else match cmds (joy_h i) with Some c => [c] | None => [] end).
Proof.
  intros Hstep Hmode.
  pose proof (step_wp _ i s _ (normal_tick_spec i s Hmode)) as Hwp.
  rewrite Hstep in Hwp. by destruct Hwp as (-> & _).
Qed.

End TickTheorems.

(** ** The pointer, the pad and the file *)

Section PointerTheorems.
Context {T : Type} `{PyFloat T}.
Implicit Types (s : State T) (i : Input T) (E : Prop).

(** X7: the clicks of a tick that runs in normal mode.  With motion
    active and the device connected: [0xC1] on every tick that finds
    the right-click button down (by level, not by edge), then the click
    of the drag button; with motion stopped or the device away: no
    click at all. *)
Theorem normal_tick_clicks s i s' out :
  step s i = Ok (s', out) →
  mode_in_tick s i = false →
  clicks out
  = if mouse_active_in_tick s i && joy_connected i
    then (if joy_b i (btn_right_click (args s)) then [0xC1%Z] else [])
         ++ drag_click (joy_b i (btn_left_drag (args s))) (dragging s)
    else [].
Proof.
  intros Hstep Hmode.
  pose proof (step_wp _ i s _ (normal_tick_spec i s Hmode)) as Hwp.
  rewrite Hstep in Hwp. destruct Hwp as (_ & _ & _ & _ & _ & Hg).
  destruct (mouse_active_in_tick s i && joy_connected i).
  - by destruct Hg as (_ & _ & -> & _).
  - by destruct Hg as (_ & -> & _).
Qed.

(** X8: a tick that runs in normal mode with motion active and the
    device connected leaves the velocity [integrate] computes, and
    moves the pointer once by the velocity times the sensitivity,
    truncated toward zero, unless both components truncate to [0],
    when it does not call [ydotool mousemove]. *)
Theorem pointer_moves_by_truncated_velocity s i s' out :
  step s i = Ok (s', out) →
  mode_in_tick s i = false →
  mouse_active_in_tick s i && joy_connected i = true →
  integrated s i s'
  ∧ ∃ dx dy,
      to_int (fmul (vx s') (sensitivity (args s))) = Ok dx
      ∧ to_int (fmul (vy s') (sensitivity (args s))) = Ok dy
      ∧ moves out = if ((dx =? 0) && (dy =? 0))%Z then [] else [(dx, dy)].
Proof.
  intros Hstep Hmode Hgate.
  pose proof (step_wp _ i s _ (normal_tick_spec i s Hmode)) as Hwp.
  rewrite Hstep in Hwp. destruct Hwp as (_ & _ & _ & _ & _ & Hg).
  rewrite Hgate in Hg. by destruct Hg as (? & _ & _ & ?).
Qed.

(** X9: the motion flag after a tick that runs in normal mode: up when
    resume goes down, else down when stop goes down, else as it was;
    when both go down on one tick, resume wins. *)
Theorem stop_and_resume_buttons s i s' out :
  step s i = Ok (s', out) →
  mode_in_tick s i = false →
  mouse_active s'
  = if rising s i "resume" (btn_resume_mouse (args s)) then true
    else if rising s i "stop" (btn_stop_mouse (args s)) then false
    else mouse_active s.
Proof.
  intros Hstep Hmode.
  pose proof (step_wp _ i s _ (normal_tick_spec i s Hmode)) as Hwp.
  rewrite Hstep in Hwp. destruct Hwp as (_ & -> & _).
  apply mouse_active_in_tick_rising.
Qed.

(** X10: a tick that runs in normal mode with motion stopped or the
    device away returns, and leaves the velocity and the drag flag as
    they were (friction is not applied while the pointer is stopped);
    it clicks nothing and moves nothing. *)
Theorem stopped_tick_freezes_velocity s i :
  mode_in_tick s i = false →
  mouse_active_in_tick s i && joy_connected i = false →
  ∃ s' out,
    step s i = Ok (s', out)
    ∧ (vx s', vy s', dragging s') = (vx s, vy s, dragging s)
    ∧ clicks out = [] ∧ moves out = [].
Proof.
  intros Hmode Hgate.
  pose proof (step_wp _ i s _ (normal_tick_spec i s Hmode)) as Hwp.
  rewrite Hgate in Hwp.
  destruct (step s i) as [[s' out]|e]; [|done].
  destruct Hwp as (_ & _ & _ & _ & _ & Hg). by exists s', out.
Qed.

(** X11: a tick with the device away returns and puts out nothing, in
    either mode: no [ydotool] call, no save, no log line.  It keeps the
    velocity, the flags, the mode, the selection and the parameters,
    and leaves [prev_hat] at [(0,0)]. *)
Theorem disconnected_tick_does_nothing s i :
  joy_connected i = false →
  ∃ s',
    step s i = Ok (s', [])
    ∧ (vx s', vy s', mouse_active s', dragging s', config_mode s', sel s',
       args s')
      = (vx s, vy s, mouse_active s, dragging s, config_mode s, sel s,
         args s)
    ∧ prev_hat s' = (0, 0)%Z.
Proof.
  intros Hdis.
  pose proof (step_wp _ i s _ (disconnected_tick_spec i s Hdis)) as Hwp.
  destruct (step s i) as [[s' out]|e]; [|done].
  destruct Hwp as (-> & Hfr & Hph). exists s'. split_and!; [done| |done].
  by injection Hfr as -> -> -> -> -> -> -> _.
Qed.

(** X12: in configuration mode, a pad transition that the gate of
    line 241 rejects is dropped, not delayed: [prev_hat] takes the new
    reading all the same, so the next tick that finds the pad where it
    is fails the gate too, whatever the clock says, and selection and
    parameters stay as they were. *)
Theorem rejected_pad_press_is_dropped s i s1 o1 i2 s2 o2 :
  step s i = Ok (s1, o1) →
  mode_in_tick s i = true →
  pad_gate s i = false →
  step s1 i2 = Ok (s2, o2) →
  mode_in_tick s1 i2 = true →
  joy_h i2 = joy_h i →
  pad_gate s1 i2 = false ∧ sel s2 = sel s ∧ args s2 = args s.
Proof.
  intros Hstep1 Hmode1 Hgate1 Hstep2 Hmode2 Hhat.
  pose proof (step_wp True i s _ (config_tick_spec i s Hmode1)) as Hwp1.
  rewrite Hstep1, Hgate1 in Hwp1. destruct Hwp1 as (Hsel1 & _ & Hph1 & _).
  assert (pad_gate s1 i2 = false) as Hgate2.
  { unfold pad_gate. rewrite Hph1, Hhat.
    by rewrite (proj2 (hat_eqb_eq _ _) eq_refl). }
  pose proof (step_wp True i2 s1 _ (config_tick_spec i2 s1 Hmode2)) as Hwp2.
  rewrite Hstep2, Hgate2 in Hwp2. destruct Hwp2 as (Hsel2 & _).
  pose proof (step_wp True i s _ (tick_config_frame i s Hmode1)) as Hfr1.
  rewrite Hstep1 in Hfr1. destruct Hfr1 as (_ & Hargs1 & _).
  pose proof (step_wp True i2 s1 _ (tick_config_frame i2 s1 Hmode2)) as Hfr2.
  rewrite Hstep2 in Hfr2. destruct Hfr2 as (_ & Hargs2 & _).
  split_and!; [done|congruence|].
  rewrite Hargs2, Hargs1; [done|..];
    unfold config_adjusts, config_accepts;
    by rewrite ?Hgate1, ?Hgate2, !andb_false_r.
Qed.

(** X13: [save_config] is called by a tick exactly when the tick runs
    in configuration mode and the save control goes down; it is called
    once, with the parameters the tick leaves (the pad adjustment of
    the same tick included). *)
Theorem file_written_on_save_press_only s i s' out :
  step s i = Ok (s', out) →
  saves out
  = if mode_in_tick s i && rising s i "save" (btn_save_config (args s))
    then [args s'] else [].
Proof.
  intros Hstep.
  pose proof (step_wp True i s
    (λ s' o, saves o
             = if mode_in_tick s i
                  && rising s i "save" (btn_save_config (args s))
               then [args s'] else [])) as Hwp.
  rewrite Hstep in Hwp. apply Hwp. clear Hwp Hstep.
  apply wp_tick. destruct (mode_in_tick s i) eqn:Hmode.
  - unfold config_phase. apply wpE_bind.
    eapply wpE_emits_only; [apply config_pad_no_save|].
    eapply wpE_preserves; [apply config_pad_frame|].
    apply wpE_any. intros _ s1 o1 Hfr Ho1.
    injection Hfr as _ _ _ _ _ Hbs _ _ Hbtn. simpl in Hbs.
    eapply wpE_preserves; [apply config_save_frame|].
    eapply wpE_mono; [|apply wpE_total, config_save_saves]. cbn beta.
    intros _ s2 o2 Ho2 Hfr2. injection Hfr2 as _ _ _ _ _ _ _ Hargs2.
    rewrite !saves_app, (saves_none _ Ho1), Ho2.
    destruct (toggle_out_calls s i) as (_ & _ & _ & ->). simpl.
    unfold rising. rewrite Hbtn, Hbs, Hargs2.
    by rewrite edge_step_other.
  - eapply wpE_emits_only; [apply normal_phase_no_save|].
    apply wpE_any. intros _ s2 o2 Ho2.
    rewrite saves_app, (saves_none _ Ho2).
    by destruct (toggle_out_calls s i) as (_ & _ & _ & ->).
Qed.

(** X14: an accepted pad transition to [(1,0)] or [(-1,0)] in
    configuration mode sets the selected parameter, and no other, to
    its adjusted value, logs it, and leaves the selection. *)
Theorem adjustment_sets_selected_parameter s i s' out :
  step s i = Ok (s', out) →
  config_adjusts s i = true →
  ∃ item val,
    py_index CONFIG_ITEMS (sel s) = Ok item
    ∧ getattr (args s) item.1.1.1.1 = Ok val
    ∧ args s'
      = setattr (args s) item.1.1.1.1
          (adjust item val (hat_eqb (joy_h i) (1, 0)%Z))
    ∧ LogParam item.1.1.1.1 (adjust item val (hat_eqb (joy_h i) (1, 0)%Z))
      ∈ out
    ∧ sel s' = sel s.
Proof.
  intros Hstep Hadj. unfold config_adjusts, config_accepts in Hadj.
  apply andb_true_iff in Hadj as [[Hmode Hgate]%andb_true_iff Hside].
  pose proof (step_wp True i s
    (λ s' out, ∃ item val,
       py_index CONFIG_ITEMS (sel s) = Ok item
       ∧ getattr (args s) item.1.1.1.1 = Ok val
       ∧ args s'
         = setattr (args s) item.1.1.1.1
             (adjust item val (hat_eqb (joy_h i) (1, 0)%Z))
       ∧ LogParam item.1.1.1.1
           (adjust item val (hat_eqb (joy_h i) (1, 0)%Z)) ∈ out
       ∧ sel s' = sel s)) as Hwp.
  rewrite Hstep in Hwp. apply Hwp. clear Hwp Hstep.
  apply wp_tick. rewrite Hmode. unfold config_phase. apply wpE_bind.
  eapply wpE_mono; [|by apply config_pad_adjusts]. cbn beta.
  intros _ s1 o1 (item & val & Hitem & Hval & Hargs & -> & Hsel).
  eapply wpE_preserves; [apply config_save_frame|].
  apply wpE_any. intros _ s2 o2 Hfr.
  injection Hfr as _ _ _ _ Hsel2 _ _ Hargs2. simpl in *.
  exists item, val. rewrite Hargs2, Hsel2. split_and!; try done.
  apply elem_of_app. right. by left.
Qed.

End PointerTheorems.

(** ** The pointer at rest, on binary64 *)

Section Rest.
Implicit Types (s : State float) (i : Input float).

Lemma zero_binary64 (x : float) :
  PrimFloat.eqb x PrimFloat.zero = true ↔ ∃ b, Prim2SF x = S754_zero b.
Proof.
  rewrite FloatAxioms.eqb_spec.
  change (Prim2SF PrimFloat.zero) with (S754_zero false).
  destruct (Prim2SF x) as [b|b| |b m e] eqn:Hx; simpl.
  - split; eauto.
  - split; [by destruct b|intros [? ?]; done].
  - split; [done|intros [? ?]; done].
  - split; [by destruct b|intros [? ?]; done].
Qed.

Lemma mul_zero_binary64 (x y : float) :
  PrimFloat.eqb x PrimFloat.zero = true → F64.is_finite y = true →
  PrimFloat.eqb (PrimFloat.mul x y) PrimFloat.zero = true.
Proof.
  rewrite !zero_binary64. intros [b Hx] Hy. unfold F64.is_finite in Hy.
  rewrite FloatAxioms.mul_spec, Hx.
  destruct (Prim2SF y) as [c|c| |c m e]; try done; simpl; eauto.
Qed.

Lemma add_zero_binary64 (x y : float) :
  PrimFloat.eqb x PrimFloat.zero = true →
  PrimFloat.eqb y PrimFloat.zero = true →
  PrimFloat.eqb (PrimFloat.add x y) PrimFloat.zero = true.
Proof.
  rewrite !zero_binary64. intros [b Hx] [c Hy].
  rewrite FloatAxioms.add_spec, Hx, Hy. destruct b, c; simpl; eauto.
Qed.

Lemma sqrt_zero_binary64 (x : float) :
  PrimFloat.eqb x PrimFloat.zero = true →
  PrimFloat.eqb (PrimFloat.sqrt x) PrimFloat.zero = true.
Proof.
  rewrite !zero_binary64. intros [b Hx].
  rewrite FloatAxioms.sqrt_spec, Hx. simpl. eauto.
Qed.

Lemma zero_is_finite (x : float) :
  PrimFloat.eqb x PrimFloat.zero = true → F64.is_finite x = true.
Proof.
  rewrite zero_binary64. intros [b Hx]. unfold F64.is_finite. by rewrite Hx.
Qed.

Lemma to_int_zero (x : float) :
  PrimFloat.eqb x PrimFloat.zero = true → to_int x = Ok 0%Z.
Proof.
  rewrite zero_binary64. intros [b Hx]. simpl. unfold F64.to_int.
  by rewrite Hx.
Qed.

Lemma pow2_zero (x : float) :
  PrimFloat.eqb x PrimFloat.zero = true →
  ∃ y, pow2 x = Ok y ∧ PrimFloat.eqb y PrimFloat.zero = true.
Proof.
  intros Hx. exists (PrimFloat.mul x x). simpl. unfold F64.pow2.
  pose proof (mul_zero_binary64 x x Hx (zero_is_finite x Hx)) as Hxx.
  by rewrite (zero_is_finite _ Hxx), andb_false_r.
Qed.

Lemma integrate_at_rest (accel fric maxv x y : float) :
  PrimFloat.eqb x PrimFloat.zero = true →
  PrimFloat.eqb y PrimFloat.zero = true →
  F64.is_finite accel = true → F64.is_finite fric = true →
  PrimFloat.ltb maxv PrimFloat.zero = false →
  ∃ x' y',
    integrate (lit 0 0) (lit 0 0) accel fric maxv (x, y) = Ok (x', y')
    ∧ PrimFloat.eqb x' PrimFloat.zero = true
    ∧ PrimFloat.eqb y' PrimFloat.zero = true.
Proof.
  intros Hx Hy Hacc Hfric Hmax.
  assert (PrimFloat.eqb (lit 0 0) PrimFloat.zero = true) as H0 by done.
  pose proof (mul_zero_binary64 (lit 0 0) accel H0 Hacc) as Hf.
  pose proof (mul_zero_binary64 _ _ (add_zero_binary64 _ _ Hx Hf) Hfric) as Hx1.
  pose proof (mul_zero_binary64 _ _ (add_zero_binary64 _ _ Hy Hf) Hfric) as Hy1.
  unfold integrate. simpl fst. simpl snd.
  set (x1 := fmul (fadd x (fmul (lit 0 0) accel)) fric) in *.
  set (y1 := fmul (fadd y (fmul (lit 0 0) accel)) fric) in *.
  exists x1, y1. split; [|done].
  unfold clamp, speed_of.
  destruct (pow2_zero x1 Hx1) as (x2 & -> & Hx2).
  destruct (pow2_zero y1 Hy1) as (y2 & -> & Hy2).
  simpl.
  rewrite ltb_zero_r by (apply sqrt_zero_binary64, add_zero_binary64; done).
  by rewrite Hmax.
Qed.

Lemma motion_phase_at_rest i s :
  PrimFloat.eqb (vx s) PrimFloat.zero = true →
  PrimFloat.eqb (vy s) PrimFloat.zero = true →
  flt (fabs (joy_a i (mouse_x_axis (args s)))) (deadzone (args s)) = true →
  flt (fabs (joy_a i (mouse_y_axis (args s)))) (deadzone (args s)) = true →
  F64.is_finite (acceleration (args s)) = true →
  F64.is_finite (friction (args s)) = true →
  F64.is_finite (sensitivity (args s)) = true →
  PrimFloat.ltb (max_velocity (args s)) PrimFloat.zero = false →
  wpE False (motion_phase i) s
    (λ _ s' o,
       PrimFloat.eqb (vx s') PrimFloat.zero = true
       ∧ PrimFloat.eqb (vy s') PrimFloat.zero = true
       ∧ moves o = []).
Proof.
  intros Hx Hy Hdx Hdy Hacc Hfric Hsens Hmax.
  destruct (integrate_at_rest _ _ _ _ _ Hx Hy Hacc Hfric Hmax)
    as (x' & y' & Hint & Hx' & Hy').
  assert (to_int (fmul x' (sensitivity (args s))) = Ok 0%Z) as Hdx0
    by apply (to_int_zero _ (mul_zero_binary64 x' _ Hx' Hsens)).
  assert (to_int (fmul y' (sensitivity (args s))) = Ok 0%Z) as Hdy0
    by apply (to_int_zero _ (mul_zero_binary64 y' _ Hy' Hsens)).
  unfold motion_phase, drag_phase. apply wpE_bind, wpE_get. cbn beta zeta.
  unfold condition. rewrite Hdx, Hdy, Hint.
  apply wpE_bind, wpE_lift. apply wpE_bind, wpE_modify. cbn [fst snd].
  apply wpE_bind. st. rewrite Hdx0. apply wpE_lift.
  apply wpE_bind. st. rewrite Hdy0. apply wpE_lift.
  repeat (wp_step; st); try done.
Qed.

(** X15: on binary64, with the velocity at zero and both axes inside
    the deadzone, a tick that runs the motion phase returns, leaves the
    velocity at zero and does not move the pointer, for any finite
    acceleration, friction and sensitivity and any ceiling that is not
    negative: the pointer does not drift. *)
Theorem rest_stays_at_rest s i :
  mode_in_tick s i = false →
  mouse_active_in_tick s i && joy_connected i = true →
  PrimFloat.eqb (vx s) PrimFloat.zero = true →
  PrimFloat.eqb (vy s) PrimFloat.zero = true →
  flt (fabs (joy_a i (mouse_x_axis (args s)))) (deadzone (args s)) = true →
  flt (fabs (joy_a i (mouse_y_axis (args s)))) (deadzone (args s)) = true →
  F64.is_finite (acceleration (args s)) = true →
  F64.is_finite (friction (args s)) = true →
  F64.is_finite (sensitivity (args s)) = true →
  PrimFloat.ltb (max_velocity (args s)) PrimFloat.zero = false →
  ∃ s' out,
    step s i = Ok (s', out)
    ∧ PrimFloat.eqb (vx s') PrimFloat.zero = true
    ∧ PrimFloat.eqb (vy s') PrimFloat.zero = true
    ∧ moves out = [].
Proof.
  intros Hmode Hgate Hx Hy Hdx Hdy Hacc Hfric Hsens Hmax.
  enough (wpE False (tick i) s
            (λ _ s' o,
               PrimFloat.eqb (vx s') PrimFloat.zero = true
               ∧ PrimFloat.eqb (vy s') PrimFloat.zero = true
               ∧ moves o = [])) as Hwp.
  { apply step_wp in Hwp. destruct (step s i) as [[s' out]|e]; [|done].
    by exists s', out. }
  apply wp_tick. rewrite Hmode. unfold normal_phase.
  apply wpE_assoc, wpE_bind.
  eapply wpE_mono; [|apply normal_controls_spec]. cbn beta.
  intros _ s1 o1 (_ & _ & Hm & Hma & Hfr & _).
  rewrite mouse_active_in_tick_toggle in Hma.
  injection Hfr as Hvx Hvy _ _ _ _ _ Hargs _. simpl in Hvx, Hvy, Hargs.
  apply wpE_bind, wpE_get. rewrite Hma, Hgate. apply wpE_when.
  eapply wpE_mono; [|apply motion_phase_at_rest; by rewrite ?Hvx, ?Hvy, ?Hargs].
  cbn beta. intros _ s2 o2 (Hx2 & Hy2 & Hm2). simpl.
  split_and!; [done..|].
  rewrite !moves_app, Hm, Hm2.
  by destruct (toggle_out_calls s i) as (_ & _ & -> & _).
Qed.

End Rest.

(** ** A released stick, in exact arithmetic *)

Section Decay.
Local Open Scope R_scope.

Lemma exact_release (accel fric maxv x y : R) :
  0 <= fric <= 1 →
  sqrt (x * x + y * y) <= maxv →
  integrate (lit 0 0) (lit 0 0) accel fric maxv (x, y)
  = Ok (x * fric, y * fric)
  ∧ sqrt ((x * fric) * (x * fric) + (y * fric) * (y * fric)) <= maxv.
Proof.
  intros Hfric Hspeed.
  pose proof (sqrt_pos (x * x + y * y)) as Hpos.
  assert (sqrt ((x * fric) * (x * fric) + (y * fric) * (y * fric))
          = fric * sqrt (x * x + y * y)) as Hs.
  { replace (_ + _) with ((fric * fric) * (x * x + y * y)) by ring.
    rewrite sqrt_mult by nra. rewrite sqrt_square by lra. done. }
  assert (fric * sqrt (x * x + y * y) <= maxv) as Hle by nra.
  split; [|by rewrite Hs].
  assert ((lit 0 0 : R) = 0) as Hlit.
  { simpl. unfold Exact.lit. simpl. lra. }
  unfold integrate. rewrite Hlit. simpl.
  replace ((x + 0 * accel) * fric) with (x * fric) by ring.
  replace ((y + 0 * accel) * fric) with (y * fric) by ring.
  apply exact_clamp; [lra|]. by rewrite Hs.
Qed.


End Decay.

(** ** The log *)

Section Log.
Import LogDisplay.

Lemma add_keeps_last (ts msg : str) (logs : list str) :
  (length logs ≤ 14)%nat →
  add ts msg logs
  = drop (length (logs ++ [line ts msg]) - 14) (logs ++ [line ts msg])
  ∧ (length (add ts msg logs) ≤ 14)%nat.
Proof.
  intros Hlen. unfold add. rewrite length_app. simpl.
  destruct (14 <? length logs + 1)%nat eqn:Hlt.
  - apply Nat.ltb_lt in Hlt.
    replace (length logs + 1 - 14)%nat with 1%nat by lia.
    split; [done|]. rewrite length_drop, length_app. simpl. lia.
  - apply Nat.ltb_ge in Hlt.
    replace (length logs + 1 - 14)%nat with 0%nat by lia.
    split; [done|]. rewrite length_app. simpl. lia.
Qed.

Lemma add_all_keeps_last (calls : list (str * str)) (logs : list str) :
  (length logs ≤ 14)%nat →
  add_all calls logs
  = drop (length (logs ++ lines calls) - 14)
      (logs ++ lines calls).
Proof.
  revert logs. induction calls as [|[ts msg] calls IH]; intros logs Hlen.
  { simpl. rewrite app_nil_r.
    by replace (length logs - 14)%nat with 0%nat by lia. }
  destruct (add_keeps_last ts msg logs Hlen) as [Hadd Hlen'].
  change (add_all ((ts, msg) :: calls) logs)
    with (add_all calls (add ts msg logs)).
  rewrite IH by done. rewrite Hadd.
  set (l1 := logs ++ [line ts msg]).
  change (lines ((ts, msg) :: calls)) with (line ts msg :: lines calls).
  set (rest := lines calls).
  replace (logs ++ line ts msg :: rest) with (l1 ++ rest)
    by (unfold l1; by rewrite <- app_assoc).
  assert (length l1 = S (length logs)) as Hl1.
  { unfold l1. rewrite length_app. simpl. lia. }
  rewrite length_app, length_drop, length_app.
  destruct (decide (length l1 ≤ 14)%nat) as [Hle|Hgt].
  - replace (length l1 - 14)%nat with 0%nat by lia. simpl.
    by rewrite Nat.sub_0_r.
  - assert (length l1 = 15%nat) as H15 by lia. rewrite H15. simpl.
    destruct l1 as [|x l1]; [done|]. simpl in *.
    rewrite drop_0.
    replace (14 + length rest - 14)%nat with (length rest) by lia.
    replace (S (14 + length rest) - 14)%nat with (S (length rest)) by lia.
    simpl. by rewrite ?Nat.sub_0_r.
Qed.

(** X17: after any series of calls of [add] on a new [LogDisplay],
    [logs] holds the lines of the last 14 calls, oldest first, and of
    all calls when there were fewer. *)
Theorem log_holds_last_14_lines (calls : list (str * str)) :
  add_all calls []
  = drop (length calls - 14) (lines calls)
  ∧ length (add_all calls []) = Nat.min (length calls) 14.
Proof.
  pose proof (add_all_keeps_last calls []) as Hall. simpl in Hall.
  unfold lines in *. rewrite length_fmap in Hall.
  rewrite Hall by lia. split; [done|].
  rewrite length_drop, length_fmap. lia.
Qed.

(** X18: the message in a log line is at most 59 characters long: a
    message of up to 59 characters is kept whole and a longer one is
    cut to its first 56 characters and three dots.  The first 56
    characters are always kept, cutting twice is cutting once, and the
    line is the time stamp in brackets, a space and the message. *)
Theorem log_message_is_cut_to_59 (msg : str) :
  length (short msg) = Nat.min (length msg) 59
  ∧ take 56 (short msg) = take 56 msg
  ∧ short (short msg) = short msg
  ∧ ((length msg ≤ 59)%nat → short msg = msg)
  ∧ ((59 < length msg)%nat → short msg = take 56 msg ++ codes "...")
  ∧ ∀ ts,
      length (line ts msg) = (length ts + 3 + Nat.min (length msg) 59)%nat.
Proof.
  assert (length (short msg) = Nat.min (length msg) 59) as Hlen.
  { unfold short. destruct (59 <? length msg)%nat eqn:Hlt.
    - apply Nat.ltb_lt in Hlt. rewrite length_app, length_take.
      change (length (codes "...")) with 3%nat. lia.
    - apply Nat.ltb_ge in Hlt. lia. }
  split_and!; [done|..].
  - unfold short. destruct (59 <? length msg)%nat eqn:Hlt; [|done].
    apply Nat.ltb_lt in Hlt. rewrite take_app_le by (rewrite length_take; lia).
    rewrite take_take. by rewrite Nat.min_id.
  - unfold short at 1. rewrite Hlen.
    by replace (59 <? Nat.min (length msg) 59)%nat with false
      by (symmetry; apply Nat.ltb_ge; lia).
  - intros Hle. unfold short.
    by replace (59 <? length msg)%nat with false
      by (symmetry; apply Nat.ltb_ge; lia).
  - intros Hlt. unfold short.
    by replace (59 <? length msg)%nat with true
      by (symmetry; apply Nat.ltb_lt; lia).
  - intros ts. unfold line. rewrite !length_app, Hlen.
    change (length (codes "[")) with 1%nat.
    change (length (codes "] ")) with 2%nat. lia.
Qed.

End Log.

(** ** The device *)

Section Device.
Context {H T : Type} `{PyFloat T}.
Implicit Types (joy : Joy.Joy H) (p : Joy.Pygame H) (d : Joy.Device H T).

Lemma init_inv p joy :
  let r := Joy.init p joy in
  r.2 = Joy.connected r.1
  ∧ Joy.idx r.1 = Joy.idx joy
  ∧ (∀ h, Joy.j joy = Some h → Joy.j r.1 = Some h)
  ∧ (Joy.connected r.1 = true → is_Some (Joy.j r.1)).
Proof.
  unfold Joy.init, Joy.init_try.
  destruct (Joy.get_count p <=? Joy.idx joy)%Z; [by split_and!|].
  destruct (Joy.j joy) as [h0|] eqn:Hj; simpl.
  - destruct (Joy.j_init p h0); [|split_and!; simpl; done].
    destruct (Joy.get_name p h0); [|split_and!; simpl; done].
    destruct (Joy.get_numbuttons p h0); split_and!; simpl; eauto; done.
  - destruct (Joy.Joystick p (Joy.idx joy)) as [h0|];
      [|split_and!; simpl; done].
    destruct (Joy.j_init p h0); [|split_and!; simpl; done].
    destruct (Joy.get_name p h0); [|split_and!; simpl; done].
    destruct (Joy.get_numbuttons p h0); split_and!; simpl; eauto; done.
Qed.

(** X19: [Joy.init] returns the flag [connected] it leaves; when it
    returns [True] the device index is below [get_count()], [self.j]
    is a Joystick object, and [name] and [nbtn] are what that object
    answered. *)
Theorem init_returns_connected p joy :
  (Joy.init p joy).2 = Joy.connected (Joy.init p joy).1
  ∧ ((Joy.init p joy).2 = true →
     ∃ h n b,
       Joy.get_name p h = Some n ∧ Joy.get_numbuttons p h = Some b
       ∧ Joy.j (Joy.init p joy).1 = Some h
       ∧ Joy.name (Joy.init p joy).1 = n
       ∧ Joy.nbtn (Joy.init p joy).1 = b
       ∧ (Joy.idx joy < Joy.get_count p)%Z).
Proof.
  split; [apply init_inv|].
  unfold Joy.init, Joy.init_try.
  destruct (Joy.get_count p <=? Joy.idx joy)%Z eqn:Hc; [done|].
  apply Z.leb_gt in Hc.
  destruct (Joy.j joy) as [h0|] eqn:Hj; simpl.
  - destruct (Joy.j_init p h0); [|done].
    destruct (Joy.get_name p h0) eqn:Hn; [|done].
    destruct (Joy.get_numbuttons p h0) eqn:Hb; [|done].
    intros _. by eexists _, _, _.
  - destruct (Joy.Joystick p (Joy.idx joy)) as [h0|]; [|done].
    destruct (Joy.j_init p h0); [|done].
    destruct (Joy.get_name p h0) eqn:Hn; [|done].
    destruct (Joy.get_numbuttons p h0) eqn:Hb; [|done].
    intros _. by eexists _, _, _.
Qed.

Lemma init_all_inv ps joy :
  (Joy.connected joy = true → is_Some (Joy.j joy)) →
  (Joy.connected (Joy.init_all ps joy) = true →
   is_Some (Joy.j (Joy.init_all ps joy)))
  ∧ Joy.idx (Joy.init_all ps joy) = Joy.idx joy
  ∧ ∀ h, Joy.j joy = Some h → Joy.j (Joy.init_all ps joy) = Some h.
Proof.
  revert joy. induction ps as [|p ps IH]; intros joy Hinv; [done|].
  change (Joy.init_all (p :: ps) joy)
    with (Joy.init_all ps (Joy.init p joy).1).
  destruct (init_inv p joy) as (_ & Hidx & Hj & Hc).
  destruct (IH _ Hc) as (IH1 & IH2 & IH3).
  split_and!; [done|congruence|]. intros h Hh. apply IH3, Hj, Hh.
Qed.

(** X20: after [Joy(n)] and any series of calls of [init], whatever
    pygame answered, [connected] is up only with a Joystick object in
    [self.j]: the reads [a], [b] and [h] never find [self.j] to be
    [None], and [idx] is still [n]. *)
Theorem joy_reads_never_raise (n : Z) (ps : list (Joy.Pygame H)) d x :
  is_ok (Joy.a d (Joy.init_all ps (Joy.new n)) x) = true
  ∧ is_ok (Joy.b d (Joy.init_all ps (Joy.new n)) x) = true
  ∧ is_ok (Joy.h d (Joy.init_all ps (Joy.new n))) = true
  ∧ Joy.idx (Joy.init_all ps (Joy.new n)) = n.
Proof.
  destruct (init_all_inv ps (Joy.new n : Joy.Joy H)) as (Hc & Hidx & _);
    [done|].
  split_and!; [..|done]; unfold Joy.a, Joy.b, Joy.h;
    (destruct (Joy.connected _); [|done]);
    by destruct (Hc eq_refl) as [h0 ->].
Qed.

(** X21: the Joystick object is created once: from the call of [init]
    that sets [self.j], every later call keeps that object, also across
    a time when the device is away. *)
Theorem joystick_object_is_kept (ps1 ps2 : list (Joy.Pygame H)) (n : Z)
    (h : H) :
  Joy.j (Joy.init_all ps1 (Joy.new n)) = Some h →
  Joy.j (Joy.init_all (ps1 ++ ps2) (Joy.new n)) = Some h.
Proof.
  intros Hh. unfold Joy.init_all. rewrite foldl_app.
  destruct (init_all_inv ps2 (Joy.init_all ps1 (Joy.new n))) as (_ & _ & Hj).
  - destruct (init_all_inv ps1 (Joy.new n)) as (Hc & _); [done|]. exact Hc.
  - by apply Hj.
Qed.

End Device.

(** ** The start of [main] and the configuration file *)

Section Startup.
Context {V : Type}.
Implicit Types (defaults given saved params a : gmap string V).
Implicit Types (reserved : string → bool).

Lemma apply_saved_lookup reserved saved a k :
  Config.apply_saved reserved saved a !! k
  = match saved !! k with
    | Some v => if Config.hasattr reserved a k then Some v else a !! k
    | None => a !! k
    end.
Proof.
  unfold Config.apply_saved. revert k.
  apply (map_fold_weak_ind
    (λ r m, ∀ k,
       r !! k = match m !! k with
                | Some v => if Config.hasattr reserved a k then Some v
                            else a !! k
                | None => a !! k
                end)).
  { intros k. by rewrite lookup_empty. }
  intros i x m r Hi IH k.
  assert (Config.hasattr reserved r i = Config.hasattr reserved a i) as Hh.
  { unfold Config.hasattr. f_equal. apply bool_decide_ext.
    rewrite !elem_of_dom. by rewrite IH, Hi. }
  rewrite Hh. destruct (decide (k = i)) as [->|Hne].
  - rewrite lookup_insert_eq.
    destruct (Config.hasattr reserved a i); [by rewrite lookup_insert_eq|].
    by rewrite IH, Hi.
  - rewrite (lookup_insert_ne m) by done.
    destruct (Config.hasattr reserved a i);
      [rewrite lookup_insert_ne by done|]; apply IH.
Qed.

Lemma hasattr_parsed reserved defaults given k :
  k ∈ dom defaults → Config.hasattr reserved (given ∪ defaults) k = true.
Proof.
  intros Hk. unfold Config.hasattr. apply orb_true_iff. left.
  apply bool_decide_eq_true. rewrite dom_union. apply elem_of_union.
  by right.
Qed.

(** The loop of lines 175-177 on a parameter. *)
Lemma apply_saved_parameter reserved defaults given saved k :
  k ∈ dom defaults →
  Config.apply_saved reserved saved (given ∪ defaults) !! k
  = (saved ∪ given ∪ defaults) !! k.
Proof.
  intros Hk. rewrite apply_saved_lookup, hasattr_parsed by done.
  rewrite <- (assoc_L (∪)). rewrite (lookup_union saved).
  destruct (saved !! k) as [v|]; simpl.
  - by rewrite union_Some_l.
  - by rewrite (left_id_L None (∪)).
Qed.


(** X23: without a file, or with a file that cannot be opened or
    parsed, [main] goes on with the command line over the defaults and
    [using_file] down; with a file that parses to something else than
    an object, line 175 raises AttributeError and [main] ends before
    the window opens. *)
Theorem startup_without_a_dictionary reserved defaults given :
  dom given ⊆ dom defaults →
  Config.startup reserved defaults given Config.NoFile
  = Config.Started (given ∪ defaults, false)
  ∧ Config.startup reserved defaults given Config.Unreadable
    = Config.Started (given ∪ defaults, false)
  ∧ Config.startup reserved defaults given (Config.Contents Config.JOther)
    = Config.Crashes AttributeError.
Proof.
  intros Hgiven. unfold Config.startup, Config.parse_args.
  rewrite decide_True by done. simpl.
  unfold Config.apply_saved. by rewrite map_fold_empty.
Qed.

(** X24: after a call of [save_config] that went through, the next
    start gets, for every parameter, the value that was saved, whatever
    the command line says; what was written is the parameters and
    nothing else (line 88). *)
Theorem saved_parameters_come_back reserved defaults params given f :
  dom defaults ⊆ dom params →
  dom given ⊆ dom defaults →
  Config.startup reserved defaults given
    (Config.save_config defaults params Config.Written f).1
  = Config.Started (Config.saveable defaults params, true)
  ∧ dom (Config.saveable defaults params) = dom defaults
  ∧ ∀ k, k ∈ dom defaults →
         Config.saveable defaults params !! k = params !! k.
Proof.
  intros Hparams Hgiven.
  assert (∀ k, k ∈ dom defaults →
            Config.saveable defaults params !! k = params !! k) as Hk.
  { intros k Hk. unfold Config.saveable.
    destruct (params !! k) as [v|] eqn:Hv.
    - by apply map_lookup_filter_Some.
    - apply map_lookup_filter_None. left. done. }
  assert (dom (Config.saveable defaults params) = dom defaults) as Hdom.
  { apply set_eq. intros k. rewrite !elem_of_dom. split.
    - intros [v Hv]. unfold Config.saveable in Hv.
      apply map_lookup_filter_Some in Hv as [_ Hv]. simpl in Hv.
      by apply elem_of_dom.
    - intros Hd. apply elem_of_dom in Hd. rewrite Hk by done.
      apply elem_of_dom. by apply Hparams. }
  split_and!; [|done..].
  simpl. unfold Config.startup, Config.parse_args.
  rewrite decide_True by done. simpl. do 2 f_equal. apply map_eq. intros k.
  destruct (decide (k ∈ dom defaults)) as [Hd|Hd].
  - rewrite apply_saved_parameter by done.
    rewrite <- (assoc_L (∪)), lookup_union.
    assert (is_Some (Config.saveable defaults params !! k)) as [v Hv].
    { apply elem_of_dom. by rewrite Hdom. }
    rewrite Hv. by rewrite union_Some_l.
  - transitivity (@None V).
    + rewrite apply_saved_lookup.
      assert (Config.saveable defaults params !! k = None) as ->.
      { apply not_elem_of_dom. by rewrite Hdom. }
      apply not_elem_of_dom. rewrite dom_union.
      intros [Hg|Hd']%elem_of_union; [apply Hd, Hgiven, Hg|done].
    + symmetry. apply not_elem_of_dom. by rewrite Hdom.
Qed.

End Startup.

(** ** Instances of the properties above, on binary64 *)

Section Instances.
Import Scenario.

Lemma config_tick_returns_witness :
  ∃ s' out,
    step (run_state start [press 10 (idle 1000)]) (idle 1001) = Ok (s', out).
Proof.
  eapply (config_tick_returns DEFAULT_PARAMS [press 10 (idle 1000)]);
    vm_compute; reflexivity.
Defined.

Lemma config_tick_no_action_witness :
  ∃ s' out,
    step in_config save_pressed = Ok (s', out)
    ∧ Forall (λ e, is_action e = false) out.
Proof.
  eexists _, _. split; [vm_compute; reflexivity|].
  eapply (config_tick_no_action in_config save_pressed);
    [vm_compute; reflexivity|reflexivity].
Defined.

Lemma selection_counts_pad_steps_witness :
  sel (run_state start [press 10 (with_hat (0, 1)%Z (idle 1000))]) = 1%Z.
Proof.
  etransitivity;
    [eapply (selection_counts_pad_steps DEFAULT_PARAMS
               [press 10 (with_hat (0, 1)%Z (idle 1000))]);
     vm_compute; reflexivity|].
  vm_compute. reflexivity.
Defined.

Lemma mode_after_tick_witness :
  ∃ s' out,
    step start (press 9 (press 10 (idle 1000))) = Ok (s', out)
    ∧ config_mode s' = false ∧ length (saves out) = 1%nat.
Proof.
  eexists _, _. split; [vm_compute; reflexivity|].
  split; [|vm_compute; reflexivity].
  etransitivity;
    [eapply (mode_after_tick start (press 9 (press 10 (idle 1000))));
     vm_compute; reflexivity|].
  vm_compute. reflexivity.
Defined.

Lemma tick_remembers_levels_witness :
  ∃ s' out,
    step start (press 2 (with_hat (1, 0)%Z (idle 1000))) = Ok (s', out)
    ∧ prev_hat s' = (1, 0)%Z
    ∧ btn_state s' !! "mute" = Some true
    ∧ btn_state s' !! "play" = Some false.
Proof.
  eexists _, _. split; [vm_compute; reflexivity|].
  edestruct (tick_remembers_levels start
               (press 2 (with_hat (1, 0)%Z (idle 1000))))
    as (Hhat & _ & Hlev); [vm_compute; reflexivity|].
  change (mode_in_tick start (press 2 (with_hat (1, 0)%Z (idle 1000))))
    with false in Hlev.
  destruct Hlev as (_ & _ & Hmute & Hplay).
  split_and!; [exact Hhat|exact Hmute|exact Hplay].
Defined.

Lemma normal_tick_key_taps_witness :
  ∃ s' out,
    step start (press 2 (with_hat (0, 1)%Z (idle 1000))) = Ok (s', out)
    ∧ key_taps out = [113; 115]%Z.
Proof.
  eexists _, _. split; [vm_compute; reflexivity|].
  etransitivity;
    [eapply (normal_tick_key_taps start
               (press 2 (with_hat (0, 1)%Z (idle 1000))));
     vm_compute; reflexivity|].
  vm_compute. reflexivity.
Defined.

Lemma normal_tick_clicks_witness :
  ∃ s' out,
    step start (press 1 (press 0 (idle 1000))) = Ok (s', out)
    ∧ clicks out = [0xC1; 0x40]%Z.
Proof.
  eexists _, _. split; [vm_compute; reflexivity|].
  etransitivity;
    [eapply (normal_tick_clicks start (press 1 (press 0 (idle 1000))));
     vm_compute; reflexivity|].
  vm_compute. reflexivity.
Defined.

Lemma pointer_moves_by_truncated_velocity_witness :
  ∃ s' out dx dy,
    step start (with_axis 0 (lit 1 0) (idle 1000)) = Ok (s', out)
    ∧ to_int (fmul (vx s') (sensitivity (args start))) = Ok dx
    ∧ to_int (fmul (vy s') (sensitivity (args start))) = Ok dy
    ∧ moves out = if ((dx =? 0) && (dy =? 0))%Z then [] else [(dx, dy)].
Proof.
  edestruct (pointer_moves_by_truncated_velocity start
               (with_axis 0 (lit 1 0) (idle 1000)))
    as (_ & dx & dy & Hdx & Hdy & Hm);
    [vm_compute; reflexivity|reflexivity|reflexivity|].
  eexists _, _, dx, dy. split; [vm_compute; reflexivity|].
  split_and!; [exact Hdx|exact Hdy|exact Hm].
Defined.

Lemma stop_and_resume_buttons_witness :
  ∃ s' out,
    step start (press 5 (press 6 (idle 1000))) = Ok (s', out)
    ∧ mouse_active s' = true.
Proof.
  eexists _, _. split; [vm_compute; reflexivity|].
  etransitivity;
    [eapply (stop_and_resume_buttons start
               (press 5 (press 6 (idle 1000))));
     vm_compute; reflexivity|].
  vm_compute. reflexivity.
Defined.

Lemma stopped_tick_freezes_velocity_witness :
  ∃ s' out,
    step (set_mouse_active false start)
      (press 0 (with_axis 0 (lit 1 0) (idle 1000))) = Ok (s', out)
    ∧ (vx s', vy s', dragging s') = (vx start, vy start, false)
    ∧ clicks out = [] ∧ moves out = [].
Proof.
  apply (stopped_tick_freezes_velocity (set_mouse_active false start)
           (press 0 (with_axis 0 (lit 1 0) (idle 1000))));
    reflexivity.
Defined.

Lemma disconnected_tick_does_nothing_witness :
  ∃ s',
    step start (unplug (press 0 (with_axis 0 (lit 1 0) (idle 1000))))
    = Ok (s', [])
    ∧ (vx s', vy s', mouse_active s', dragging s', config_mode s', sel s',
       args s')
      = (vx start, vy start, true, false, false, 0%Z, args start)
    ∧ prev_hat s' = (0, 0)%Z.
Proof.
  apply (disconnected_tick_does_nothing start
           (unplug (press 0 (with_axis 0 (lit 1 0) (idle 1000)))));
    reflexivity.
Defined.

Lemma rejected_pad_press_is_dropped_witness :
  ∃ s1 o1 s2 o2,
    step in_config (with_hat (0, 1)%Z (idle_at (lit 1 1))) = Ok (s1, o1)
    ∧ step s1 (with_hat (0, 1)%Z (idle 1000)) = Ok (s2, o2)
    ∧ pad_gate s1 (with_hat (0, 1)%Z (idle 1000)) = false
    ∧ sel s2 = 0%Z ∧ args s2 = args in_config.
Proof.
  eexists _, _, _, _. split; [vm_compute; reflexivity|].
  split; [vm_compute; reflexivity|].
  eapply (rejected_pad_press_is_dropped in_config
            (with_hat (0, 1)%Z (idle_at (lit 1 1))) _ _
            (with_hat (0, 1)%Z (idle 1000)));
    vm_compute; reflexivity.
Defined.

Lemma file_written_on_save_press_only_witness :
  ∃ s' out,
    step in_config (with_hat (1, 0)%Z save_pressed) = Ok (s', out)
    ∧ saves out = [args s']
    ∧ sensitivity (args s') = lit 13 1.
Proof.
  eexists _, _. split; [vm_compute; reflexivity|].
  split; [|vm_compute; reflexivity].
  etransitivity;
    [eapply (file_written_on_save_press_only in_config
               (with_hat (1, 0)%Z save_pressed));
     vm_compute; reflexivity|].
  vm_compute. reflexivity.
Defined.

Lemma adjustment_sets_selected_parameter_witness :
  ∃ s' out item val,
    step in_config (with_hat (-1, 0)%Z (idle 1000)) = Ok (s', out)
    ∧ py_index CONFIG_ITEMS (sel in_config) = Ok item
    ∧ getattr (args in_config) item.1.1.1.1 = Ok val
    ∧ args s' = setattr (args in_config) item.1.1.1.1 (adjust item val false).
Proof.
  edestruct (adjustment_sets_selected_parameter in_config
               (with_hat (-1, 0)%Z (idle 1000)))
    as (item & val & Hitem & Hval & Hargs & _);
    [vm_compute; reflexivity|vm_compute; reflexivity|].
  eexists _, _, item, val. split; [vm_compute; reflexivity|].
  split_and!; [exact Hitem|exact Hval|exact Hargs].
Defined.

Lemma rest_stays_at_rest_witness :
  ∃ s' out,
    step start (with_axis 1 (lit (-6) 2) (with_axis 0 (lit 5 2) (idle 1000)))
    = Ok (s', out)
    ∧ PrimFloat.eqb (vx s') PrimFloat.zero = true
    ∧ PrimFloat.eqb (vy s') PrimFloat.zero = true
    ∧ moves out = [].
Proof.
  apply (rest_stays_at_rest start
           (with_axis 1 (lit (-6) 2) (with_axis 0 (lit 5 2) (idle 1000))));
    vm_compute; reflexivity.
Defined.

End Instances.

(** ** Instances for the stick, the device and the start *)

Section MoreInstances.
Import Scenario.


Lemma joystick_object_is_kept_witness :
  Joy.j (Joy.init_all ([plugged] ++ [unplugged; plugged]) (Joy.new 0))
  = Some 7%nat.
Proof. apply (joystick_object_is_kept [plugged]). reflexivity. Defined.


Lemma startup_without_a_dictionary_witness :
  Config.startup (λ _, false) two_defaults command_line Config.NoFile
  = Config.Started (command_line ∪ two_defaults, false)
  ∧ Config.startup (λ _, false) two_defaults command_line Config.Unreadable
    = Config.Started (command_line ∪ two_defaults, false)
  ∧ Config.startup (λ _, false) two_defaults command_line
      (Config.Contents Config.JOther)
    = Config.Crashes AttributeError.
Proof.
  apply (startup_without_a_dictionary (λ _, false) two_defaults
           command_line).
  apply (bool_decide_unpack _); vm_compute; exact I.
Defined.

Lemma saved_parameters_come_back_witness :
  Config.startup (λ _, false) two_defaults command_line
    (Config.save_config two_defaults adjusted Config.Written Config.NoFile).1
  = Config.Started (Config.saveable two_defaults adjusted, true)
  ∧ Config.saveable two_defaults adjusted !! "max_velocity"
    = Some (lit 50 1).
Proof.
  destruct (saved_parameters_come_back (λ _, false) two_defaults adjusted
              command_line Config.NoFile) as (Hstart & _ & Hk);
    [apply (bool_decide_unpack _); vm_compute; exact I
    |apply (bool_decide_unpack _); vm_compute; exact I|].
  split; [exact Hstart|]. rewrite Hk; [reflexivity|].
  apply (bool_decide_unpack _); vm_compute; exact I.
Defined.

End MoreInstances.
